(** * The poster editor (EditorPage): page geometry, viewport scale,
      scene, selection and style form

    The editor is a React component around one fabric canvas.  Its React
    state (selection, zoom, style form, poster size, orientation), the
    canvas' object list and the fabric objects themselves are embedded as
    one explicit [State]; every handler and effect body of the component is
    a function on that state, and the user and environment events are a
    step relation over it.

    Numbers: JavaScript numbers are embedded as exact rationals [Q].  The
    editor only divides by page dimensions (positive table entries), by the
    constant 100 and by the natural size of a decoded image (positive), so
    no infinity or NaN arises on the paths modelled here.  The rounding of
    doubles is not modelled.  A property therefore speaks of a computed
    number only in a form that rounding keeps: which expression the code
    evaluates, and comparisons between such expressions, which correctly
    rounded arithmetic preserves as it is monotone.  Nothing is claimed of
    an equation or bound that holds for the exact product or quotient only.

    Text layout: fabric lays the text of a Textbox out when it is
    constructed and whenever a layout property is set, measuring glyphs
    with the fonts of the browser.  The measurements are parameters of the
    model ([dynamicMinWidth], [calcTextHeight]); how they are applied
    ([initDimensions]) follows fabric. *)

From Stdlib Require Import QArith Qminmax Lqa String Ascii List.
From stdpp Require Import gmap strings pretty.

Local Open Scope string_scope.
Local Open Scope list_scope.
Local Open Scope Q_scope.

(** ** JavaScript values held in object attributes and form state *)

Inductive Value :=
| VUndef
| VNull
| VNum (q : Q)
| VStr (s : string)
| VBool (b : bool)
| VShadow (color : string) (blur : Q).

(** ToBoolean, as used by [||], [?:], [!] and [&&]. *)
Definition truthy (v : Value) : bool :=
  match v with
  | VUndef | VNull => false
  | VNum q => negb (Qeq_bool q 0)
  | VStr s => negb (String.eqb s EmptyString)
  | VBool b => b
  | VShadow _ _ => true
  end.

(** [a || b] *)
Definition js_or (a b : Value) : Value := if truthy a then a else b.

(** [v === "lit"] for a string literal. *)
Definition str_is (v : Value) (lit : string) : bool :=
  match v with
  | VStr s => String.eqb s lit
  | _ => false
  end.

(** [a > b] on numbers. *)
Definition gt (a b : Q) : bool := negb (Qle_bool a b).

(** The parts of the JavaScript runtime and of the fabric library the
    component relies on but does not define: the attribute values a fresh
    [fabric.Textbox] / [fabric.Image] has before its options are applied,
    [parseInt(_, 16)] ([None] is NaN), the number-to-string conversion of
    template literals, and fabric's text layout, which measures glyphs with
    the fonts of the browser: for the attributes of a Textbox,
    [dynamicMinWidth] is the width of its widest unbreakable word and
    [calcTextHeight] the height of its wrapped lines. *)
Record Runtime := {
  textbox_defaults : gmap string Value;
  image_defaults : gmap string Value;
  parseInt16 : string -> option Q;
  numToString : option Q -> string;
  dynamicMinWidth : gmap string Value -> Q;
  calcTextHeight : gmap string Value -> Q
}.

(** ** Page geometry *)

Record Dims := { w : Q; h : Q }.

Inductive Orientation := portrait | landscape.

Definition BASE_SIZES : list (string * Dims) :=
  [ ("Letter", {| w := 816; h := 1056 |});
    ("A4", {| w := 794; h := 1123 |});
    ("A5", {| w := 559; h := 794 |});
    ("A6", {| w := 397; h := 559 |});
    ("Postcard", {| w := 400; h := 600 |}) ].

(** [table[key]] for the own keys of an object literal: [None] is
    JavaScript's [undefined].  The members that every object inherits from
    [Object.prototype] are not keys of the table: indexing with one of the
    names below finds the inherited member, which is not modelled.  The
    poster size select only offers the table's own keys. *)
Definition Object_prototype_keys : list string :=
  [ "constructor"; "__proto__"; "hasOwnProperty"; "isPrototypeOf";
    "propertyIsEnumerable"; "toLocaleString"; "toString"; "valueOf";
    "__defineGetter__"; "__defineSetter__"; "__lookupGetter__"; "__lookupSetter__" ].

Fixpoint lookup_key {A : Type} (key : string) (table : list (string * A)) : option A :=
  match table with
  | [] => None
  | (k, a) :: rest => if String.eqb key k then Some a else lookup_key key rest
  end.

(** [getCanvasDimensions]; [None] is the TypeError raised by [base.w] when
    [BASE_SIZES[posterSize]] is [undefined]. *)
Definition getCanvasDimensions (posterSize : string) (orientation : Orientation)
  : option Dims :=
  match lookup_key posterSize BASE_SIZES with
  | None => None
  | Some base =>
      Some (match orientation with
            | portrait => {| w := w base; h := h base |}
            | landscape => {| w := h base; h := w base |}
            end)
  end.

(** ** Fabric objects *)

Inductive ObjType := textbox | image.

Record Obj := { type : ObjType; attrs : gmap string Value }.

(** Reading a property; an absent key reads as [undefined]. *)
Definition get (o : Obj) (k : string) : Value := default VUndef (attrs o !! k).

(** Writing a property.  Assigning [undefined] is kept canonical: the key is
    dropped, so that it reads as [undefined] again. *)
Definition set_attr (k : string) (v : Value) (a : gmap string Value)
  : gmap string Value :=
  match v with
  | VUndef => delete k a
  | _ => <[k := v]> a
  end.

(** A plain property assignment [o.k = v]. *)
Definition obj_set (k : string) (v : Value) (o : Obj) : Obj :=
  {| type := type o; attrs := set_attr k v (attrs o) |}.

(** [initDimensions] of fabric's Textbox: the text is laid out again, the
    box is widened to its widest word when that does not fit
    ([if (this.dynamicMinWidth > this.width) this._set('width', ...)]; the
    comparison is false for a width that is not a number) and the height is
    set to that of the lines. *)
Definition initDimensions (rt : Runtime) (o : Obj) : Obj :=
  let a := attrs o in
  let o1 :=
    match get o "width" with
    | VNum width =>
        if gt (dynamicMinWidth rt a) width
        then obj_set "width" (VNum (dynamicMinWidth rt a)) o
        else o
    | _ => o
    end in
  obj_set "height" (VNum (calcTextHeight rt a)) o1.

(** The properties whose change makes a Textbox lay its text out again
    ([Textbox.textLayoutProperties]). *)
Definition textLayoutProperties : list string :=
  [ "fontSize"; "fontWeight"; "fontFamily"; "fontStyle"; "lineHeight"; "text";
    "charSpacing"; "textAlign"; "styles"; "path"; "pathStartOffset"; "pathSide";
    "pathAlign"; "width" ].

Definition is_layout_property (key : string) : bool :=
  existsb (String.eqb key) textLayoutProperties.

(** [tb.set(key, value)] on a Textbox: the property is written, and a
    layout property makes the Textbox run [initDimensions]. *)
Definition Textbox_set (rt : Runtime) (key : string) (value : Value) (o : Obj) : Obj :=
  let o' := obj_set key value o in
  if is_layout_property key then initDimensions rt o' else o'.

(** Options applied left to right over the class defaults; a later entry
    wins, which is also what the spread [{...base, ...extra}] does. *)
Definition apply_options (opts : list (string * Value)) (dflt : gmap string Value)
  : gmap string Value :=
  fold_left (fun a kv => set_attr (fst kv) (snd kv) a) opts dflt.

(** [new fabric.Textbox(text, opts)]: the options are applied over the
    class defaults and the text is laid out. *)
Definition new_Textbox (rt : Runtime) (text : string) (opts : list (string * Value)) : Obj :=
  initDimensions rt
    {| type := textbox;
       attrs := apply_options opts (set_attr "text" (VStr text) (textbox_defaults rt)) |}.

Arguments initDimensions : simpl never.
Arguments Textbox_set : simpl never.
Arguments new_Textbox : simpl never.

(** [new fabric.Image(el, opts)] for an element of natural size [iw] x [ih]. *)
Definition new_Image (rt : Runtime) (iw ih : Q) (opts : list (string * Value)) : Obj :=
  {| type := image;
     attrs := apply_options opts
                (set_attr "width" (VNum iw) (set_attr "height" (VNum ih) (image_defaults rt))) |}.

(** ** Externally supplied content *)

Record Pos := { x : Q; y : Q }.

Record Captions := { headline : string; tagline : string; cta : string }.

Record Content := {
  layout_json : option (gmap string Pos);
  captions : Captions;
  images_b64 : list string
}.

(** ** Component state *)

(** The style form.  The seven fields that [handleSelect] overwrites from a
    fabric object hold whatever value the object had; the other six are only
    ever set from typed inputs. *)
Record Form := {
  fontColor : Value;
  bgColor : string;
  bgOpacity : Q;
  fontSize : Value;
  fontFamily : Value;
  textAlign : Value;
  fontWeight : Value;
  fontStyle : Value;
  underline : Value;
  strokeColor : string;
  strokeWidth : Q;
  shadowColor : string;
  shadowBlur : Q
}.

(** The fabric canvas: its object list (index 0 is the back), its logical
    dimensions and its zoom. *)
Record Canvas := { objects : list nat; cdims : Dims; czoom : Q }.

(** A background-image decode that has been started and has not completed:
    the URL given to the image element and the page size captured by the
    [onload] closure. *)
Record Pending := { src : string; pwidth : Q; pheight : Q }.

Record State := {
  canvas : option Canvas;
  heap : gmap nat Obj;
  next : nat;
  selectedObject : option nat;
  zoom : Q;
  form : Form;
  posterSize : string;
  orientation : Orientation;
  content : Content;
  container : option (Q * Q);
  pending : list Pending
}.

(** *** Field updates

    [setX v] is the React state setter of the same name; the [with_] updates
    replace the remaining components of the state. *)

Definition with_canvas (v : option Canvas) (s : State) : State :=
  {| canvas := v;
     heap := heap s;
     next := next s;
     selectedObject := selectedObject s;
     zoom := zoom s;
     form := form s;
     posterSize := posterSize s;
     orientation := orientation s;
     content := content s;
     container := container s;
     pending := pending s |}.

Definition with_heap (v : gmap nat Obj) (s : State) : State :=
  {| canvas := canvas s;
     heap := v;
     next := next s;
     selectedObject := selectedObject s;
     zoom := zoom s;
     form := form s;
     posterSize := posterSize s;
     orientation := orientation s;
     content := content s;
     container := container s;
     pending := pending s |}.

Definition with_next (v : nat) (s : State) : State :=
  {| canvas := canvas s;
     heap := heap s;
     next := v;
     selectedObject := selectedObject s;
     zoom := zoom s;
     form := form s;
     posterSize := posterSize s;
     orientation := orientation s;
     content := content s;
     container := container s;
     pending := pending s |}.

Definition setSelectedObject (v : option nat) (s : State) : State :=
  {| canvas := canvas s;
     heap := heap s;
     next := next s;
     selectedObject := v;
     zoom := zoom s;
     form := form s;
     posterSize := posterSize s;
     orientation := orientation s;
     content := content s;
     container := container s;
     pending := pending s |}.

Definition setZoom (v : Q) (s : State) : State :=
  {| canvas := canvas s;
     heap := heap s;
     next := next s;
     selectedObject := selectedObject s;
     zoom := v;
     form := form s;
     posterSize := posterSize s;
     orientation := orientation s;
     content := content s;
     container := container s;
     pending := pending s |}.

Definition with_form (v : Form) (s : State) : State :=
  {| canvas := canvas s;
     heap := heap s;
     next := next s;
     selectedObject := selectedObject s;
     zoom := zoom s;
     form := v;
     posterSize := posterSize s;
     orientation := orientation s;
     content := content s;
     container := container s;
     pending := pending s |}.

Definition with_posterSize (v : string) (s : State) : State :=
  {| canvas := canvas s;
     heap := heap s;
     next := next s;
     selectedObject := selectedObject s;
     zoom := zoom s;
     form := form s;
     posterSize := v;
     orientation := orientation s;
     content := content s;
     container := container s;
     pending := pending s |}.

Definition with_orientation (v : Orientation) (s : State) : State :=
  {| canvas := canvas s;
     heap := heap s;
     next := next s;
     selectedObject := selectedObject s;
     zoom := zoom s;
     form := form s;
     posterSize := posterSize s;
     orientation := v;
     content := content s;
     container := container s;
     pending := pending s |}.

Definition with_content (v : Content) (s : State) : State :=
  {| canvas := canvas s;
     heap := heap s;
     next := next s;
     selectedObject := selectedObject s;
     zoom := zoom s;
     form := form s;
     posterSize := posterSize s;
     orientation := orientation s;
     content := v;
     container := container s;
     pending := pending s |}.

Definition with_container (v : option (Q * Q)) (s : State) : State :=
  {| canvas := canvas s;
     heap := heap s;
     next := next s;
     selectedObject := selectedObject s;
     zoom := zoom s;
     form := form s;
     posterSize := posterSize s;
     orientation := orientation s;
     content := content s;
     container := v;
     pending := pending s |}.

Definition with_pending (v : list Pending) (s : State) : State :=
  {| canvas := canvas s;
     heap := heap s;
     next := next s;
     selectedObject := selectedObject s;
     zoom := zoom s;
     form := form s;
     posterSize := posterSize s;
     orientation := orientation s;
     content := content s;
     container := container s;
     pending := v |}.

Definition setFontColor (v : Value) (s : State) : State :=
  with_form
  {| fontColor := v;
     bgColor := bgColor (form s);
     bgOpacity := bgOpacity (form s);
     fontSize := fontSize (form s);
     fontFamily := fontFamily (form s);
     textAlign := textAlign (form s);
     fontWeight := fontWeight (form s);
     fontStyle := fontStyle (form s);
     underline := underline (form s);
     strokeColor := strokeColor (form s);
     strokeWidth := strokeWidth (form s);
     shadowColor := shadowColor (form s);
     shadowBlur := shadowBlur (form s) |} s.

Definition setBgColor (v : string) (s : State) : State :=
  with_form
  {| fontColor := fontColor (form s);
     bgColor := v;
     bgOpacity := bgOpacity (form s);
     fontSize := fontSize (form s);
     fontFamily := fontFamily (form s);
     textAlign := textAlign (form s);
     fontWeight := fontWeight (form s);
     fontStyle := fontStyle (form s);
     underline := underline (form s);
     strokeColor := strokeColor (form s);
     strokeWidth := strokeWidth (form s);
     shadowColor := shadowColor (form s);
     shadowBlur := shadowBlur (form s) |} s.

Definition setBgOpacity (v : Q) (s : State) : State :=
  with_form
  {| fontColor := fontColor (form s);
     bgColor := bgColor (form s);
     bgOpacity := v;
     fontSize := fontSize (form s);
     fontFamily := fontFamily (form s);
     textAlign := textAlign (form s);
     fontWeight := fontWeight (form s);
     fontStyle := fontStyle (form s);
     underline := underline (form s);
     strokeColor := strokeColor (form s);
     strokeWidth := strokeWidth (form s);
     shadowColor := shadowColor (form s);
     shadowBlur := shadowBlur (form s) |} s.

Definition setFontSize (v : Value) (s : State) : State :=
  with_form
  {| fontColor := fontColor (form s);
     bgColor := bgColor (form s);
     bgOpacity := bgOpacity (form s);
     fontSize := v;
     fontFamily := fontFamily (form s);
     textAlign := textAlign (form s);
     fontWeight := fontWeight (form s);
     fontStyle := fontStyle (form s);
     underline := underline (form s);
     strokeColor := strokeColor (form s);
     strokeWidth := strokeWidth (form s);
     shadowColor := shadowColor (form s);
     shadowBlur := shadowBlur (form s) |} s.

Definition setFontFamily (v : Value) (s : State) : State :=
  with_form
  {| fontColor := fontColor (form s);
     bgColor := bgColor (form s);
     bgOpacity := bgOpacity (form s);
     fontSize := fontSize (form s);
     fontFamily := v;
     textAlign := textAlign (form s);
     fontWeight := fontWeight (form s);
     fontStyle := fontStyle (form s);
     underline := underline (form s);
     strokeColor := strokeColor (form s);
     strokeWidth := strokeWidth (form s);
     shadowColor := shadowColor (form s);
     shadowBlur := shadowBlur (form s) |} s.

Definition setTextAlign (v : Value) (s : State) : State :=
  with_form
  {| fontColor := fontColor (form s);
     bgColor := bgColor (form s);
     bgOpacity := bgOpacity (form s);
     fontSize := fontSize (form s);
     fontFamily := fontFamily (form s);
     textAlign := v;
     fontWeight := fontWeight (form s);
     fontStyle := fontStyle (form s);
     underline := underline (form s);
     strokeColor := strokeColor (form s);
     strokeWidth := strokeWidth (form s);
     shadowColor := shadowColor (form s);
     shadowBlur := shadowBlur (form s) |} s.

Definition setFontWeight (v : Value) (s : State) : State :=
  with_form
  {| fontColor := fontColor (form s);
     bgColor := bgColor (form s);
     bgOpacity := bgOpacity (form s);
     fontSize := fontSize (form s);
     fontFamily := fontFamily (form s);
     textAlign := textAlign (form s);
     fontWeight := v;
     fontStyle := fontStyle (form s);
     underline := underline (form s);
     strokeColor := strokeColor (form s);
     strokeWidth := strokeWidth (form s);
     shadowColor := shadowColor (form s);
     shadowBlur := shadowBlur (form s) |} s.

Definition setFontStyle (v : Value) (s : State) : State :=
  with_form
  {| fontColor := fontColor (form s);
     bgColor := bgColor (form s);
     bgOpacity := bgOpacity (form s);
     fontSize := fontSize (form s);
     fontFamily := fontFamily (form s);
     textAlign := textAlign (form s);
     fontWeight := fontWeight (form s);
     fontStyle := v;
     underline := underline (form s);
     strokeColor := strokeColor (form s);
     strokeWidth := strokeWidth (form s);
     shadowColor := shadowColor (form s);
     shadowBlur := shadowBlur (form s) |} s.

Definition setUnderline (v : Value) (s : State) : State :=
  with_form
  {| fontColor := fontColor (form s);
     bgColor := bgColor (form s);
     bgOpacity := bgOpacity (form s);
     fontSize := fontSize (form s);
     fontFamily := fontFamily (form s);
     textAlign := textAlign (form s);
     fontWeight := fontWeight (form s);
     fontStyle := fontStyle (form s);
     underline := v;
     strokeColor := strokeColor (form s);
     strokeWidth := strokeWidth (form s);
     shadowColor := shadowColor (form s);
     shadowBlur := shadowBlur (form s) |} s.

Definition setStrokeColor (v : string) (s : State) : State :=
  with_form
  {| fontColor := fontColor (form s);
     bgColor := bgColor (form s);
     bgOpacity := bgOpacity (form s);
     fontSize := fontSize (form s);
     fontFamily := fontFamily (form s);
     textAlign := textAlign (form s);
     fontWeight := fontWeight (form s);
     fontStyle := fontStyle (form s);
     underline := underline (form s);
     strokeColor := v;
     strokeWidth := strokeWidth (form s);
     shadowColor := shadowColor (form s);
     shadowBlur := shadowBlur (form s) |} s.

Definition setStrokeWidth (v : Q) (s : State) : State :=
  with_form
  {| fontColor := fontColor (form s);
     bgColor := bgColor (form s);
     bgOpacity := bgOpacity (form s);
     fontSize := fontSize (form s);
     fontFamily := fontFamily (form s);
     textAlign := textAlign (form s);
     fontWeight := fontWeight (form s);
     fontStyle := fontStyle (form s);
     underline := underline (form s);
     strokeColor := strokeColor (form s);
     strokeWidth := v;
     shadowColor := shadowColor (form s);
     shadowBlur := shadowBlur (form s) |} s.

Definition setShadowColor (v : string) (s : State) : State :=
  with_form
  {| fontColor := fontColor (form s);
     bgColor := bgColor (form s);
     bgOpacity := bgOpacity (form s);
     fontSize := fontSize (form s);
     fontFamily := fontFamily (form s);
     textAlign := textAlign (form s);
     fontWeight := fontWeight (form s);
     fontStyle := fontStyle (form s);
     underline := underline (form s);
     strokeColor := strokeColor (form s);
     strokeWidth := strokeWidth (form s);
     shadowColor := v;
     shadowBlur := shadowBlur (form s) |} s.

Definition setShadowBlur (v : Q) (s : State) : State :=
  with_form
  {| fontColor := fontColor (form s);
     bgColor := bgColor (form s);
     bgOpacity := bgOpacity (form s);
     fontSize := fontSize (form s);
     fontFamily := fontFamily (form s);
     textAlign := textAlign (form s);
     fontWeight := fontWeight (form s);
     fontStyle := fontStyle (form s);
     underline := underline (form s);
     strokeColor := strokeColor (form s);
     strokeWidth := strokeWidth (form s);
     shadowColor := shadowColor (form s);
     shadowBlur := v |} s.

(** The state of the first render: no canvas yet, nothing selected, the
    [useState] initial values. *)
Definition initial_form : Form :=
  {| fontColor := VStr "#ffffff";
     bgColor := "#000000";
     bgOpacity := 0;
     fontSize := VNum 24;
     fontFamily := VStr "Helvetica";
     textAlign := VStr "left";
     fontWeight := VStr "normal";
     fontStyle := VStr "normal";
     underline := VBool false;
     strokeColor := "#000000";
     strokeWidth := 0;
     shadowColor := "#000000";
     shadowBlur := 0 |}.

Definition initial (c : Content) (box : option (Q * Q)) : State :=
  {| canvas := None;
     heap := ∅;
     next := 0%nat;
     selectedObject := None;
     zoom := 1;
     form := initial_form;
     posterSize := "A4";
     orientation := portrait;
     content := c;
     container := box;
     pending := [] |}.

(** ** Canvas operations (fabric) *)

(** Allocation of a fresh fabric object; its reference is the old [next]. *)
Definition alloc (o : Obj) (s : State) : State :=
  with_next (S (next s)) (with_heap (<[next s := o]> (heap s)) s).

Definition with_objects (f : list nat -> list nat) (s : State) : State :=
  match canvas s with
  | None => s
  | Some c =>
      with_canvas (Some {| objects := f (objects c); cdims := cdims c; czoom := czoom c |}) s
  end.

(** Removal of the first occurrence of a reference, as [Array.splice] at
    [indexOf] does. *)
Fixpoint remove_obj (i : nat) (l : list nat) : list nat :=
  match l with
  | [] => []
  | j :: rest => if Nat.eqb i j then rest else j :: remove_obj i rest
  end.

Definition mem_obj (i : nat) (l : list nat) : bool := existsb (Nat.eqb i) l.

(** [handleClear], the [selection:cleared] listener. *)
Definition handleClear (s : State) : State := setSelectedObject None s.

(** [canvas.add(o)]: pushed at the end of the list, i.e. in front. *)
Definition canvas_add (i : nat) (s : State) : State :=
  with_objects (fun l => l ++ [i]) s.

(** [canvas.remove(o)]; removing the active object discards it, and fabric
    then fires [selection:cleared], which runs [handleClear]. *)
Definition canvas_remove (i : nat) (s : State) : State :=
  let s1 := with_objects (remove_obj i) s in
  match selectedObject s with
  | Some j => if Nat.eqb i j then handleClear s1 else s1
  | None => s1
  end.

(** [canvas.clear()]: the active object is discarded ([selection:cleared]
    runs [handleClear]) and every object is removed. *)
Definition canvas_clear (s : State) : State :=
  handleClear (with_objects (fun _ => []) s).

(** [canvas.sendObjectToBack(o)] and [canvas.bringObjectToFront(o)]: nothing
    happens when [o] is not on the canvas. *)
Definition canvas_sendObjectToBack (i : nat) (s : State) : State :=
  with_objects (fun l => if mem_obj i l then i :: remove_obj i l else l) s.

Definition canvas_bringObjectToFront (i : nat) (s : State) : State :=
  with_objects (fun l => if mem_obj i l then remove_obj i l ++ [i] else l) s.

(** ** Strings

    A JavaScript string is embedded as the bytes of its UTF-8 encoding.

    The white space that [String.prototype.trim] strips is ECMAScript's
    WhiteSpace and LineTerminator.  By the bytes of the encoding these are:
    U+0009 to U+000D and U+0020 (one byte); U+00A0 (C2 A0); U+1680
    (E1 9A 80), U+2000 to U+200A (E2 80 80 to E2 80 8A), U+2028, U+2029 and
    U+202F (E2 80 A8, A9, AF), U+205F (E2 81 9F), U+3000 (E3 80 80) and
    U+FEFF (EF BB BF). *)

Definition is_space (c : ascii) : bool :=
  let n := nat_of_ascii c in
  (Nat.eqb n 32 || (Nat.leb 9 n && Nat.leb n 13))%bool.

Definition is_space2 (a b : ascii) : bool :=
  (Nat.eqb (nat_of_ascii a) 194 && Nat.eqb (nat_of_ascii b) 160)%bool.

Definition is_space3 (a b c : ascii) : bool :=
  let x := nat_of_ascii a in
  let y := nat_of_ascii b in
  let z := nat_of_ascii c in
  ((Nat.eqb x 225 && (Nat.eqb y 154 && Nat.eqb z 128))
   || (Nat.eqb x 226 &&
       ((Nat.eqb y 128 &&
         ((Nat.leb 128 z && Nat.leb z 138) || Nat.eqb z 168 || Nat.eqb z 169 || Nat.eqb z 175))
        || (Nat.eqb y 129 && Nat.eqb z 159)))
   || (Nat.eqb x 227 && (Nat.eqb y 128 && Nat.eqb z 128))
   || (Nat.eqb x 239 && (Nat.eqb y 187 && Nat.eqb z 191)))%bool.

(** The string without the white space at its front; [p2] and [p3]
    recognise the white space of two and of three bytes. *)
Fixpoint strip_spaces (p2 : ascii -> ascii -> bool) (p3 : ascii -> ascii -> ascii -> bool)
    (s : string) : string :=
  match s with
  | EmptyString => EmptyString
  | String a r =>
      if is_space a then strip_spaces p2 p3 r
      else
        match r with
        | EmptyString => s
        | String b r2 =>
            if p2 a b then strip_spaces p2 p3 r2
            else
              match r2 with
              | EmptyString => s
              | String c r3 => if p3 a b c then strip_spaces p2 p3 r3 else s
              end
        end
  end.

Definition trim_start (s : string) : string := strip_spaces is_space2 is_space3 s.

(** The white space at the end is that at the front of the reversed
    string, its bytes read backwards. *)
Definition trim_end (s : string) : string :=
  String.rev
    (strip_spaces (fun a b => is_space2 b a) (fun a b c => is_space3 c b a) (String.rev s)).

(** [s.trim()] *)
Definition trim (s : string) : string := trim_end (trim_start s).

(** The URL handed to the image element (lines 109-114). *)
Definition imgUrl (firstImg : string) : string :=
  let u := trim firstImg in
  if String.prefix "data:image" u then u
  else if String.prefix "iVBOR" u
       then "data:image/png;base64," +:+ u
       else "data:image/jpeg;base64," +:+ u.

(** ** Effects and handlers of [EditorPage] *)

Section Handlers.

Variable rt : Runtime.

(** Effect bodies and renders return [option State]: [None] is an uncaught
    TypeError, after which React unmounts the editor. *)

(** [resizeCanvas] (lines 78-92). *)
Definition resizeCanvas (s : State) : option State :=
  d ← getCanvasDimensions (posterSize s) (orientation s);
  match container s, canvas s with
  | Some (cw, ch), Some c =>
      let scale := Qmin (cw / w d) (ch / h d) in
      Some (setZoom scale
              (with_canvas (Some {| objects := objects c; cdims := d; czoom := scale |}) s))
  | _, _ => Some s
  end.

(** The scaling effect (lines 75-97): skipped without canvas or container. *)
Definition resize_effect (s : State) : option State :=
  match canvas s, container s with
  | Some _, Some _ => resizeCanvas s
  | _, _ => Some s
  end.

(** The layout used when [content.layout_json] is falsy (lines 133-137). *)
Definition default_layout : gmap string Pos :=
  <["headline" := {| x := 10; y := 15 |}]>
    (<["tagline" := {| x := 10; y := 25 |}]>
       (<["cta_text" := {| x := 10; y := 35 |}]> ∅)).

(** [addText] of the content effect (lines 139-150).  [pos] is the entry of
    the layout for this caption; reading [pos.x] of a missing entry is a
    TypeError. *)
Definition addText (d : Dims) (text : string) (pos : option Pos)
    (extra : list (string * Value)) (s : State) : option State :=
  match pos with
  | None => None
  | Some p =>
      let t := new_Textbox rt text
                 ([ ("left", VNum (x p / 100 * w d));
                    ("top", VNum (y p / 100 * h d));
                    ("width", VNum (w d * 0.8));
                    ("fontSize", VNum 24);
                    ("fill", VStr "#ffffff");
                    ("backgroundColor", VStr "transparent") ] ++ extra) in
      Some (canvas_add (next s) (alloc t s))
  end.

(** The content effect (lines 100-156).  Starting the decode of the base
    image only records it as pending; its [onload] runs later. *)
Definition loadContent (s : State) : option State :=
  match canvas s with
  | None => Some s
  | Some _ =>
      d ← getCanvasDimensions (posterSize s) (orientation s);
      let s1 := canvas_clear s in
      let s2 :=
        match head (images_b64 (content s)) with
        | Some firstImg =>
            if negb (String.eqb firstImg EmptyString)
            then with_pending
                   (pending s1 ++ [ {| src := imgUrl firstImg; pwidth := w d; pheight := h d |} ])
                   s1
            else s1
        | None => s1
        end in
      let caps := captions (content s) in
      let layout := default default_layout (layout_json (content s)) in
      s3 ← addText d (headline caps) (layout !! "headline")
             [ ("fontWeight", VStr "bold"); ("fontSize", VNum 36) ] s2;
      s4 ← addText d (tagline caps) (layout !! "tagline")
             [ ("fontStyle", VStr "italic"); ("fontSize", VNum 24) ] s3;
      addText d (cta caps) (layout !! "cta_text")
        [ ("fill", VStr "#00bfff"); ("fontSize", VNum 20) ] s4
  end.

(** The cover/contain factor computed by [imgEl.onload] (lines 119-120). *)
Definition image_scale (iw ih width height : Q) : Q :=
  if gt (iw / ih) (width / height) then width / iw else height / ih.

(** [imgEl.onload] (lines 117-127) for a decoded image of natural size
    [iw] x [ih]; [width] and [height] are the ones its closure captured. *)
Definition imgEl_onload (p : Pending) (iw ih : Q) (s : State) : State :=
  let width := pwidth p in
  let height := pheight p in
  let fabImg := new_Image rt iw ih [ ("originX", VStr "center"); ("originY", VStr "center") ] in
  let scale := image_scale iw ih width height in
  let fabImg := obj_set "scaleY" (VNum scale) (obj_set "scaleX" (VNum scale) fabImg) in
  let fabImg := obj_set "left" (VNum (width / 2)) fabImg in
  let fabImg := obj_set "top" (VNum (height / 2)) fabImg in
  canvas_sendObjectToBack (next s) (canvas_add (next s) (alloc fabImg s)).

(** [handleSelect] (lines 161-174); [selected] is [e.selected]. *)
Definition handleSelect (selected : list nat) (s : State) : State :=
  let obj := head selected in
  let s1 := setSelectedObject obj s in
  match obj with
  | None => s1
  | Some i =>
      match heap s !! i with
      | None => s1
      | Some tb =>
          match type tb with
          | image => s1
          | textbox =>
              setUnderline (js_or (get tb "underline") (VBool false))
                (setFontStyle (js_or (get tb "fontStyle") (VStr "normal"))
                   (setFontWeight (js_or (get tb "fontWeight") (VStr "normal"))
                      (setTextAlign (js_or (get tb "textAlign") (VStr "left"))
                         (setFontFamily (js_or (get tb "fontFamily") (VStr "Helvetica"))
                            (setFontSize (js_or (get tb "fontSize") (VNum 24))
                               (setFontColor (get tb "fill") s1))))))
          end
      end
  end.

(** [canvas.setActiveObject(o)]: fabric fires [selection:created] or
    [selection:updated] with [selected = [o]], which runs [handleSelect]. *)
Definition canvas_setActiveObject (i : nat) (s : State) : State :=
  handleSelect [i] s.

(** [updateSelected] (lines 187-192): [selectedObject.set(prop, val)] on a
    selected Textbox. *)
Definition updateSelected (prop : string) (val : Value) (s : State) : State :=
  match selectedObject s with
  | None => s
  | Some i =>
      match heap s !! i with
      | None => s
      | Some o =>
          match type o with
          | textbox => with_heap (<[i := Textbox_set rt prop val o]> (heap s)) s
          | image => s
          end
      end
  end.

Definition bringFront (s : State) : State :=
  match selectedObject s with
  | Some i => canvas_bringObjectToFront i s
  | None => s
  end.

Definition sendBack (s : State) : State :=
  match selectedObject s with
  | Some i => canvas_sendObjectToBack i s
  | None => s
  end.

(** [o.flipX = !o.flipX] *)
Definition toggle (k : string) (o : Obj) : Obj :=
  obj_set k (VBool (negb (truthy (get o k)))) o.

Definition flip_selected (k : string) (s : State) : State :=
  match selectedObject s with
  | None => s
  | Some i =>
      match heap s !! i with
      | None => s
      | Some o => with_heap (<[i := toggle k o]> (heap s)) s
      end
  end.

Definition flipHorizontal (s : State) : State := flip_selected "flipX" s.

Definition flipVertical (s : State) : State := flip_selected "flipY" s.

(** [hexToRgb] (lines 18-23). *)
Definition hexToRgb (hex : string) : string :=
  let r := parseInt16 rt (substring 1 2 hex) in
  let g := parseInt16 rt (substring 3 2 hex) in
  let b := parseInt16 rt (substring 5 2 hex) in
  numToString rt r +:+ "," +:+ numToString rt g +:+ "," +:+ numToString rt b.

(** The template [`rgba(${hexToRgb(color)},${opacity})`]. *)
Definition rgba (color : string) (opacity : Q) : string :=
  "rgba(" +:+ hexToRgb color +:+ "," +:+ numToString rt (Some opacity) +:+ ")".

(** [blur ? new fabric.Shadow({ color, blur }) : undefined] *)
Definition shadow_of (color : string) (blur : Q) : Value :=
  if truthy (VNum blur) then VShadow color blur else VUndef.

(** [handleAddText] (lines 201-223). *)
Definition handleAddText (s : State) : State :=
  match canvas s with
  | None => s
  | Some _ =>
      let f := form s in
      let t := new_Textbox rt "New text"
                 [ ("left", VNum 100);
                   ("top", VNum 100);
                   ("width", VNum 300);
                   ("fontSize", fontSize f);
                   ("fontFamily", fontFamily f);
                   ("fill", fontColor f);
                   ("fontWeight", fontWeight f);
                   ("fontStyle", fontStyle f);
                   ("underline", underline f);
                   ("backgroundColor", VStr (rgba (bgColor f) (bgOpacity f)));
                   ("stroke", VStr (strokeColor f));
                   ("strokeWidth", VNum (strokeWidth f));
                   ("shadow", shadow_of (shadowColor f) (shadowBlur f)) ] in
      canvas_setActiveObject (next s) (canvas_add (next s) (alloc t s))
  end.

(** [img.onload] of [handleUploadImage] (lines 232-237) for an uploaded
    image of natural size [iw] x [ih]. *)
Definition upload_onload (iw ih : Q) (s : State) : State :=
  let fabImg := new_Image rt iw ih
                  [ ("left", VNum 50); ("top", VNum 50);
                    ("scaleX", VNum 0.5); ("scaleY", VNum 0.5) ] in
  canvas_setActiveObject (next s) (canvas_add (next s) (alloc fabImg s)).

(** [handleDelete] (lines 242-248). *)
Definition handleDelete (s : State) : State :=
  match canvas s, selectedObject s with
  | Some _, Some i => setSelectedObject None (canvas_remove i s)
  | _, _ => s
  end.

(** *** The style controls (lines 318-486)

    Each control sets its form field and pushes the value to the selected
    object with [updateSelected]. *)

Inductive Control :=
| EditText (v : string)
| Bold
| Italic
| Underline
| FontColor (v : string)
| StrokeColor (v : string)
| StrokeWidth (v : Q)
| ShadowBlur (v : Q)
| ShadowColor (v : string)
| BgColor (v : string)
| BgOpacity (v : Q)
| FontSize (v : Q)
| TextAlign (v : string).

Definition onControl (c : Control) (s : State) : State :=
  match c with
  | EditText v => updateSelected "text" (VStr v) s
  | Bold =>
      let val := VStr (if str_is (fontWeight (form s)) "bold" then "normal" else "bold") in
      updateSelected "fontWeight" val (setFontWeight val s)
  | Italic =>
      let val := VStr (if str_is (fontStyle (form s)) "italic" then "normal" else "italic") in
      updateSelected "fontStyle" val (setFontStyle val s)
  | Underline =>
      let val := VBool (negb (truthy (underline (form s)))) in
      updateSelected "underline" val (setUnderline val s)
  | FontColor v => updateSelected "fill" (VStr v) (setFontColor (VStr v) s)
  | StrokeColor v => updateSelected "stroke" (VStr v) (setStrokeColor v s)
  | StrokeWidth v => updateSelected "strokeWidth" (VNum v) (setStrokeWidth v s)
  | ShadowBlur v =>
      updateSelected "shadow" (shadow_of (shadowColor (form s)) v) (setShadowBlur v s)
  | ShadowColor v =>
      updateSelected "shadow" (shadow_of v (shadowBlur (form s))) (setShadowColor v s)
  | BgColor v =>
      updateSelected "backgroundColor" (VStr (rgba v (bgOpacity (form s)))) (setBgColor v s)
  | BgOpacity v =>
      updateSelected "backgroundColor" (VStr (rgba (bgColor (form s)) v)) (setBgOpacity v s)
  | FontSize v => updateSelected "fontSize" (VNum v) (setFontSize (VNum v) s)
  | TextAlign v => updateSelected "textAlign" (VStr v) (setTextAlign (VStr v) s)
  end.

(** The values a control can deliver: the ranges of the sliders (line
    numbers 385-470) and the options of the alignment select. *)
Definition control_ok (c : Control) : Prop :=
  match c with
  | StrokeWidth v => 0 <= v /\ v <= 5
  | ShadowBlur v => 0 <= v /\ v <= 20
  | BgOpacity v => 0 <= v /\ v <= 1
  | FontSize v => 8 <= v /\ v <= 80
  | TextAlign v => v = "left" \/ v = "center" \/ v = "right"
  | _ => True
  end.

(** *** Renders and effects *)

(** First mount: the canvas is created at the rendered size, then the
    scaling effect and the content effect run. *)
Definition mount (s : State) : option State :=
  d ← getCanvasDimensions (posterSize s) (orientation s);
  s1 ← resize_effect (with_canvas (Some {| objects := []; cdims := d; czoom := 1 |}) s);
  loadContent s1.

(** A change of poster size or orientation re-renders and re-runs the
    scaling effect and the content effect, in that order. *)
Definition rerun_effects (s : State) : option State :=
  _ ← getCanvasDimensions (posterSize s) (orientation s);
  s1 ← resize_effect s;
  loadContent s1.

Definition onChange_posterSize (key : string) (s : State) : option State :=
  if String.eqb key (posterSize s) then Some s
  else rerun_effects (with_posterSize key s).

Definition onChange_orientation (o : Orientation) (s : State) : option State :=
  match o, orientation s with
  | portrait, portrait | landscape, landscape => Some s
  | _, _ => rerun_effects (with_orientation o s)
  end.

(** A new [content] prop re-runs the content effect only. *)
Definition onContent (c : Content) (s : State) : option State :=
  loadContent (with_content c s).

(** The window [resize] listener; the container has the new size. *)
Definition onWindowResize (cw ch : Q) (s : State) : option State :=
  resizeCanvas (with_container (Some (cw, ch)) s).

(** ** Events *)

Definition selected_textbox (s : State) : Prop :=
  exists i o, selectedObject s = Some i /\ heap s !! i = Some o /\ type o = textbox.

Definition on_canvas (i : nat) (s : State) : Prop :=
  exists c, canvas s = Some c /\ i ∈ objects c.

Inductive step : State -> State -> Prop :=
| step_mount s s' :
    canvas s = None -> mount s = Some s' -> step s s'
| step_window_resize s s' cw ch :
    canvas s <> None -> container s <> None -> 0 <= cw -> 0 <= ch ->
    onWindowResize cw ch s = Some s' -> step s s'
| step_posterSize s s' key :
    In key (map fst BASE_SIZES) -> onChange_posterSize key s = Some s' -> step s s'
| step_orientation s s' o :
    onChange_orientation o s = Some s' -> step s s'
| step_content s s' c :
    onContent c s = Some s' -> step s s'
| step_decoded s n p iw ih :
    pending s !! n = Some p -> 0 < iw -> 0 < ih ->
    step s (imgEl_onload p iw ih (with_pending (delete n (pending s)) s))
| step_decode_failed s n :
    step s (with_pending (delete n (pending s)) s)
| step_click_object s i :
    on_canvas i s -> selectedObject s <> Some i -> step s (handleSelect [i] s)
| step_click_empty s :
    step s (handleClear s)
| step_add_text s :
    step s (handleAddText s)
| step_uploaded s iw ih :
    canvas s <> None -> 0 < iw -> 0 < ih -> step s (upload_onload iw ih s)
| step_delete s :
    step s (handleDelete s)
| step_bring_front s :
    step s (bringFront s)
| step_send_back s :
    step s (sendBack s)
| step_flip_h s :
    step s (flipHorizontal s)
| step_flip_v s :
    step s (flipVertical s)
| step_control s c :
    selected_textbox s -> control_ok c -> step s (onControl c s).

(** The states an editor session can be in. *)
Inductive reachable (c : Content) (box : option (Q * Q)) : State -> Prop :=
| reach_initial : reachable c box (initial c box)
| reach_step s s' : reachable c box s -> step s s' -> reachable c box s'.

End Handlers.

(** ** Running the model

    An instance of [Runtime] carrying fabric's documented class defaults,
    used to run the handlers on concrete inputs. *)

Definition hex_digit (c : ascii) : option Q :=
  let n := nat_of_ascii c in
  if (Nat.leb 48 n && Nat.leb n 57)%bool then Some (inject_Z (Z.of_nat (n - 48)))
  else if (Nat.leb 97 n && Nat.leb n 102)%bool then Some (inject_Z (Z.of_nat (n - 87)))
  else if (Nat.leb 65 n && Nat.leb n 70)%bool then Some (inject_Z (Z.of_nat (n - 55)))
  else None.

(** [parseInt(s, 16)] on strings of hexadecimal digits: the longest prefix of
    digits is read, and no digit at all gives NaN. *)
Fixpoint parse_hex (acc : option Q) (s : string) : option Q :=
  match s with
  | EmptyString => acc
  | String c rest =>
      match hex_digit c with
      | None => acc
      | Some d => parse_hex (Some (Qred (default 0 acc * 16 + d))) rest
      end
  end.

(** The digits of the fraction [r / d], for [0 <= r < d], when it has at
    most [fuel] of them. *)
Fixpoint fraction_digits (fuel : nat) (r d : Z) : option string :=
  if (r =? 0)%Z then Some EmptyString
  else
    match fuel with
    | O => None
    | S fuel' =>
        match fraction_digits fuel' ((r * 10) mod d)%Z d with
        | Some rest => Some (pretty ((r * 10) / d)%Z +:+ rest)
        | None => None
        end
    end.

(** The text of a number.  NaN prints as ["NaN"]; an integer, and a
    fraction with a decimal expansion of at most 17 digits, print in
    decimal notation, as in JavaScript for the magnitudes it prints without
    an exponent.  Any other fraction is printed as numerator/denominator,
    which is not JavaScript's text of the rounded double: no property below
    depends on the text of a colour string. *)
Definition show_number (n : option Q) : string :=
  match n with
  | None => "NaN"
  | Some q =>
      let num := Qnum q in
      let den := Zpos (Qden q) in
      let sign := if (num <? 0)%Z then "-" else EmptyString in
      let whole := pretty (Z.abs num / den)%Z in
      match fraction_digits 17 (Z.abs num mod den)%Z den with
      | Some EmptyString => sign +:+ whole
      | Some digits => sign +:+ whole +:+ "." +:+ digits
      | None => pretty num +:+ "/" +:+ pretty den
      end
  end.

(** A sample text layout: a font whose glyphs are all half an em wide (0.6
    em in bold), one byte a glyph.  As in fabric the text is split into
    lines at line feeds and into words at spaces, tabs and carriage
    returns, the words of a line are wrapped greedily at the width of the
    box or of the widest word, a line is [fontSize * 1.13] high and
    consecutive lines are [1.16] line heights apart. *)
Definition sample_fontSize (a : gmap string Value) : Q :=
  match a !! "fontSize" with
  | Some (VNum size) => size
  | _ => 0
  end.

Definition sample_glyph (a : gmap string Value) : Q :=
  match a !! "fontWeight" with
  | Some (VStr "bold") => sample_fontSize a * (3 # 5)
  | _ => sample_fontSize a * (1 # 2)
  end.

Definition sample_text (a : gmap string Value) : string :=
  match a !! "text" with
  | Some (VStr t) => t
  | _ => EmptyString
  end.

(** The lengths of the words of each line of a text; [cur] is the length
    of the word being read and [line] the words of the line read so far,
    last first. *)
Fixpoint words_of (s : string) (cur : nat) (line : list nat) : list (list nat) :=
  match s with
  | EmptyString => [rev (cur :: line)]
  | String c r =>
      let n := nat_of_ascii c in
      if Nat.eqb n 10 then rev (cur :: line) :: words_of r 0 []
      else if (Nat.eqb n 32 || Nat.eqb n 9 || Nat.eqb n 13)%bool
           then words_of r 0 (cur :: line)
           else words_of r (S cur) line
  end.

Definition word_width (glyph : Q) (n : nat) : Q := inject_Z (Z.of_nat n) * glyph.

(** The number of wrapped lines of one line of words ([_wrapLine]). *)
Fixpoint wrapped (maxWidth glyph : Q) (words : list nat) (lineWidth : Q)
    (lineJustStarted : bool) : nat :=
  match words with
  | [] => 1
  | n :: rest =>
      let infixWidth := if lineJustStarted then 0 else glyph in
      let lineWidth' := lineWidth + infixWidth + word_width glyph n in
      if (gt lineWidth' maxWidth && negb lineJustStarted)%bool
      then S (wrapped maxWidth glyph rest (word_width glyph n) false)
      else wrapped maxWidth glyph rest lineWidth' false
  end.

Definition sample_dynamicMinWidth (a : gmap string Value) : Q :=
  Qred (fold_right Qmax 0
          (map (word_width (sample_glyph a)) (concat (words_of (sample_text a) 0 [])))).

Definition sample_calcTextHeight (a : gmap string Value) : Q :=
  let width :=
    match a !! "width" with
    | Some (VNum width) => width
    | _ => 0
    end in
  let maxWidth := Qmax width (sample_dynamicMinWidth a) in
  let lines :=
    fold_right Nat.add 0%nat
      (map (fun words => wrapped maxWidth (sample_glyph a) words 0 true)
           (words_of (sample_text a) 0 [])) in
  Qred (sample_fontSize a * 1.13 * (1.16 * inject_Z (Z.of_nat (lines - 1)) + 1)).

Definition fabric_rt : Runtime :=
  {| textbox_defaults :=
       list_to_map
         [ ("left", VNum 0); ("top", VNum 0); ("originX", VStr "left"); ("originY", VStr "top");
           ("scaleX", VNum 1); ("scaleY", VNum 1); ("flipX", VBool false); ("flipY", VBool false);
           ("fill", VStr "rgb(0,0,0)"); ("stroke", VNull); ("strokeWidth", VNum 1);
           ("shadow", VNull); ("backgroundColor", VStr EmptyString);
           ("fontSize", VNum 40); ("fontFamily", VStr "Times New Roman");
           ("fontWeight", VStr "normal"); ("fontStyle", VStr "normal");
           ("underline", VBool false); ("textAlign", VStr "left") ];
     image_defaults :=
       list_to_map
         [ ("left", VNum 0); ("top", VNum 0); ("originX", VStr "left"); ("originY", VStr "top");
           ("scaleX", VNum 1); ("scaleY", VNum 1); ("flipX", VBool false); ("flipY", VBool false);
           ("stroke", VNull); ("strokeWidth", VNum 0); ("shadow", VNull) ];
     parseInt16 := parse_hex None;
     numToString := show_number;
     dynamicMinWidth := sample_dynamicMinWidth;
     calcTextHeight := sample_calcTextHeight |}.

Definition sample_captions : Captions :=
  {| headline := "H"; tagline := "T"; cta := "C" |}.

(** Captions only: no layout hints, no image. *)
Definition content_plain : Content :=
  {| layout_json := None; captions := sample_captions; images_b64 := [] |}.

(** Captions and a base image, no layout hints. *)
Definition content_image : Content :=
  {| layout_json := None; captions := sample_captions; images_b64 := ["iVBORw0KGgo="] |}.

(** Layout hints for the headline only. *)
Definition content_partial : Content :=
  {| layout_json := Some (<["headline" := {| x := 10; y := 15 |}]> ∅);
     captions := sample_captions;
     images_b64 := [] |}.

(** Layout hints for all three captions. *)
Definition content_hinted : Content :=
  {| layout_json :=
       Some (<["headline" := {| x := 50; y := 5 |}]>
               (<["tagline" := {| x := 20; y := 40 |}]>
                  (<["cta_text" := {| x := 30; y := 90 |}]> ∅)));
     captions := sample_captions;
     images_b64 := [] |}.

Definition sample_box : option (Q * Q) := Some (1000, 800).

(** The Scene: the canvas' object list, back-most first; empty while there
    is no canvas. *)
Definition scene (s : State) : list nat :=
  match canvas s with
  | Some c => objects c
  | None => []
  end.

(** The zoom fabric renders with. *)
Definition canvas_zoom (s : State) : option Q :=
  match canvas s with
  | Some c => Some (czoom c)
  | None => None
  end.

(** A mounted editor on an A4 portrait page whose container is measured
    [cw] x [ch]. *)
Definition mounted_in (cw ch : Q) : State :=
  with_canvas (Some {| objects := []; cdims := {| w := 794; h := 1123 |}; czoom := 1 |})
    (initial content_plain (Some (cw, ch))).

(** ** Vocabulary of the properties *)

(** Well-formed states: references on the canvas are distinct and allocated,
    the selection is on the canvas, and a decode is only pending once there
    is a canvas. *)
Record wf (s : State) : Prop := {
  wf_fresh : forall i, i ∈ scene s -> (i < next s)%nat;
  wf_nodup : NoDup (scene s);
  wf_heap : forall i, (i < next s)%nat -> is_Some (heap s !! i);
  wf_selected : forall i, selectedObject s = Some i -> i ∈ scene s;
  wf_pending : canvas s = None -> pending s = []
}.

(** What a lookup returns after [set_attr] wrote [v]. *)
Definition to_option (v : Value) : option Value :=
  match v with
  | VUndef => None
  | _ => Some v
  end.

(** The object behind reference [i]. *)
Definition object_at (s : State) (i : nat) : Obj :=
  default {| type := image; attrs := ∅ |} (heap s !! i).

(** The caption TextBox [i] of [s] sits at the pixel position of the
    percentage pair [p] on a page of size [d]. *)
Definition placed_at (d : Dims) (s : State) (i : nat) (p : Pos) : Prop :=
  exists o,
    heap s !! i = Some o /\
    type o = textbox /\
    get o "left" = VNum (x p / 100 * w d) /\
    get o "top" = VNum (y p / 100 * h d).

(** The layout the content effect reads its three positions from. *)
Definition layout_of (c : Content) : gmap string Pos :=
  default default_layout (layout_json c).

(** The seven form fields [handleSelect] fills agree with the TextBox; the
    defaults are the ones its [||] supplies for a falsy attribute. *)
Definition mirrors (f : Form) (tb : Obj) : Prop :=
  fontColor f = get tb "fill" /\
  fontSize f = js_or (get tb "fontSize") (VNum 24) /\
  fontFamily f = js_or (get tb "fontFamily") (VStr "Helvetica") /\
  textAlign f = js_or (get tb "textAlign") (VStr "left") /\
  fontWeight f = js_or (get tb "fontWeight") (VStr "normal") /\
  fontStyle f = js_or (get tb "fontStyle") (VStr "normal") /\
  underline f = js_or (get tb "underline") (VBool false).

(** The form mirrors the selected TextBox, if there is one. *)
Definition synced (s : State) : Prop :=
  forall i tb,
    selectedObject s = Some i -> heap s !! i = Some tb -> type tb = textbox ->
    mirrors (form s) tb.

(** The attribute a control writes and the form value it is written from. *)
Definition pushed (rt : Runtime) (c : Control) (f : Form) (o : Obj) : Prop :=
  match c with
  | EditText v => get o "text" = VStr v
  | Bold => get o "fontWeight" = fontWeight f
  | Italic => get o "fontStyle" = fontStyle f
  | Underline => get o "underline" = underline f
  | FontColor _ => get o "fill" = fontColor f
  | StrokeColor _ => get o "stroke" = VStr (strokeColor f)
  | StrokeWidth _ => get o "strokeWidth" = VNum (strokeWidth f)
  | ShadowBlur _ | ShadowColor _ => get o "shadow" = shadow_of (shadowColor f) (shadowBlur f)
  | BgColor _ | BgOpacity _ =>
      get o "backgroundColor" = VStr (rgba rt (bgColor f) (bgOpacity f))
  | FontSize _ => get o "fontSize" = fontSize f
  | TextAlign _ => get o "textAlign" = textAlign f
  end.

(** The object carries a shadow. *)
Definition has_shadow (o : Obj) : bool :=
  match get o "shadow" with
  | VShadow _ _ => true
  | _ => false
  end.

(** A shadow, when there is one, has a nonzero blur. *)
Definition shadow_ok (o : Obj) : Prop :=
  forall color blur, get o "shadow" = VShadow color blur -> ~ blur == 0.

(** No TextBox of the session carries a shadow of blur 0. *)
Definition shadows_ok (s : State) : Prop :=
  forall i o, heap s !! i = Some o -> type o = textbox -> shadow_ok o.

(** The class default of [shadow] is not a shadow of blur 0 (fabric's is
    [null]). *)
Definition default_shadow_ok (rt : Runtime) : Prop :=
  forall color blur,
    textbox_defaults rt !! "shadow" = Some (VShadow color blur) -> ~ blur == 0.

(** Boolean forms of the guards of the step relation. *)
Definition is_selected_textbox (s : State) : bool :=
  match selectedObject s with
  | None => false
  | Some i =>
      match heap s !! i with
      | Some {| type := textbox |} => true
      | _ => false
      end
  end.

Definition is_on_canvas (i : nat) (s : State) : bool := mem_obj i (scene s).

(** ** Sample sessions *)

(** The editor mounted on [content_plain] (A4 portrait, container
    1000 x 800): the three captions at their default positions. *)
Definition mounted_plain : State :=
  default (initial content_plain sample_box)
    (mount fabric_rt (initial content_plain sample_box)).

(** "Add Text" pressed once: TextBox 3 is new and selected. *)
Definition added_text : State := handleAddText fabric_rt mounted_plain.

(** Stroke width 3 on TextBox 3, "Add Text" again (TextBox 4), stroke width
    1 on TextBox 4, then a click on TextBox 3. *)
Definition reselected : State :=
  handleSelect [3%nat]
    (onControl fabric_rt (StrokeWidth 1)
       (handleAddText fabric_rt
          (onControl fabric_rt (StrokeWidth 3) added_text))).

(** On [mounted_plain]: a click on the headline (TextBox 0), shadow blur
    10, then a click on the tagline (TextBox 1). *)
Definition blur_without_shadow : State :=
  handleSelect [1%nat]
    (onControl fabric_rt (ShadowBlur 10) (handleSelect [0%nat] mounted_plain)).

(** Then shadow blur 0 on the tagline and a click on the headline again. *)
Definition shadow_without_blur : State :=
  handleSelect [0%nat] (onControl fabric_rt (ShadowBlur 0) blur_without_shadow).

(** The editor mounted on [content_image] (A4 portrait, container
    1000 x 800): three captions on the canvas, one decode pending. *)
Definition mounted_image : State :=
  default (initial content_image sample_box)
    (mount fabric_rt (initial content_image sample_box)).

(** The decode started by that mount: page size 794 x 1123 captured. *)
Definition a4_decode : Pending :=
  {| src := "data:image/png;base64,iVBORw0KGgo="; pwidth := 794; pheight := 1123 |}.

(** [mounted_image] after the poster size is changed to Letter: the Scene is
    rebuilt for 816 x 1056 while the decode started for A4 is pending. *)
Definition rebuilt_letter : State :=
  default mounted_image (onChange_posterSize fabric_rt "Letter" mounted_image).

(** The A4 decode then completes with a 2000 x 1000 image. *)
Definition late_completion : State :=
  imgEl_onload fabric_rt a4_decode 2000 1000
    (with_pending (delete 0%nat (pending rebuilt_letter)) rebuilt_letter).

(** ** Vocabulary of the further properties *)


(** White space at the front of a string; [p2] and [p3] as for
    [strip_spaces]. *)
Definition front_space (p2 : ascii -> ascii -> bool) (p3 : ascii -> ascii -> ascii -> bool)
    (s : string) : bool :=
  match s with
  | EmptyString => false
  | String a r =>
      (is_space a ||
       match r with
       | EmptyString => false
       | String b r2 =>
           (p2 a b ||
            match r2 with
            | EmptyString => false
            | String c _ => p3 a b c
            end)
       end)%bool
  end.

(** Two objects that agree but for their laid-out dimensions. *)
Definition same_but_layout (o1 o2 : Obj) : Prop :=
  type o1 = type o2 /\
  forall k, k <> "width" -> k <> "height" -> get o1 k = get o2 k.

(** Two states that agree but for the laid-out dimensions of their
    objects. *)
Definition agree_but_layout (s1 s2 : State) : Prop :=
  canvas s1 = canvas s2 /\ next s1 = next s2 /\
  selectedObject s1 = selectedObject s2 /\ zoom s1 = zoom s2 /\
  form s1 = form s2 /\ posterSize s1 = posterSize s2 /\
  orientation s1 = orientation s2 /\ content s1 = content s2 /\
  container s1 = container s2 /\ pending s1 = pending s2 /\
  forall i,
    match heap s1 !! i, heap s2 !! i with
    | Some o1, Some o2 => same_but_layout o1 o2
    | None, None => True
    | _, _ => False
    end.



(** The decode the content effect starts, if any. *)
Definition started (c : Content) (d : Dims) : list Pending :=
  match head (images_b64 c) with
  | Some firstImg =>
      if negb (String.eqb firstImg EmptyString)
      then [ {| src := imgUrl firstImg; pwidth := w d; pheight := h d |} ]
      else []
  | None => []
  end.

(** ** The refinement merge ([RefinePanel]) and the wizard ([CampaignWizard]) *)

Inductive ElementType := el_layout | el_captions | el_images | el_all.

(** The four refinable parts of the content: the [content] prop of
    [RefinePanel], the backend's answer [data] and [mergedContent].
    [images_b64] can be missing, which the code allows for with [?.]. *)
Record Refinable := {
  r_layout_json : option (gmap string Pos);
  r_captions : Captions;
  r_visual_prompt : string;
  r_images_b64 : option (list string)
}.

(** [images?.length] as a condition. *)
Definition has_length (images : option (list string)) : bool :=
  match images with
  | Some (_ :: _) => true
  | _ => false
  end.

(** [mergedContent] of [handleRefine] (refine-panel.tsx, lines 98-115). *)
Definition mergedContent (elementType : ElementType) (data content : Refinable)
  : Refinable :=
  {| r_layout_json :=
       match elementType with
       | el_layout | el_all => r_layout_json data
       | _ => r_layout_json content
       end;
     r_captions :=
       match elementType with
       | el_captions | el_all => r_captions data
       | _ => r_captions content
       end;
     r_visual_prompt :=
       match elementType with
       | el_images | el_all => r_visual_prompt data
       | _ => r_visual_prompt content
       end;
     r_images_b64 :=
       match elementType with
       | el_images | el_all =>
           if has_length (r_images_b64 data) then r_images_b64 data
           else r_images_b64 content
       | _ => r_images_b64 content
       end |}.

Inductive WizardStep := wz_form | wz_results | wz_refine | wz_editor.

(** [GeneratedContent]: the refinable parts and the campaign context. *)
Record GeneratedContent := {
  g_parts : Refinable;
  g_core_idea : option string;
  g_audience : option string;
  g_writing_style : option string;
  g_collateral_type : option string
}.

(** The fields of the campaign form that the wizard copies. *)
Record FormData := {
  f_core_idea : string;
  f_audience : string;
  f_writing_style : string;
  f_collateral_type : string
}.

Record Wizard := {
  wz_step : WizardStep;
  wz_content : option GeneratedContent;
  wz_isLoading : bool;
  wz_error : option string
}.

Definition wizard_initial : Wizard :=
  {| wz_step := wz_form; wz_content := None; wz_isLoading := false; wz_error := None |}.

Definition setStep (v : WizardStep) (z : Wizard) : Wizard :=
  {| wz_step := v; wz_content := wz_content z;
     wz_isLoading := wz_isLoading z; wz_error := wz_error z |}.

Definition setContent (v : GeneratedContent) (z : Wizard) : Wizard :=
  {| wz_step := wz_step z; wz_content := Some v;
     wz_isLoading := wz_isLoading z; wz_error := wz_error z |}.

Definition setIsLoading (v : bool) (z : Wizard) : Wizard :=
  {| wz_step := wz_step z; wz_content := wz_content z;
     wz_isLoading := v; wz_error := wz_error z |}.

Definition setError (v : option string) (z : Wizard) : Wizard :=
  {| wz_step := wz_step z; wz_content := wz_content z;
     wz_isLoading := wz_isLoading z; wz_error := v |}.

(** [handleCreateCollateral] (lines 565-602) up to its [await]. *)
Definition create_start (z : Wizard) : Wizard := setError None (setIsLoading true z).

(** Its continuation when the backend answered [data]. *)
Definition create_ok (formData : FormData) (data : Refinable) (z : Wizard) : Wizard :=
  setIsLoading false
    (setStep wz_results
       (setContent
          {| g_parts := data;
             g_core_idea := Some (f_core_idea formData);
             g_audience := Some (f_audience formData);
             g_writing_style := Some (f_writing_style formData);
             g_collateral_type := Some (f_collateral_type formData) |} z)).

(** Its continuation when the request failed with [message]. *)
Definition create_failed (message : string) (z : Wizard) : Wizard :=
  setIsLoading false (setError (Some message) z).

(** [onRefined] as the wizard passes it (lines 693-695):
    [setContent({ ...content, ...updated })]. *)
Definition onRefined (content : GeneratedContent) (updated : Refinable) (z : Wizard)
  : Wizard :=
  setContent
    {| g_parts := updated;
       g_core_idea := g_core_idea content;
       g_audience := g_audience content;
       g_writing_style := g_writing_style content;
       g_collateral_type := g_collateral_type content |} z.

(** The content the editor is mounted with. *)
Definition editor_content (g : GeneratedContent) : Content :=
  {| layout_json := r_layout_json (g_parts g);
     captions := r_captions (g_parts g);
     images_b64 := default [] (r_images_b64 (g_parts g)) |}.

(** What can happen in the wizard: the form is submitted and answered, the
    Back and Next buttons of the step that is rendered are pressed, a
    refinement is merged.  A step other than the form is rendered only with
    content (lines 670-704).  The answers of the two requests arrive
    whenever they do, whatever the step is by then; a refinement is merged
    into the content [g] that its panel was rendered with. *)
Inductive wizard_step : Wizard -> Wizard -> Prop :=
| wizard_submit z :
    wz_step z = wz_form -> wizard_step z (create_start z)
| wizard_created z formData data :
    wizard_step z (create_ok formData data z)
| wizard_failed z message :
    wizard_step z (create_failed message z)
| wizard_results_back z g :
    wz_step z = wz_results -> wz_content z = Some g -> wizard_step z (setStep wz_form z)
| wizard_results_next z g :
    wz_step z = wz_results -> wz_content z = Some g -> wizard_step z (setStep wz_refine z)
| wizard_refined z g elementType data :
    wizard_step z (onRefined g (mergedContent elementType data (g_parts g)) z)
| wizard_refine_back z g :
    wz_step z = wz_refine -> wz_content z = Some g -> wizard_step z (setStep wz_results z)
| wizard_refine_next z g :
    wz_step z = wz_refine -> wz_content z = Some g -> wizard_step z (setStep wz_editor z)
| wizard_editor_back z g :
    wz_step z = wz_editor -> wz_content z = Some g -> wizard_step z (setStep wz_refine z).

Inductive wizard_reachable : Wizard -> Prop :=
| wizard_reach_initial : wizard_reachable wizard_initial
| wizard_reach_step z z' : wizard_reachable z -> wizard_step z z' -> wizard_reachable z'.

(** Sample data for the merge. *)
Definition sample_parts : Refinable :=
  {| r_layout_json := None;
     r_captions := sample_captions;
     r_visual_prompt := "a clinic at dawn";
     r_images_b64 := Some ["iVBORw0KGgo="] |}.

Definition sample_answer : Refinable :=
  {| r_layout_json := Some (<["headline" := {| x := 5; y := 5 |}]> ∅);
     r_captions := {| headline := "H2"; tagline := "T2"; cta := "C2" |};
     r_visual_prompt := "a clinic at noon";
     r_images_b64 := Some [] |}.

(** * Properties *)

(** Existence of an object or a state read off a computed option. *)
Lemma exists_Some {A : Type} (m : option A) (P : A -> Prop) :
  match m with
  | Some a => P a
  | None => False
  end ->
  exists a, m = Some a /\ P a.
Proof.
  destruct m as [a |]; [| contradiction]. intros H. exists a. auto.
Qed.

(** ** Page geometry *)

Lemma getCanvasDimensions_pos key o d :
  getCanvasDimensions key o = Some d -> 0 < w d /\ 0 < h d.
Proof.
  unfold getCanvasDimensions; simpl.
  repeat (destruct (String.eqb key _);
          [ destruct o; intros [= <-]; simpl; split; reflexivity | ]).
  discriminate.
Qed.

(** C6: for each of the five entries of the page size table (Letter
    816x1056, A4 794x1123, A5 559x794, A6 397x559, Postcard 400x600),
    [getCanvasDimensions] returns exactly the base pair in portrait and
    exactly the swapped pair in landscape. *)
Theorem getCanvasDimensions_table :
  getCanvasDimensions "Letter" portrait = Some {| w := 816; h := 1056 |} /\
  getCanvasDimensions "Letter" landscape = Some {| w := 1056; h := 816 |} /\
  getCanvasDimensions "A4" portrait = Some {| w := 794; h := 1123 |} /\
  getCanvasDimensions "A4" landscape = Some {| w := 1123; h := 794 |} /\
  getCanvasDimensions "A5" portrait = Some {| w := 559; h := 794 |} /\
  getCanvasDimensions "A5" landscape = Some {| w := 794; h := 559 |} /\
  getCanvasDimensions "A6" portrait = Some {| w := 397; h := 559 |} /\
  getCanvasDimensions "A6" landscape = Some {| w := 559; h := 397 |} /\
  getCanvasDimensions "Postcard" portrait = Some {| w := 400; h := 600 |} /\
  getCanvasDimensions "Postcard" landscape = Some {| w := 600; h := 400 |} /\
  map fst BASE_SIZES = ["Letter"; "A4"; "A5"; "A6"; "Postcard"].
Proof. repeat split; reflexivity. Qed.

(** ** Viewport scale *)

Lemma div_pos (a b : Q) : 0 < b -> 0 < a -> 0 < a / b.
Proof.
  intros Hb Ha. apply Qlt_shift_div_l; [exact Hb | lra].
Qed.

Lemma div_nonneg (a b : Q) : 0 < b -> 0 <= a -> 0 <= a / b.
Proof.
  intros Hb Ha. apply Qle_shift_div_l; [exact Hb | lra].
Qed.

(** C5, as the code has it: [resizeCanvas] stores
    [min(cw/pw, ch/ph)] in the zoom state and as the zoom of the canvas for
    every container size, with no deferral.  The scale is positive when the
    container has positive width and height and is zero when either is
    zero; it is at most [cw/pw] and at most [ch/ph].  The canvas itself is
    given the unscaled page size [(pw, ph)]: nothing keeps it within the
    container. *)
Theorem resizeCanvas_scale (s : State) (c : Canvas) (d : Dims) (cw ch : Q) :
  canvas s = Some c ->
  container s = Some (cw, ch) ->
  getCanvasDimensions (posterSize s) (orientation s) = Some d ->
  0 <= cw -> 0 <= ch ->
  exists s' c',
    resizeCanvas s = Some s' /\
    zoom s' = Qmin (cw / w d) (ch / h d) /\
    canvas s' = Some c' /\
    czoom c' = zoom s' /\
    cdims c' = d /\
    scene s' = scene s /\
    0 <= zoom s' /\
    (0 < cw -> 0 < ch -> 0 < zoom s') /\
    (cw == 0 \/ ch == 0 -> zoom s' == 0) /\
    zoom s' <= cw / w d /\
    zoom s' <= ch / h d.
Proof.
  intros Hc Hbox Hd Hcw Hch.
  destruct (getCanvasDimensions_pos _ _ _ Hd) as [Hw Hh].
  unfold resizeCanvas. rewrite Hd; simpl. rewrite Hbox, Hc.
  eexists; eexists; split; [reflexivity |].
  unfold scene; simpl. rewrite Hc.
  pose proof (div_nonneg cw (w d) Hw Hcw) as Hx.
  pose proof (div_nonneg ch (h d) Hh Hch) as Hy.
  pose proof (Q.le_min_l (cw / w d) (ch / h d)) as Hl.
  pose proof (Q.le_min_r (cw / w d) (ch / h d)) as Hr.
  destruct (Q.min_spec (cw / w d) (ch / h d)) as [[_ Hm] | [_ Hm]];
    (repeat split; try reflexivity;
     [ rewrite Hm; assumption
     | intros Hcw' Hch'; rewrite Hm; apply div_pos; assumption
     | intros [Hz | Hz];
       [ assert (cw / w d == 0) as Hq by (rewrite Hz; field; lra); lra
       | assert (ch / h d == 0) as Hq by (rewrite Hz; field; lra); lra ]
     | assumption
     | assumption ]).
Qed.

Lemma resizeCanvas_scale_witness :
  exists s' c',
    resizeCanvas (mounted_in 1000 800) = Some s' /\
    zoom s' = Qmin (1000 / 794) (800 / 1123) /\
    canvas s' = Some c' /\
    czoom c' = zoom s' /\
    cdims c' = {| w := 794; h := 1123 |} /\
    scene s' = scene (mounted_in 1000 800) /\
    0 <= zoom s' /\
    (0 < 1000 -> 0 < 800 -> 0 < zoom s') /\
    (1000 == 0 \/ 800 == 0 -> zoom s' == 0) /\
    zoom s' <= 1000 / 794 /\
    zoom s' <= 800 / 1123.
Proof.
  apply (resizeCanvas_scale (mounted_in 1000 800)
           {| objects := []; cdims := {| w := 794; h := 1123 |}; czoom := 1 |}
           {| w := 794; h := 1123 |} 1000 800);
    first [ reflexivity | discriminate ].
Defined.

(** C5, counterexample: with a container of width zero the recomputation is
    not deferred; zoom 0, which is not positive, replaces the previous zoom
    1 in the React state and in the canvas. *)
Lemma resizeCanvas_zero_width :
  zoom (mounted_in 0 600) = 1 /\
  exists s',
    resizeCanvas (mounted_in 0 600) = Some s' /\
    zoom s' == 0 /\
    canvas_zoom s' = Some (zoom s') /\
    ~ 0 < zoom s'.
Proof.
  split; [reflexivity |].
  eexists; split; [reflexivity |].
  split; [reflexivity |].
  split; [reflexivity |].
  intros H; discriminate H.
Qed.

(** ** The object list *)

Lemma mem_obj_elem i l : mem_obj i l = true <-> i ∈ l.
Proof.
  unfold mem_obj. rewrite existsb_exists. split.
  - intros [j [Hj He]]. apply Nat.eqb_eq in He. subst. apply list_elem_of_In, Hj.
  - intros Hi. exists i. split; [apply list_elem_of_In, Hi | apply Nat.eqb_refl].
Qed.

Lemma remove_obj_elem i j l : j ∈ remove_obj i l -> j ∈ l.
Proof.
  induction l as [| k l IH]; simpl; [trivial |].
  destruct (Nat.eqb i k); rewrite ?elem_of_cons; tauto.
Qed.

Lemma remove_obj_other i j l : j <> i -> j ∈ l -> j ∈ remove_obj i l.
Proof.
  intros Hne. induction l as [| k l IH]; simpl; [trivial |].
  destruct (Nat.eqb_spec i k) as [-> | Hk]; rewrite ?elem_of_cons; intros [He | Hin]; auto.
  congruence.
Qed.

Lemma remove_obj_absent i l : i ∉ l -> remove_obj i l = l.
Proof.
  induction l as [| k l IH]; simpl; [reflexivity |].
  rewrite not_elem_of_cons. intros [Hne Hn].
  destruct (Nat.eqb_spec i k) as [-> | Hk]; [congruence |].
  f_equal. apply IH, Hn.
Qed.

Lemma remove_obj_NoDup i l : NoDup l -> NoDup (remove_obj i l).
Proof.
  induction 1 as [| k l Hk Hl IH]; simpl; [constructor |].
  destruct (Nat.eqb i k); [exact Hl |].
  constructor; [| exact IH].
  intros Hin. apply Hk. eapply remove_obj_elem; eassumption.
Qed.

Lemma remove_obj_gone i l : NoDup l -> i ∉ remove_obj i l.
Proof.
  induction 1 as [| k l Hk Hl IH]; simpl; [apply not_elem_of_nil |].
  destruct (Nat.eqb_spec i k) as [-> | Hne]; [exact Hk |].
  apply not_elem_of_cons. split; assumption.
Qed.

(** Removing a present object splits the list around it. *)
Lemma remove_obj_split i l :
  i ∈ l -> NoDup l ->
  exists l1 l2, l = l1 ++ i :: l2 /\ remove_obj i l = l1 ++ l2 /\ i ∉ l1 ++ l2.
Proof.
  intros Hin Hnd.
  assert (exists l1 l2, l = l1 ++ i :: l2 /\ remove_obj i l = l1 ++ l2) as (l1 & l2 & H1 & H2).
  { clear Hnd. induction l as [| k l IH]; simpl in *; [inversion Hin |].
    destruct (Nat.eqb_spec i k) as [-> | Hne].
    - exists [], l. split; reflexivity.
    - apply elem_of_cons in Hin. destruct Hin as [He | Hin]; [congruence |].
      destruct (IH Hin) as (l1 & l2 & H1 & H2).
      exists (k :: l1), l2. simpl. split; congruence. }
  exists l1, l2. split; [exact H1 |]. split; [exact H2 |].
  rewrite <- H2. apply remove_obj_gone. exact Hnd.
Qed.

Lemma remove_obj_last i l : i ∉ l -> remove_obj i (l ++ [i]) = l.
Proof.
  induction l as [| k l IH]; simpl.
  - intros _. rewrite Nat.eqb_refl. reflexivity.
  - rewrite not_elem_of_cons. intros [Hne Hn].
    destruct (Nat.eqb_spec i k) as [-> | Hk]; [congruence |].
    f_equal. apply IH, Hn.
Qed.

Lemma NoDup_snoc (i : nat) (l : list nat) : NoDup l -> i ∉ l -> NoDup (l ++ [i]).
Proof.
  intros Hl Hi. apply NoDup_app. split; [exact Hl |].
  split; [| apply NoDup_singleton].
  intros j Hj Hj'. apply list_elem_of_singleton in Hj'. subst. contradiction.
Qed.

(** ** Well-formed states

    References on the canvas are distinct and allocated, the selection is on
    the canvas, and decodes are only pending once there is a canvas. *)

Lemma wf_initial c box : wf (initial c box).
Proof.
  split; simpl; try discriminate; try reflexivity.
  - intros i Hi. inversion Hi.
  - constructor.
  - intros i Hi. lia.
Qed.

(** Changes outside the scene, the heap and the selection. *)
Lemma wf_ext s s' :
  wf s ->
  scene s' = scene s -> next s' = next s -> heap s' = heap s ->
  selectedObject s' = selectedObject s ->
  (canvas s' = None -> pending s' = []) ->
  wf s'.
Proof.
  intros [H1 H2 H3 H4 H5] Hs Hn Hh Hsel Hp.
  split; rewrite ?Hs, ?Hn, ?Hh, ?Hsel; assumption.
Qed.

Lemma scene_with_objects f s : scene (with_objects f s) = f (scene s) \/ canvas s = None.
Proof.
  unfold with_objects, scene. destruct (canvas s); simpl; auto.
Qed.

Lemma wf_fresh_next s : wf s -> next s ∉ scene s.
Proof.
  intros Hwf Hin. apply (wf_fresh s Hwf) in Hin. lia.
Qed.

Lemma wf_alloc_add o s : wf s -> wf (canvas_add (next s) (alloc o s)).
Proof.
  intros Hwf. pose proof (wf_fresh_next s Hwf) as Hnew.
  destruct Hwf as [H1 H2 H3 H4 H5].
  unfold canvas_add, alloc, with_objects, scene in *.
  destruct s as [cv hp nx sel zm fm ps ori ct box pd]; simpl in *.
  destruct cv as [c |]; simpl in *.
  - split; simpl.
    + intros i Hi. apply elem_of_app in Hi. destruct Hi as [Hi | Hi].
      * apply H1 in Hi. lia.
      * apply list_elem_of_singleton in Hi. lia.
    + apply NoDup_snoc; assumption.
    + intros i Hi. destruct (decide (i = nx)) as [-> | Hne].
      * rewrite lookup_insert_eq. eauto.
      * rewrite lookup_insert_ne by congruence. apply H3. lia.
    + intros i Hi. apply elem_of_app. left. auto.
    + discriminate.
  - split; simpl; auto.
    + intros i Hi. inversion Hi.
    + intros i Hi. destruct (decide (i = nx)) as [-> | Hne].
      * rewrite lookup_insert_eq. eauto.
      * rewrite lookup_insert_ne by congruence. apply H3. lia.
Qed.

Lemma handleSelect_core i s :
  canvas (handleSelect [i] s) = canvas s /\
  heap (handleSelect [i] s) = heap s /\
  next (handleSelect [i] s) = next s /\
  pending (handleSelect [i] s) = pending s /\
  selectedObject (handleSelect [i] s) = Some i.
Proof.
  unfold handleSelect; simpl.
  destruct (heap s !! i) as [tb |]; [destruct (type tb) |]; simpl; auto.
Qed.

Lemma scene_handleSelect i s : scene (handleSelect [i] s) = scene s.
Proof.
  unfold scene. destruct (handleSelect_core i s) as (-> & _). reflexivity.
Qed.

Lemma wf_handleSelect i s : wf s -> i ∈ scene s -> wf (handleSelect [i] s).
Proof.
  intros [H1 H2 H3 H4 H5] Hi.
  destruct (handleSelect_core i s) as (Hc & Hh & Hn & Hp & Hsel).
  pose proof (scene_handleSelect i s) as Hs.
  split; rewrite ?Hs, ?Hn, ?Hh, ?Hp, ?Hc; try assumption.
  intros j Hj. rewrite Hsel in Hj. congruence.
Qed.

Lemma wf_deselect s : wf s -> wf (setSelectedObject None s).
Proof.
  intros [H1 H2 H3 H4 H5]. split; simpl; try assumption. discriminate.
Qed.

Lemma wf_canvas_clear s : wf s -> wf (canvas_clear s).
Proof.
  intros [H1 H2 H3 H4 H5].
  destruct s as [cv hp nx sel zm fm ps ori ct box pd].
  unfold canvas_clear, handleClear, with_objects, scene in *; simpl in *.
  destruct cv as [c |]; split; simpl;
    try assumption; try discriminate; try constructor;
    intros i Hi; inversion Hi.
Qed.

Lemma wf_with_objects f s :
  wf s ->
  (forall i, i ∈ f (scene s) -> i ∈ scene s) ->
  NoDup (f (scene s)) ->
  (forall i, selectedObject s = Some i -> i ∈ f (scene s)) ->
  wf (with_objects f s).
Proof.
  intros [H1 H2 H3 H4 H5] Hsub Hnd Hsel.
  unfold with_objects, scene in *.
  destruct s as [cv hp nx sel zm fm ps ori ct box pd]; simpl in *.
  destruct cv as [c |]; split; simpl in *; auto. discriminate.
Qed.

Lemma wf_canvas_remove i s : wf s -> wf (setSelectedObject None (canvas_remove i s)).
Proof.
  intros Hwf.
  assert (wf (setSelectedObject None s)) as Hwf' by (apply wf_deselect, Hwf).
  assert (wf (with_objects (remove_obj i) (setSelectedObject None s))) as Hr.
  { apply wf_with_objects; [exact Hwf' | | | discriminate].
    - intros j. apply remove_obj_elem.
    - apply remove_obj_NoDup, (wf_nodup _ Hwf'). }
  replace (setSelectedObject None (canvas_remove i s))
    with (with_objects (remove_obj i) (setSelectedObject None s)); [exact Hr |].
  unfold canvas_remove, handleClear, with_objects.
  destruct s as [cv hp nx sel zm fm ps ori ct box pd]; simpl.
  destruct cv as [c |], sel as [j |]; simpl; try destruct (Nat.eqb i j); reflexivity.
Qed.

Lemma wf_sendObjectToBack i s : wf s -> wf (canvas_sendObjectToBack i s).
Proof.
  intros Hwf. apply wf_with_objects; [exact Hwf | | |].
  - intros j. destruct (mem_obj i (scene s)) eqn:Hm; [| trivial].
    apply mem_obj_elem in Hm. rewrite elem_of_cons.
    intros [-> | Hj]; [exact Hm | eapply remove_obj_elem, Hj].
  - destruct (mem_obj i (scene s)) eqn:Hm; [| apply (wf_nodup _ Hwf)].
    constructor; [apply remove_obj_gone | apply remove_obj_NoDup]; apply (wf_nodup _ Hwf).
  - intros j Hj. apply (wf_selected _ Hwf) in Hj.
    destruct (mem_obj i (scene s)); [| exact Hj].
    destruct (decide (j = i)) as [-> | Hne]; [left |].
    apply elem_of_cons. right. apply remove_obj_other; assumption.
Qed.

Lemma wf_bringObjectToFront i s : wf s -> wf (canvas_bringObjectToFront i s).
Proof.
  intros Hwf. apply wf_with_objects; [exact Hwf | | |].
  - intros j. destruct (mem_obj i (scene s)) eqn:Hm; [| trivial].
    apply mem_obj_elem in Hm. rewrite elem_of_app, list_elem_of_singleton.
    intros [Hj | ->]; [eapply remove_obj_elem, Hj | exact Hm].
  - destruct (mem_obj i (scene s)) eqn:Hm; [| apply (wf_nodup _ Hwf)].
    apply NoDup_snoc; [apply remove_obj_NoDup | apply remove_obj_gone]; apply (wf_nodup _ Hwf).
  - intros j Hj. apply (wf_selected _ Hwf) in Hj.
    destruct (mem_obj i (scene s)); [| exact Hj].
    apply elem_of_app. destruct (decide (j = i)) as [-> | Hne].
    + right. apply list_elem_of_singleton. reflexivity.
    + left. apply remove_obj_other; assumption.
Qed.

Lemma wf_heap_update i o s :
  wf s -> wf (with_heap (<[i := o]> (heap s)) s).
Proof.
  intros [H1 H2 H3 H4 H5]. split; simpl; try assumption.
  intros j Hj. destruct (decide (i = j)) as [-> | Hne].
  - rewrite lookup_insert_eq. eauto.
  - rewrite lookup_insert_ne by assumption. auto.
Qed.

(** *** Handlers keep states well formed *)

Lemma wf_resizeCanvas s s' : resizeCanvas s = Some s' -> wf s -> wf s'.
Proof.
  unfold resizeCanvas.
  destruct (getCanvasDimensions _ _) as [d |]; simpl; [| discriminate].
  destruct (container s) as [[cw ch] |] eqn:Hbox; [| intros [= <-]; trivial].
  destruct (canvas s) as [c |] eqn:Hc; intros [= <-] Hwf; [| exact Hwf].
  apply (wf_ext s); try reflexivity; try assumption.
  - unfold scene; simpl. rewrite Hc. reflexivity.
  - discriminate.
Qed.

Lemma wf_resize_effect s s' : resize_effect s = Some s' -> wf s -> wf s'.
Proof.
  unfold resize_effect.
  destruct (canvas s); [destruct (container s) |];
    first [ apply wf_resizeCanvas | intros [= <-]; trivial ].
Qed.

Lemma wf_addText rt d text pos extra s s' :
  addText rt d text pos extra s = Some s' -> wf s -> wf s'.
Proof.
  unfold addText. destruct pos as [p |]; [| discriminate].
  intros [= <-]. apply wf_alloc_add.
Qed.

Lemma wf_with_pending l s :
  wf s -> canvas s <> None -> wf (with_pending l s).
Proof.
  intros Hwf Hc. apply (wf_ext s); try reflexivity; [exact Hwf |].
  simpl. intros Hn. contradiction.
Qed.

Lemma canvas_clear_Some s : canvas s <> None -> canvas (canvas_clear s) <> None.
Proof.
  unfold canvas_clear, handleClear, with_objects.
  destruct (canvas s) as [c |] eqn:Hc; simpl; [discriminate | rewrite Hc; trivial].
Qed.

Lemma wf_loadContent rt s s' : loadContent rt s = Some s' -> wf s -> wf s'.
Proof.
  unfold loadContent.
  destruct (canvas s) as [c |] eqn:Hc; [| intros [= <-]; trivial].
  destruct (getCanvasDimensions _ _) as [d |]; simpl; [| discriminate].
  intros H Hwf.
  match type of H with
  | context [addText rt d (headline _) _ _ ?s2] =>
      assert (wf s2) as Hwf2
  end.
  { pose proof (wf_canvas_clear s Hwf) as Hcl.
    assert (canvas (canvas_clear s) <> None) as Hne
        by (apply canvas_clear_Some; rewrite Hc; discriminate).
    destruct (head (images_b64 (content s))) as [img |]; [| exact Hcl].
    destruct (negb (String.eqb img EmptyString)); [| exact Hcl].
    apply wf_with_pending; assumption. }
  destruct (addText rt d (headline _) _ _ _) as [s3 |] eqn:H3; simpl in H; [| discriminate].
  destruct (addText rt d (tagline _) _ _ _) as [s4 |] eqn:H4; simpl in H; [| discriminate].
  eapply wf_addText; [exact H |].
  eapply wf_addText; [exact H4 |].
  eapply wf_addText; [exact H3 | exact Hwf2].
Qed.

Lemma wf_new_canvas c s :
  wf s -> canvas s = None -> objects c = [] -> wf (with_canvas (Some c) s).
Proof.
  intros [H1 H2 H3 H4 H5] Hc Ho. unfold scene in *. rewrite Hc in *.
  split; unfold scene; simpl; rewrite ?Ho; try assumption. discriminate.
Qed.

Lemma wf_mount rt s s' : canvas s = None -> mount rt s = Some s' -> wf s -> wf s'.
Proof.
  unfold mount. intros Hc H Hwf.
  destruct (getCanvasDimensions _ _) as [d |]; simpl in H; [| discriminate].
  destruct (resize_effect _) as [s1 |] eqn:H1; simpl in H; [| discriminate].
  eapply wf_loadContent; [exact H |].
  eapply wf_resize_effect; [exact H1 |].
  apply wf_new_canvas; [exact Hwf | exact Hc | reflexivity].
Qed.

Lemma wf_rerun_effects rt s s' : rerun_effects rt s = Some s' -> wf s -> wf s'.
Proof.
  unfold rerun_effects. intros H Hwf.
  destruct (getCanvasDimensions _ _) as [d |]; simpl in H; [| discriminate].
  destruct (resize_effect s) as [s1 |] eqn:H1; simpl in H; [| discriminate].
  eapply wf_loadContent; [exact H |].
  eapply wf_resize_effect; [exact H1 | exact Hwf].
Qed.

Lemma wf_core s s' :
  wf s ->
  canvas s' = canvas s -> next s' = next s -> heap s' = heap s ->
  selectedObject s' = selectedObject s -> pending s' = pending s ->
  wf s'.
Proof.
  intros Hwf Hc Hn Hh Hsel Hp.
  apply (wf_ext s); try assumption.
  - unfold scene. rewrite Hc. reflexivity.
  - rewrite Hc, Hp. apply (wf_pending s Hwf).
Qed.

Lemma wf_imgEl_onload rt p iw ih s :
  wf s -> wf (imgEl_onload rt p iw ih s).
Proof.
  intros Hwf. unfold imgEl_onload.
  apply wf_sendObjectToBack, wf_alloc_add, Hwf.
Qed.

Lemma wf_drop_pending n s : wf s -> wf (with_pending (delete n (pending s)) s).
Proof.
  intros Hwf. apply (wf_ext s); try reflexivity; [exact Hwf |].
  simpl. intros Hc. rewrite (wf_pending s Hwf Hc). reflexivity.
Qed.

Lemma scene_alloc_add o s c :
  canvas s = Some c -> scene (canvas_add (next s) (alloc o s)) = objects c ++ [next s].
Proof.
  intros Hc. unfold scene, canvas_add, with_objects, alloc; simpl. rewrite Hc. reflexivity.
Qed.

Lemma wf_add_select o s :
  canvas s <> None -> wf s ->
  wf (canvas_setActiveObject (next s) (canvas_add (next s) (alloc o s))).
Proof.
  intros Hc Hwf. destruct (canvas s) as [c |] eqn:Hcv; [| contradiction].
  unfold canvas_setActiveObject.
  apply wf_handleSelect; [apply wf_alloc_add, Hwf |].
  rewrite (scene_alloc_add o s c Hcv).
  apply elem_of_app. right. apply list_elem_of_singleton. reflexivity.
Qed.

Lemma wf_handleAddText rt s : wf s -> wf (handleAddText rt s).
Proof.
  intros Hwf. unfold handleAddText.
  destruct (canvas s) as [c |] eqn:Hc; [| exact Hwf].
  apply wf_add_select; [rewrite Hc; discriminate | exact Hwf].
Qed.

Lemma wf_handleDelete s : wf s -> wf (handleDelete s).
Proof.
  intros Hwf. unfold handleDelete.
  destruct (canvas s); [| exact Hwf].
  destruct (selectedObject s); [| exact Hwf].
  apply wf_canvas_remove, Hwf.
Qed.

Lemma wf_updateSelected rt prop val s : wf s -> wf (updateSelected rt prop val s).
Proof.
  intros Hwf. unfold updateSelected.
  destruct (selectedObject s) as [i |]; [| exact Hwf].
  destruct (heap s !! i) as [o |]; [| exact Hwf].
  destruct (type o); [| exact Hwf].
  apply wf_heap_update, Hwf.
Qed.

Lemma wf_flip_selected k s : wf s -> wf (flip_selected k s).
Proof.
  intros Hwf. unfold flip_selected.
  destruct (selectedObject s) as [i |]; [| exact Hwf].
  destruct (heap s !! i) as [o |]; [| exact Hwf].
  apply wf_heap_update, Hwf.
Qed.

Lemma wf_onControl rt c s : wf s -> wf (onControl rt c s).
Proof.
  intros Hwf.
  destruct c; simpl; apply wf_updateSelected;
    try exact Hwf; (apply (wf_core s); [exact Hwf | reflexivity ..]).
Qed.

Lemma wf_step rt s s' : step rt s s' -> wf s -> wf s'.
Proof.
  intros Hstep Hwf. destruct Hstep.
  - eapply wf_mount; eassumption.
  - eapply wf_resizeCanvas; [eassumption |].
    apply (wf_core s); [exact Hwf | reflexivity ..].
  - unfold onChange_posterSize in *.
    destruct (String.eqb key (posterSize s)); [congruence |].
    eapply wf_rerun_effects; [eassumption |].
    apply (wf_core s); [exact Hwf | reflexivity ..].
  - unfold onChange_orientation in *.
    destruct o, (orientation s) eqn:Ho; try congruence;
      (eapply wf_rerun_effects; [eassumption |];
       apply (wf_core s); [exact Hwf | reflexivity ..]).
  - eapply wf_loadContent; [eassumption |].
    apply (wf_core s); [exact Hwf | reflexivity ..].
  - apply wf_imgEl_onload, wf_drop_pending, Hwf.
  - apply wf_drop_pending, Hwf.
  - apply wf_handleSelect; [exact Hwf |].
    destruct H as (c & Hc & Hi). unfold scene. rewrite Hc. exact Hi.
  - apply wf_deselect, Hwf.
  - apply wf_handleAddText, Hwf.
  - apply wf_add_select; assumption.
  - apply wf_handleDelete, Hwf.
  - unfold bringFront. destruct (selectedObject s); [apply wf_bringObjectToFront |]; exact Hwf.
  - unfold sendBack. destruct (selectedObject s); [apply wf_sendObjectToBack |]; exact Hwf.
  - apply wf_flip_selected, Hwf.
  - apply wf_flip_selected, Hwf.
  - apply wf_onControl, Hwf.
Qed.

(** Every state of an editor session is well formed. *)
Lemma reachable_wf rt c box s : reachable rt c box s -> wf s.
Proof.
  induction 1 as [| s s' _ IH Hstep]; [apply wf_initial |].
  eapply wf_step; eassumption.
Qed.

(** ** Attributes *)

Lemma default_to_option v : default VUndef (to_option v) = v.
Proof. destruct v; reflexivity. Qed.

Lemma lookup_set_attr_eq k v a : set_attr k v a !! k = to_option v.
Proof.
  destruct v; simpl; first [apply lookup_delete_eq | apply lookup_insert_eq].
Qed.

Lemma lookup_set_attr_ne k k' v a : k <> k' -> set_attr k v a !! k' = a !! k'.
Proof.
  intros Hne. destruct v; simpl;
    first [apply lookup_delete_ne, Hne | apply lookup_insert_ne, Hne].
Qed.

Lemma get_obj_set_eq k v o : get (obj_set k v o) k = v.
Proof.
  unfold get, obj_set; simpl. rewrite lookup_set_attr_eq. apply default_to_option.
Qed.

Lemma get_obj_set_ne k k' v o : k <> k' -> get (obj_set k v o) k' = get o k'.
Proof.
  intros Hne. unfold get, obj_set; simpl. rewrite lookup_set_attr_ne by exact Hne.
  reflexivity.
Qed.

Lemma type_obj_set k v o : type (obj_set k v o) = type o.
Proof. reflexivity. Qed.

(** Laying the text out keeps the type and every attribute other than
    [width] and [height]. *)
Lemma type_initDimensions rt o : type (initDimensions rt o) = type o.
Proof.
  unfold initDimensions. rewrite type_obj_set.
  destruct (get o "width"); try reflexivity.
  destruct (gt _ _); reflexivity.
Qed.

Lemma get_initDimensions rt o k :
  k <> "width" -> k <> "height" -> get (initDimensions rt o) k = get o k.
Proof.
  intros Hw Hh. unfold initDimensions.
  rewrite get_obj_set_ne by congruence.
  destruct (get o "width"); try reflexivity.
  destruct (gt _ _); [| reflexivity].
  apply get_obj_set_ne. congruence.
Qed.

Lemma type_new_Textbox rt text opts : type (new_Textbox rt text opts) = textbox.
Proof. unfold new_Textbox. apply type_initDimensions. Qed.

Lemma get_new_Textbox rt text opts k :
  k <> "width" -> k <> "height" ->
  get (new_Textbox rt text opts) k
  = default VUndef
      (apply_options opts (set_attr "text" (VStr text) (textbox_defaults rt)) !! k).
Proof.
  intros Hw Hh. unfold new_Textbox. rewrite get_initDimensions by assumption.
  reflexivity.
Qed.

Lemma type_Textbox_set rt k v o : type (Textbox_set rt k v o) = type o.
Proof.
  unfold Textbox_set. destruct (is_layout_property k); [| reflexivity].
  rewrite type_initDimensions. reflexivity.
Qed.

Lemma get_Textbox_set_eq rt k v o :
  k <> "width" -> k <> "height" -> get (Textbox_set rt k v o) k = v.
Proof.
  intros Hw Hh. unfold Textbox_set.
  destruct (is_layout_property k);
    [rewrite get_initDimensions by assumption |]; apply get_obj_set_eq.
Qed.

Lemma get_Textbox_set_ne rt k k' v o :
  k <> k' -> k' <> "width" -> k' <> "height" ->
  get (Textbox_set rt k v o) k' = get o k'.
Proof.
  intros Hne Hw Hh. unfold Textbox_set.
  destruct (is_layout_property k);
    [rewrite get_initDimensions by assumption |]; apply get_obj_set_ne, Hne.
Qed.

(** Reads an attribute through a chain of writes with literal keys. *)
Ltac read_attr :=
  rewrite ?get_new_Textbox by discriminate;
  unfold get, obj_set, new_Image, apply_options; simpl;
  repeat first [ rewrite lookup_insert_ne by discriminate
               | rewrite lookup_delete_ne by discriminate
               | rewrite lookup_set_attr_ne by discriminate ];
  rewrite ?lookup_insert_eq, ?lookup_delete_eq, ?lookup_set_attr_eq;
  try apply default_to_option; try reflexivity.

Lemma gt_true (a b : Q) : gt a b = true <-> b < a.
Proof.
  unfold gt. rewrite negb_true_iff, <- not_true_iff_false, Qle_bool_iff.
  split; [apply Qnot_le_lt | apply Qlt_not_le].
Qed.

(** ** Base image *)

Lemma image_scale_wider (iw ih width height : Q) :
  width / height < iw / ih -> image_scale iw ih width height = width / iw.
Proof.
  intros H. unfold image_scale. apply gt_true in H. rewrite H. reflexivity.
Qed.

Lemma cross_mult (a b c d : Q) : 0 < b -> 0 < d -> a / b < c / d -> a * d < c * b.
Proof.
  intros Hb Hd H.
  assert (0 < b * d) as Hbd by (apply Qmult_lt_0_compat; assumption).
  apply (Qmult_lt_r _ _ (b * d) Hbd) in H.
  assert (a / b * (b * d) == a * d) as E1 by (field; lra).
  assert (c / d * (b * d) == c * b) as E2 by (field; lra).
  rewrite E1, E2 in H. exact H.
Qed.

Lemma scene_imgEl_onload rt p iw ih s :
  canvas s <> None -> wf s ->
  scene (imgEl_onload rt p iw ih s) = next s :: scene s.
Proof.
  intros Hc Hwf. pose proof (wf_fresh_next s Hwf) as Hnew.
  destruct s as [cv hp nx sel zm fm ps ori ct box pd].
  unfold imgEl_onload, canvas_sendObjectToBack, canvas_add, with_objects, alloc, scene in *.
  simpl in *. destruct cv as [c |]; [| contradiction]. simpl.
  assert (mem_obj nx (objects c ++ [nx]) = true) as ->.
  { apply mem_obj_elem, elem_of_app. right. apply list_elem_of_singleton. reflexivity. }
  rewrite remove_obj_last by exact Hnew. reflexivity.
Qed.

(** C1, as the code has it: for a base image strictly wider than the page,
    [imgEl.onload] scales both axes by [pageWidth/imageWidth]
    (width-constrained), which is the smaller of the two factors
    [pageWidth/imageWidth] and [pageHeight/imageHeight]: the factor of a
    contain fit, not of a cover fit.  The image is centred on the page with
    a centre origin and put at the back of the z-order. *)
Theorem imgEl_onload_wider (rt : Runtime) (p : Pending) (iw ih : Q) (s : State) :
  canvas s <> None -> wf s ->
  0 < iw -> 0 < ih -> 0 < pwidth p -> 0 < pheight p ->
  pwidth p / pheight p < iw / ih ->
  exists o,
    heap (imgEl_onload rt p iw ih s) !! next s = Some o /\
    type o = image /\
    get o "scaleX" = VNum (pwidth p / iw) /\
    get o "scaleY" = VNum (pwidth p / iw) /\
    get o "originX" = VStr "center" /\
    get o "originY" = VStr "center" /\
    get o "left" = VNum (pwidth p / 2) /\
    get o "top" = VNum (pheight p / 2) /\
    scene (imgEl_onload rt p iw ih s) = next s :: scene s /\
    pwidth p / iw <= pheight p / ih.
Proof.
  intros Hc Hwf Hiw Hih Hw Hh Hwide.
  eexists. split.
  { destruct s as [cv hp nx sel zm fm ps ori ct box pd].
    unfold imgEl_onload, canvas_sendObjectToBack, canvas_add, with_objects, alloc.
    simpl in *. destruct cv; [| contradiction]. simpl. apply lookup_insert_eq. }
  rewrite (image_scale_wider _ _ _ _ Hwide).
  split; [reflexivity |].
  do 6 (split; [read_attr |]).
  split; [apply scene_imgEl_onload; assumption |].
  pose proof (cross_mult _ _ _ _ Hh Hih Hwide) as Hx.
  apply Qle_shift_div_l; [exact Hih |].
  assert (pwidth p / iw * ih == pwidth p * ih / iw) as -> by (field; lra).
  apply Qle_shift_div_r; [exact Hiw | lra].
Qed.

(** *** A concrete session with a base image *)

Lemma mounted_image_reachable :
  reachable fabric_rt content_image sample_box mounted_image.
Proof.
  eapply reach_step; [apply reach_initial |].
  apply step_mount; [reflexivity | vm_compute; reflexivity].
Qed.

Lemma imgEl_onload_wider_witness :
  794 / 1123 < 2000 / 1000 /\
  exists o,
    heap (imgEl_onload fabric_rt a4_decode 2000 1000 mounted_image) !! next mounted_image
      = Some o /\
    type o = image /\
    get o "scaleX" = VNum (794 / 2000) /\
    get o "scaleY" = VNum (794 / 2000) /\
    get o "originX" = VStr "center" /\
    get o "originY" = VStr "center" /\
    get o "left" = VNum (794 / 2) /\
    get o "top" = VNum (1123 / 2) /\
    scene (imgEl_onload fabric_rt a4_decode 2000 1000 mounted_image)
      = next mounted_image :: scene mounted_image /\
    794 / 2000 <= 1123 / 1000.
Proof.
  split; [reflexivity |].
  apply (imgEl_onload_wider fabric_rt a4_decode 2000 1000 mounted_image).
  - vm_compute. discriminate.
  - exact (reachable_wf _ _ _ _ mounted_image_reachable).
  - reflexivity.
  - reflexivity.
  - reflexivity.
  - reflexivity.
  - reflexivity.
Defined.

(** C1, counterexample: a 2000 x 1000 image (ratio 2) on the A4 portrait
    page (ratio 794/1123) is wider than the page, yet it is scaled by
    794/2000 = pageWidth/imageWidth and not by 1123/1000 =
    pageHeight/imageHeight; its scaled height 397 leaves the page of height
    1123 uncovered. *)
Lemma imgEl_onload_wider_not_cover :
  pending mounted_image !! 0%nat = Some a4_decode /\
  794 / 1123 < 2000 / 1000 /\
  type (object_at (imgEl_onload fabric_rt a4_decode 2000 1000 mounted_image) 3) = image /\
  get (object_at (imgEl_onload fabric_rt a4_decode 2000 1000 mounted_image) 3) "scaleX"
    = VNum (794 / 2000) /\
  get (object_at (imgEl_onload fabric_rt a4_decode 2000 1000 mounted_image) 3) "scaleY"
    = VNum (794 / 2000) /\
  ~ 794 / 2000 == 1123 / 1000 /\
  1000 * (794 / 2000) < 1123.
Proof.
  split; [vm_compute; reflexivity |].
  split; [reflexivity |].
  do 3 (split; [vm_compute; reflexivity |]).
  split; [intros H; discriminate H | reflexivity].
Qed.

(** ** Content import *)

Lemma loadContent_layout rt s d ph pt pc :
  canvas s <> None ->
  getCanvasDimensions (posterSize s) (orientation s) = Some d ->
  layout_of (content s) !! "headline" = Some ph ->
  layout_of (content s) !! "tagline" = Some pt ->
  layout_of (content s) !! "cta_text" = Some pc ->
  exists s',
    loadContent rt s = Some s' /\
    scene s' = [next s; S (next s); S (S (next s))] /\
    placed_at d s' (next s) ph /\
    placed_at d s' (S (next s)) pt /\
    placed_at d s' (S (S (next s))) pc.
Proof.
  intros Hc Hd Hh Ht Hcta.
  destruct s as [cv hp nx sel zm fm ps ori ct box pd]; simpl in *.
  destruct cv as [c |]; [| contradiction].
  unfold loadContent, layout_of in *; simpl. rewrite Hd; simpl.
  rewrite Hh, Ht, Hcta.
  destruct (head (images_b64 ct)) as [img |]; [destruct (negb (String.eqb img EmptyString)) |];
    simpl.
  all: eexists; split; [reflexivity |].
  all: split; [reflexivity |].
  all: unfold placed_at; simpl.
  all: split; [| split];
    (eexists; split;
     [ rewrite ?lookup_insert_ne by lia; apply lookup_insert_eq
     | split; [apply type_new_Textbox | split; read_attr] ]).
Qed.

(** With hints for all three captions each TextBox is placed at
    [(hint.x/100)*pageWidth, (hint.y/100)*pageHeight]. *)
Lemma loadContent_hinted rt s d l ph pt pc :
  canvas s <> None ->
  getCanvasDimensions (posterSize s) (orientation s) = Some d ->
  layout_json (content s) = Some l ->
  l !! "headline" = Some ph -> l !! "tagline" = Some pt -> l !! "cta_text" = Some pc ->
  exists s',
    loadContent rt s = Some s' /\
    scene s' = [next s; S (next s); S (S (next s))] /\
    placed_at d s' (next s) ph /\
    placed_at d s' (S (next s)) pt /\
    placed_at d s' (S (S (next s))) pc.
Proof.
  intros Hc Hd Hl Hh Ht Hcta.
  apply loadContent_layout; unfold layout_of; rewrite ?Hl; assumption.
Qed.

(** Without [layout_json] the captions go to (10,15), (10,25), (10,35)
    percent of the page. *)
Lemma loadContent_default rt s d :
  canvas s <> None ->
  getCanvasDimensions (posterSize s) (orientation s) = Some d ->
  layout_json (content s) = None ->
  exists s',
    loadContent rt s = Some s' /\
    scene s' = [next s; S (next s); S (S (next s))] /\
    placed_at d s' (next s) {| x := 10; y := 15 |} /\
    placed_at d s' (S (next s)) {| x := 10; y := 25 |} /\
    placed_at d s' (S (S (next s))) {| x := 10; y := 35 |}.
Proof.
  intros Hc Hd Hl.
  apply loadContent_layout; unfold layout_of; rewrite ?Hl; first [assumption | reflexivity].
Qed.

(** A [layout_json] that lacks the entry of one caption makes the content
    effect throw: the defaults are not consulted. *)
Lemma loadContent_missing_hint rt s l :
  canvas s <> None ->
  layout_json (content s) = Some l ->
  l !! "headline" = None \/ l !! "tagline" = None \/ l !! "cta_text" = None ->
  loadContent rt s = None.
Proof.
  intros Hc Hl Hmiss. unfold loadContent.
  destruct (canvas s); [| contradiction].
  destruct (getCanvasDimensions _ _) as [d |]; simpl; [| reflexivity].
  rewrite Hl; simpl.
  destruct (l !! "headline") as [ph |]; simpl; [| reflexivity].
  destruct (l !! "tagline") as [pt |]; simpl; [| reflexivity].
  destruct (l !! "cta_text") as [pc |]; simpl; [| reflexivity].
  destruct Hmiss as [H | [H | H]]; discriminate H.
Qed.

Lemma mounted_plain_reachable :
  reachable fabric_rt content_plain sample_box mounted_plain.
Proof.
  eapply reach_step; [apply reach_initial |].
  apply step_mount; [reflexivity | vm_compute; reflexivity].
Qed.

(** C2, the failing input: [content_partial] carries a [layout_json] with a
    hint for the headline only.  Without layout hints the import places the
    tagline at the default (10,25) percent; with the partial layout the
    import throws instead of placing the tagline and the call-to-action at
    their defaults, both on mount and when the content arrives later. *)
Theorem loadContent_partial_layout_throws :
  layout_json content_partial = Some (<["headline" := {| x := 10; y := 15 |}]> ∅) /\
  mount fabric_rt (initial content_plain sample_box) = Some mounted_plain /\
  placed_at {| w := 794; h := 1123 |} mounted_plain 1%nat {| x := 10; y := 25 |} /\
  mount fabric_rt (initial content_partial sample_box) = None /\
  onContent fabric_rt content_partial mounted_plain = None.
Proof.
  split; [reflexivity |].
  split; [vm_compute; reflexivity |].
  split; [apply exists_Some; vm_compute; repeat split |].
  split; vm_compute; reflexivity.
Qed.

(** ** Selection and the style form *)

Lemma synced_none s : selectedObject s = None -> synced s.
Proof. intros H i tb Hi. congruence. Qed.

Lemma synced_core s s' :
  synced s -> form s' = form s -> heap s' = heap s ->
  selectedObject s' = selectedObject s -> synced s'.
Proof.
  intros H Hf Hh Hs i tb. rewrite Hf, Hh, Hs. apply H.
Qed.

Lemma handleSelect_mirrors i tb s :
  heap s !! i = Some tb -> type tb = textbox ->
  mirrors (form (handleSelect [i] s)) tb.
Proof.
  intros Hi Ht. unfold handleSelect; simpl. rewrite Hi, Ht.
  repeat split.
Qed.

Lemma synced_handleSelect i s : synced (handleSelect [i] s).
Proof.
  intros j tb Hj Hh Ht.
  destruct (handleSelect_core i s) as (_ & Hheap & _ & _ & Hsel).
  rewrite Hsel in Hj. injection Hj as <-. rewrite Hheap in Hh.
  apply handleSelect_mirrors; assumption.
Qed.

Lemma resizeCanvas_core s s' :
  resizeCanvas s = Some s' ->
  form s' = form s /\ heap s' = heap s /\ selectedObject s' = selectedObject s.
Proof.
  unfold resizeCanvas.
  destruct (getCanvasDimensions _ _) as [d |]; simpl; [| discriminate].
  destruct (container s) as [[cw ch] |]; [| intros [= <-]; auto].
  destruct (canvas s) as [c |]; intros [= <-]; auto.
Qed.

Lemma synced_resize_effect s s' : resize_effect s = Some s' -> synced s -> synced s'.
Proof.
  unfold resize_effect. intros H Hs.
  destruct (canvas s); [destruct (container s) |]; try (injection H as <-; exact Hs).
  destruct (resizeCanvas_core _ _ H) as (Hf & Hh & Hsel).
  eapply synced_core; eassumption.
Qed.

Lemma addText_selectedObject rt d text pos extra s s' :
  addText rt d text pos extra s = Some s' -> selectedObject s' = selectedObject s.
Proof.
  unfold addText. destruct pos; [| discriminate]. intros [= <-].
  unfold canvas_add, with_objects, alloc. simpl. destruct (canvas s); reflexivity.
Qed.

Lemma loadContent_selectedObject rt s s' :
  loadContent rt s = Some s' -> s' = s \/ selectedObject s' = None.
Proof.
  unfold loadContent.
  destruct (canvas s) as [c |]; [| intros [= <-]; auto].
  destruct (getCanvasDimensions _ _) as [d |]; simpl; [| discriminate].
  intros H. right.
  destruct (addText rt d (headline _) _ _ _) as [s3 |] eqn:H3; simpl in H; [| discriminate].
  destruct (addText rt d (tagline _) _ _ _) as [s4 |] eqn:H4; simpl in H; [| discriminate].
  rewrite (addText_selectedObject _ _ _ _ _ _ _ H).
  rewrite (addText_selectedObject _ _ _ _ _ _ _ H4).
  rewrite (addText_selectedObject _ _ _ _ _ _ _ H3).
  destruct (head (images_b64 (content s))) as [img |];
    [destruct (negb (String.eqb img EmptyString)) |]; reflexivity.
Qed.

Lemma synced_loadContent rt s0 s s' :
  loadContent rt s = Some s' -> synced s0 ->
  form s = form s0 -> heap s = heap s0 -> selectedObject s = selectedObject s0 ->
  synced s'.
Proof.
  intros H Hs Hf Hh Hsel.
  destruct (loadContent_selectedObject _ _ _ H) as [-> | Hn].
  - eapply synced_core; eassumption.
  - apply synced_none, Hn.
Qed.

Lemma synced_rerun_effects rt s0 s s' :
  rerun_effects rt s = Some s' -> synced s0 ->
  form s = form s0 -> heap s = heap s0 -> selectedObject s = selectedObject s0 ->
  synced s'.
Proof.
  unfold rerun_effects. intros H Hs Hf Hh Hsel.
  destruct (getCanvasDimensions _ _) as [d |]; simpl in H; [| discriminate].
  destruct (resize_effect s) as [s1 |] eqn:H1; simpl in H; [| discriminate].
  eapply synced_loadContent; [exact H | | reflexivity ..].
  eapply synced_resize_effect; [exact H1 |].
  eapply synced_core; eassumption.
Qed.

(** A write to another attribute, or to an object that is not the selected
    one, keeps the mirror. *)
Lemma mirrors_other k v f tb :
  k <> "fill" -> k <> "fontSize" -> k <> "fontFamily" -> k <> "textAlign" ->
  k <> "fontWeight" -> k <> "fontStyle" -> k <> "underline" ->
  mirrors f tb -> mirrors f (obj_set k v tb).
Proof.
  intros H1 H2 H3 H4 H5 H6 H7 (M1 & M2 & M3 & M4 & M5 & M6 & M7).
  unfold mirrors. rewrite !get_obj_set_ne by assumption. repeat split; assumption.
Qed.

Lemma synced_fresh_object o s :
  wf s -> synced s -> synced (canvas_add (next s) (alloc o s)).
Proof.
  intros Hwf Hs i tb Hi Hh Ht.
  assert (selectedObject (canvas_add (next s) (alloc o s)) = selectedObject s
          /\ heap (canvas_add (next s) (alloc o s)) = <[next s := o]> (heap s)
          /\ form (canvas_add (next s) (alloc o s)) = form s) as (E1 & E2 & E3).
  { unfold canvas_add, with_objects, alloc; simpl. destruct (canvas s); auto. }
  rewrite E1 in Hi. rewrite E2 in Hh. rewrite E3.
  pose proof (wf_fresh s Hwf i (wf_selected s Hwf i Hi)) as Hlt.
  rewrite lookup_insert_ne in Hh by lia.
  eapply Hs; eassumption.
Qed.

Lemma with_objects_core f s :
  form (with_objects f s) = form s /\
  heap (with_objects f s) = heap s /\
  selectedObject (with_objects f s) = selectedObject s.
Proof.
  unfold with_objects. destruct (canvas s); auto.
Qed.

Lemma synced_with_objects f s : synced s -> synced (with_objects f s).
Proof.
  intros Hs. destruct (with_objects_core f s) as (Hf & Hh & Hsel).
  eapply synced_core; eassumption.
Qed.

Lemma updateSelected_textbox rt prop val s i o :
  selectedObject s = Some i -> heap s !! i = Some o -> type o = textbox ->
  updateSelected rt prop val s
  = with_heap (<[i := Textbox_set rt prop val o]> (heap s)) s.
Proof.
  intros Hsel Hh Ht. unfold updateSelected. rewrite Hsel, Hh, Ht. reflexivity.
Qed.

Lemma js_or_truthy a b : truthy a = true -> js_or a b = a.
Proof. unfold js_or. intros ->. reflexivity. Qed.

Lemma truthy_in_range (v : Q) : 8 <= v -> truthy (VNum v) = true.
Proof.
  intros Hv. simpl. apply negb_true_iff, not_true_iff_false.
  intros H. apply Qeq_bool_iff in H. lra.
Qed.

Lemma synced_flip_selected k s :
  k = "flipX" \/ k = "flipY" -> synced s -> synced (flip_selected k s).
Proof.
  intros Hk Hs. unfold flip_selected.
  destruct (selectedObject s) as [i |] eqn:Hsel; [| exact Hs].
  destruct (heap s !! i) as [o |] eqn:Hh; [| exact Hs].
  intros j tb Hj Hl Ht; simpl in *. rewrite Hsel in Hj. injection Hj as <-.
  rewrite lookup_insert_eq in Hl. injection Hl as <-.
  apply mirrors_other; try (destruct Hk as [-> | ->]; discriminate).
  apply (Hs i o Hsel Hh Ht).
Qed.

Lemma synced_onControl rt c s :
  selected_textbox s -> control_ok c -> synced s -> synced (onControl rt c s).
Proof.
  intros (i & o & Hsel & Hh & Ht) Hok Hs.
  pose proof (Hs i o Hsel Hh Ht) as (M1 & M2 & M3 & M4 & M5 & M6 & M7).
  destruct c; simpl;
    (erewrite updateSelected_textbox; [| simpl; eassumption ..]);
    intros j tb Hj Hl Htb; simpl in *;
    rewrite Hsel in Hj; injection Hj as <-;
    rewrite lookup_insert_eq in Hl; injection Hl as <-;
    unfold mirrors; simpl;
    rewrite ?get_Textbox_set_eq, ?get_Textbox_set_ne by discriminate;
    repeat split; try assumption.
  - destruct (str_is _ _); reflexivity.
  - destruct (str_is _ _); reflexivity.
  - destruct (truthy (underline (form s))); reflexivity.
  - symmetry. apply js_or_truthy, truthy_in_range. tauto.
  - destruct Hok as [-> | [-> | ->]]; reflexivity.
Qed.

Lemma synced_step rt s s' : step rt s s' -> wf s -> synced s -> synced s'.
Proof.
  intros Hstep Hwf Hs. destruct Hstep.
  - unfold mount in *.
    destruct (getCanvasDimensions _ _) as [d |]; simpl in *; [| discriminate].
    destruct (resize_effect _) as [s1 |] eqn:H1; simpl in *; [| discriminate].
    eapply synced_loadContent; [eassumption | | reflexivity ..].
    eapply synced_resize_effect; [exact H1 |].
    eapply synced_core; [exact Hs | reflexivity ..].
  - destruct (resizeCanvas_core _ _ H3) as (Hf & Hh & Hsel).
    eapply synced_core; eassumption.
  - unfold onChange_posterSize in *.
    destruct (String.eqb key (posterSize s));
      [match goal with H : Some _ = Some _ |- _ => injection H as <- end; exact Hs |].
    eapply synced_rerun_effects; [eassumption | exact Hs | reflexivity ..].
  - unfold onChange_orientation in *.
    destruct o, (orientation s);
      first [ match goal with H : Some _ = Some _ |- _ => injection H as <- end; exact Hs
            | eapply synced_rerun_effects; [eassumption | exact Hs | reflexivity ..] ].
  - eapply synced_loadContent; [eassumption | exact Hs | reflexivity ..].
  - apply synced_with_objects, synced_fresh_object.
    + apply wf_drop_pending, Hwf.
    + eapply synced_core; [exact Hs | reflexivity ..].
  - eapply synced_core; [exact Hs | reflexivity ..].
  - apply synced_handleSelect.
  - apply synced_none. reflexivity.
  - unfold handleAddText. destruct (canvas s); [| exact Hs]. apply synced_handleSelect.
  - apply synced_handleSelect.
  - unfold handleDelete.
    destruct (canvas s); [| exact Hs].
    destruct (selectedObject s); [| exact Hs].
    apply synced_none. reflexivity.
  - unfold bringFront. destruct (selectedObject s); [apply synced_with_objects |]; exact Hs.
  - unfold sendBack. destruct (selectedObject s); [apply synced_with_objects |]; exact Hs.
  - apply synced_flip_selected; auto.
  - apply synced_flip_selected; auto.
  - apply synced_onControl; assumption.
Qed.

Lemma reachable_synced rt c box s : reachable rt c box s -> synced s.
Proof.
  induction 1 as [| s s' Hr IH Hstep]; [apply synced_none; reflexivity |].
  eapply synced_step; [exact Hstep | | exact IH].
  eapply reachable_wf; exact Hr.
Qed.

Lemma onControl_pushed rt ctl s i tb :
  selectedObject s = Some i -> heap s !! i = Some tb -> type tb = textbox ->
  exists tb',
    heap (onControl rt ctl s) !! i = Some tb' /\
    type tb' = textbox /\
    selectedObject (onControl rt ctl s) = Some i /\
    pushed rt ctl (form (onControl rt ctl s)) tb'.
Proof.
  intros Hsel Hh Ht.
  destruct ctl; simpl;
    (erewrite updateSelected_textbox; [| simpl; eassumption ..]);
    simpl; rewrite lookup_insert_eq;
    (eexists; split; [reflexivity |]);
    (split; [rewrite type_Textbox_set; exact Ht |]); (split; [exact Hsel |]);
    apply get_Textbox_set_eq; discriminate.
Qed.

Lemma is_selected_textbox_true s : is_selected_textbox s = true -> selected_textbox s.
Proof.
  unfold is_selected_textbox.
  destruct (selectedObject s) as [i |] eqn:Hsel; [| discriminate].
  destruct (heap s !! i) as [[[] a] |] eqn:Hh; try discriminate.
  intros _. exists i. eexists. split; [exact Hsel |]. split; [exact Hh | reflexivity].
Qed.

Lemma is_on_canvas_true i s : is_on_canvas i s = true -> on_canvas i s.
Proof.
  unfold is_on_canvas, scene, on_canvas. intros H.
  destruct (canvas s) as [c |]; [| discriminate].
  exists c. split; [reflexivity | apply mem_obj_elem, H].
Qed.

(** *** Concrete sessions on [content_plain] *)

Lemma added_text_reachable : reachable fabric_rt content_plain sample_box added_text.
Proof.
  eapply reach_step; [apply mounted_plain_reachable | apply step_add_text].
Qed.

Lemma reselected_reachable : reachable fabric_rt content_plain sample_box reselected.
Proof.
  unfold reselected.
  eapply reach_step; [| apply step_click_object].
  - eapply reach_step; [| apply step_control].
    + eapply reach_step; [| apply step_add_text].
      eapply reach_step; [apply added_text_reachable | apply step_control].
      * apply is_selected_textbox_true. vm_compute. reflexivity.
      * simpl. split; intros H; discriminate H.
    + apply is_selected_textbox_true. vm_compute. reflexivity.
    + simpl. split; intros H; discriminate H.
  - apply is_on_canvas_true. vm_compute. reflexivity.
  - vm_compute. discriminate.
Qed.

(** C3, as the code has it: on every selection of a TextBox [handleSelect]
    copies font color, size, family, alignment, weight, style and underline
    into the form (a falsy size, family, alignment, weight, style or
    underline is replaced by 24, Helvetica, left, normal, normal, false),
    and every form edit is pushed onto the selected TextBox at once; so
    throughout the Selected state these seven form fields agree with the
    object. *)
Theorem selection_form_sync (rt : Runtime) (c : Content) (box : option (Q * Q))
    (s : State) (i : nat) (tb : Obj) :
  reachable rt c box s ->
  selectedObject s = Some i -> heap s !! i = Some tb -> type tb = textbox ->
  mirrors (form s) tb /\
  (forall j tbj, heap s !! j = Some tbj -> type tbj = textbox ->
     selectedObject (handleSelect [j] s) = Some j /\
     mirrors (form (handleSelect [j] s)) tbj) /\
  (forall ctl, control_ok ctl ->
     exists tb',
       heap (onControl rt ctl s) !! i = Some tb' /\
       type tb' = textbox /\
       selectedObject (onControl rt ctl s) = Some i /\
       pushed rt ctl (form (onControl rt ctl s)) tb' /\
       mirrors (form (onControl rt ctl s)) tb').
Proof.
  intros Hr Hsel Hh Ht.
  pose proof (reachable_synced _ _ _ _ Hr) as Hs.
  split; [exact (Hs i tb Hsel Hh Ht) |].
  split.
  - intros j tbj Hj Htj. split.
    + apply (handleSelect_core j s).
    + apply handleSelect_mirrors; assumption.
  - intros ctl Hok.
    destruct (onControl_pushed rt ctl s i tb Hsel Hh Ht) as (tb' & H1 & H2 & H3 & H4).
    exists tb'. repeat (split; [assumption |]).
    assert (synced (onControl rt ctl s)) as Hs'.
    { apply synced_onControl; [| exact Hok | exact Hs].
      exists i, tb. auto. }
    exact (Hs' i tb' H3 H1 H2).
Qed.

Lemma selection_form_sync_witness :
  heap added_text !! 3%nat = Some (object_at added_text 3) /\
  mirrors (form added_text) (object_at added_text 3) /\
  (forall ctl, control_ok ctl ->
     exists tb',
       heap (onControl fabric_rt ctl added_text) !! 3%nat = Some tb' /\
       type tb' = textbox /\
       selectedObject (onControl fabric_rt ctl added_text) = Some 3%nat /\
       pushed fabric_rt ctl (form (onControl fabric_rt ctl added_text)) tb' /\
       mirrors (form (onControl fabric_rt ctl added_text)) tb').
Proof.
  assert (heap added_text !! 3%nat = Some (object_at added_text 3)) as Hh
      by (vm_compute; reflexivity).
  split; [exact Hh |].
  destruct (selection_form_sync fabric_rt content_plain sample_box added_text 3%nat
              (object_at added_text 3) added_text_reachable) as (H1 & _ & H3);
    [vm_compute; reflexivity | exact Hh | vm_compute; reflexivity |].
  split; assumption.
Defined.

(** C3, counterexample: in the reachable state [reselected] TextBox 3 is
    selected and has stroke width 3, while the form's stroke width is still
    the 1 last set for TextBox 4: [handleSelect] does not copy the stroke
    (nor the shadow and background) fields. *)
Lemma stroke_width_diverges :
  reachable fabric_rt content_plain sample_box reselected /\
  selectedObject reselected = Some 3%nat /\
  heap reselected !! 3%nat = Some (object_at reselected 3) /\
  type (object_at reselected 3) = textbox /\
  get (object_at reselected 3) "strokeWidth" = VNum 3 /\
  strokeWidth (form reselected) = 1 /\
  get (object_at reselected 3) "strokeWidth" <> VNum (strokeWidth (form reselected)).
Proof.
  split; [apply reselected_reachable |].
  repeat (split; [vm_compute; reflexivity |]).
  vm_compute. discriminate.
Qed.

(** ** Deleting *)

Lemma handleDelete_none s : selectedObject s = None -> handleDelete s = s.
Proof.
  intros H. unfold handleDelete. rewrite H. destruct (canvas s); reflexivity.
Qed.

Lemma handleDelete_selected s i :
  canvas s <> None -> selectedObject s = Some i ->
  scene (handleDelete s) = remove_obj i (scene s) /\
  selectedObject (handleDelete s) = None /\
  heap (handleDelete s) = heap s /\
  form (handleDelete s) = form s.
Proof.
  intros Hc Hsel.
  destruct s as [cv hp nx sel zm fm ps ori ct box pd]; simpl in *. subst sel.
  destruct cv as [c |]; [| contradiction].
  unfold handleDelete, canvas_remove, handleClear, with_objects, scene; simpl.
  rewrite Nat.eqb_refl. simpl. auto.
Qed.

Lemma handleAddText_effect rt s c :
  canvas s = Some c ->
  scene (handleAddText rt s) = objects c ++ [next s] /\
  selectedObject (handleAddText rt s) = Some (next s) /\
  canvas (handleAddText rt s) <> None.
Proof.
  intros Hc. unfold handleAddText, canvas_setActiveObject. rewrite Hc.
  destruct (handleSelect_core (next s)
              (canvas_add (next s)
                 (alloc (new_Textbox rt "New text"
                    [ ("left", VNum 100); ("top", VNum 100); ("width", VNum 300);
                      ("fontSize", fontSize (form s)); ("fontFamily", fontFamily (form s));
                      ("fill", fontColor (form s)); ("fontWeight", fontWeight (form s));
                      ("fontStyle", fontStyle (form s)); ("underline", underline (form s));
                      ("backgroundColor", VStr (rgba rt (bgColor (form s)) (bgOpacity (form s))));
                      ("stroke", VStr (strokeColor (form s)));
                      ("strokeWidth", VNum (strokeWidth (form s)));
                      ("shadow", shadow_of (shadowColor (form s)) (shadowBlur (form s))) ]) s)))
    as (Hcv & _ & _ & _ & Hsel).
  unfold scene. rewrite Hcv, Hsel.
  unfold canvas_add, with_objects, alloc; simpl. rewrite Hc; simpl.
  repeat split. discriminate.
Qed.

(** C7: "Delete" acts on the selected object.  With nothing selected it
    leaves the whole state unchanged; otherwise the selected object is on
    the canvas, exactly it is removed from the Scene (the objects before and
    after it keep their order) and the selection is cleared.  Hence "Add
    Text" followed by "Delete" restores the Scene, so its length is that
    before "Add Text", and leaves nothing selected. *)
Theorem handleDelete_spec (rt : Runtime) (c : Content) (box : option (Q * Q)) (s : State) :
  reachable rt c box s ->
  (selectedObject s = None -> handleDelete s = s) /\
  (forall i, selectedObject s = Some i ->
     exists l1 l2,
       scene s = l1 ++ i :: l2 /\
       scene (handleDelete s) = l1 ++ l2 /\
       (i ∉ l1 ++ l2) /\
       selectedObject (handleDelete s) = None /\
       heap (handleDelete s) = heap s) /\
  scene (handleDelete (handleAddText rt s)) = scene s /\
  length (scene (handleDelete (handleAddText rt s))) = length (scene s) /\
  selectedObject (handleDelete (handleAddText rt s)) = None.
Proof.
  intros Hr. pose proof (reachable_wf _ _ _ _ Hr) as Hwf.
  split; [apply handleDelete_none |].
  split.
  - intros i Hsel.
    pose proof (wf_selected s Hwf i Hsel) as Hin.
    assert (canvas s <> None) as Hc.
    { unfold scene in Hin. destruct (canvas s); [discriminate | inversion Hin]. }
    destruct (handleDelete_selected s i Hc Hsel) as (Hs & Hn & Hh & _).
    destruct (remove_obj_split i (scene s) Hin (wf_nodup s Hwf)) as (l1 & l2 & E1 & E2 & E3).
    exists l1, l2. rewrite Hs. auto.
  - assert (scene (handleDelete (handleAddText rt s)) = scene s
            /\ selectedObject (handleDelete (handleAddText rt s)) = None) as [Hs Hn].
    { destruct (canvas s) as [cv |] eqn:Hc.
      - destruct (handleAddText_effect rt s cv Hc) as (Ha & Hsel & Hcv).
        destruct (handleDelete_selected _ _ Hcv Hsel) as (Hd & Hnone & _).
        rewrite Hd, Ha. split; [| exact Hnone].
        rewrite remove_obj_last.
        + unfold scene. rewrite Hc. reflexivity.
        + pose proof (wf_fresh_next s Hwf) as Hf. unfold scene in Hf. rewrite Hc in Hf. exact Hf.
      - assert (handleAddText rt s = s) as -> by (unfold handleAddText; rewrite Hc; reflexivity).
        assert (selectedObject s = None) as Hnone.
        { destruct (selectedObject s) as [i |] eqn:Hsel; [| reflexivity].
          pose proof (wf_selected s Hwf i Hsel) as Hin.
          unfold scene in Hin. rewrite Hc in Hin. inversion Hin. }
        rewrite (handleDelete_none s Hnone). auto. }
    rewrite Hs. auto.
Qed.

Lemma handleDelete_spec_witness :
  (selectedObject added_text = None -> handleDelete added_text = added_text) /\
  (forall i, selectedObject added_text = Some i ->
     exists l1 l2,
       scene added_text = l1 ++ i :: l2 /\
       scene (handleDelete added_text) = l1 ++ l2 /\
       (i ∉ l1 ++ l2) /\
       selectedObject (handleDelete added_text) = None /\
       heap (handleDelete added_text) = heap added_text) /\
  scene (handleDelete (handleAddText fabric_rt added_text)) = scene added_text /\
  length (scene (handleDelete (handleAddText fabric_rt added_text)))
    = length (scene added_text) /\
  selectedObject (handleDelete (handleAddText fabric_rt added_text)) = None.
Proof.
  exact (handleDelete_spec fabric_rt content_plain sample_box added_text added_text_reachable).
Defined.

(** ** Styling the selection *)







(** ** Flipping *)

Lemma toggle_toggle k b o :
  get o k = VBool b -> toggle k (toggle k o) = o.
Proof.
  intros Hb. unfold toggle. rewrite get_obj_set_eq, Hb. simpl.
  rewrite negb_involutive. destruct o as [t a]. unfold obj_set, get in *; simpl in *.
  f_equal. rewrite insert_insert_eq. apply insert_id.
  destruct (a !! k) as [v |]; simpl in Hb; congruence.
Qed.

Lemma flip_selected_spec k b s i o :
  selectedObject s = Some i -> heap s !! i = Some o -> get o k = VBool b ->
  (exists o',
     heap (flip_selected k s) !! i = Some o' /\
     type o' = type o /\
     get o' k = VBool (negb b) /\
     (forall k', k' <> k -> get o' k' = get o k')) /\
  (forall j, j <> i -> heap (flip_selected k s) !! j = heap s !! j) /\
  scene (flip_selected k s) = scene s /\
  selectedObject (flip_selected k s) = selectedObject s /\
  flip_selected k (flip_selected k s) = s.
Proof.
  intros Hsel Hh Hb.
  assert (flip_selected k s = with_heap (<[i := toggle k o]> (heap s)) s) as E.
  { unfold flip_selected. rewrite Hsel, Hh. reflexivity. }
  split; [| split; [| split; [| split]]].
  - exists (toggle k o). rewrite E; simpl.
    split; [apply lookup_insert_eq |].
    split; [reflexivity |].
    unfold toggle. rewrite Hb. simpl.
    split; [apply get_obj_set_eq |].
    intros k' Hk. apply get_obj_set_ne. congruence.
  - intros j Hj. rewrite E; simpl. apply lookup_insert_ne. congruence.
  - rewrite E. reflexivity.
  - rewrite E. reflexivity.
  - rewrite E. unfold flip_selected; simpl. rewrite Hsel, lookup_insert_eq.
    rewrite (toggle_toggle k b o Hb), insert_insert_eq, (insert_id _ _ _ Hh).
    destruct s; reflexivity.
Qed.

(** C9: on the selected object, whose flags are booleans, [flipHorizontal]
    negates [flipX] and [flipVertical] negates [flipY], leaving every other
    attribute, every other object, the Scene and the selection unchanged;
    applying the same flip twice gives back the original state. *)
Theorem flip_twice (s : State) (i : nat) (o : Obj) (fx fy : bool) :
  selectedObject s = Some i -> heap s !! i = Some o ->
  get o "flipX" = VBool fx -> get o "flipY" = VBool fy ->
  (exists o',
     heap (flipHorizontal s) !! i = Some o' /\
     type o' = type o /\
     get o' "flipX" = VBool (negb fx) /\
     (forall k, k <> "flipX" -> get o' k = get o k)) /\
  (exists o',
     heap (flipVertical s) !! i = Some o' /\
     type o' = type o /\
     get o' "flipY" = VBool (negb fy) /\
     (forall k, k <> "flipY" -> get o' k = get o k)) /\
  (forall j, j <> i ->
     heap (flipHorizontal s) !! j = heap s !! j /\ heap (flipVertical s) !! j = heap s !! j) /\
  scene (flipHorizontal s) = scene s /\
  scene (flipVertical s) = scene s /\
  selectedObject (flipHorizontal s) = selectedObject s /\
  selectedObject (flipVertical s) = selectedObject s /\
  flipHorizontal (flipHorizontal s) = s /\
  flipVertical (flipVertical s) = s.
Proof.
  intros Hsel Hh Hx Hy. unfold flipHorizontal, flipVertical.
  destruct (flip_selected_spec "flipX" fx s i o Hsel Hh Hx) as (X1 & X2 & X3 & X4 & X5).
  destruct (flip_selected_spec "flipY" fy s i o Hsel Hh Hy) as (Y1 & Y2 & Y3 & Y4 & Y5).
  repeat (split; [assumption |]).
  split; [intros j Hj; split; auto |].
  repeat (split; [assumption |]). assumption.
Qed.

Lemma flip_twice_witness :
  flipHorizontal (flipHorizontal added_text) = added_text /\
  flipVertical (flipVertical added_text) = added_text /\
  exists o',
    heap (flipHorizontal added_text) !! 3%nat = Some o' /\
    type o' = type (object_at added_text 3) /\
    get o' "flipX" = VBool (negb false) /\
    (forall k, k <> "flipX" -> get o' k = get (object_at added_text 3) k).
Proof.
  destruct (flip_twice added_text 3%nat (object_at added_text 3) false false)
    as (H1 & _ & _ & _ & _ & _ & _ & H8 & H9); try (vm_compute; reflexivity).
  split; [exact H8 |]. split; [exact H9 | exact H1].
Defined.

(** ** Shadows *)

Lemma shadow_of_zero color blur : blur == 0 -> shadow_of color blur = VUndef.
Proof.
  intros H. unfold shadow_of; simpl. apply Qeq_bool_iff in H. rewrite H. reflexivity.
Qed.

Lemma shadow_of_nonzero color blur : ~ blur == 0 -> shadow_of color blur = VShadow color blur.
Proof.
  intros H. unfold shadow_of; simpl.
  destruct (Qeq_bool blur 0) eqn:E; [| reflexivity].
  apply Qeq_bool_iff in E. contradiction.
Qed.

Lemma has_shadow_iff color blur o :
  get o "shadow" = shadow_of color blur -> (has_shadow o = true <-> ~ blur == 0).
Proof.
  intros H. unfold has_shadow. rewrite H.
  destruct (Qeq_dec blur 0) as [Hz | Hnz].
  - rewrite (shadow_of_zero _ _ Hz). split; [discriminate | contradiction].
  - rewrite (shadow_of_nonzero _ _ Hnz). split; auto.
Qed.

Lemma shadow_ok_shadow_of color blur o :
  get o "shadow" = shadow_of color blur -> shadow_ok o.
Proof.
  intros H col b Hs. rewrite H in Hs.
  destruct (Qeq_dec blur 0) as [Hz | Hnz].
  - rewrite (shadow_of_zero _ _ Hz) in Hs. discriminate.
  - rewrite (shadow_of_nonzero _ _ Hnz) in Hs. injection Hs as _ <-. exact Hnz.
Qed.

Lemma shadow_ok_other k v o : k <> "shadow" -> shadow_ok o -> shadow_ok (obj_set k v o).
Proof.
  intros Hk Ho col b. rewrite get_obj_set_ne by exact Hk. apply Ho.
Qed.

Lemma shadows_ok_core s s' : heap s' = heap s -> shadows_ok s -> shadows_ok s'.
Proof. intros Hh Hs i o. rewrite Hh. apply Hs. Qed.

Lemma shadows_ok_insert i o s s' :
  heap s' = <[i := o]> (heap s) -> (type o = textbox -> shadow_ok o) ->
  shadows_ok s -> shadows_ok s'.
Proof.
  intros Hh Ho Hs j o' Hj Ht. rewrite Hh in Hj.
  destruct (decide (i = j)) as [-> | Hne].
  - rewrite lookup_insert_eq in Hj. injection Hj as <-. auto.
  - rewrite lookup_insert_ne in Hj by exact Hne. eapply Hs; eassumption.
Qed.

Lemma heap_alloc_add o s :
  heap (canvas_add (next s) (alloc o s)) = <[next s := o]> (heap s).
Proof.
  unfold canvas_add, with_objects, alloc; simpl. destruct (canvas s); reflexivity.
Qed.

Lemma apply_options_other k opts a :
  Forall (fun kv => fst kv <> k) opts -> apply_options opts a !! k = a !! k.
Proof.
  unfold apply_options. intros H. revert a.
  induction H as [| [k' v] opts Hk _ IH]; intros a; simpl; [reflexivity |].
  rewrite IH. apply lookup_set_attr_ne. exact Hk.
Qed.

Lemma shadows_ok_addText rt d text pos extra s s' :
  default_shadow_ok rt ->
  Forall (fun kv => fst kv <> "shadow") extra ->
  addText rt d text pos extra s = Some s' -> shadows_ok s -> shadows_ok s'.
Proof.
  intros Hrt Hex H Hs. unfold addText in H. destruct pos as [p |]; [| discriminate].
  injection H as <-.
  eapply shadows_ok_insert; [apply heap_alloc_add | | exact Hs].
  intros _ col b. rewrite get_new_Textbox by discriminate; simpl.
  rewrite apply_options_other.
  - repeat (rewrite lookup_insert_ne by discriminate).
    destruct (textbox_defaults rt !! "shadow") as [v |] eqn:Hd; simpl;
      [| intros E; discriminate E].
    intros ->. eapply Hrt, Hd.
  - repeat (constructor; [discriminate |]). exact Hex.
Qed.

Lemma shadows_ok_loadContent rt s0 s s' :
  default_shadow_ok rt ->
  loadContent rt s = Some s' -> heap s = heap s0 -> shadows_ok s0 -> shadows_ok s'.
Proof.
  intros Hrt H Hh Hs. unfold loadContent in H.
  destruct (canvas s) as [c |]; [| injection H as <-; eapply shadows_ok_core; eassumption].
  destruct (getCanvasDimensions _ _) as [d |]; simpl in H; [| discriminate].
  destruct (addText rt d (headline _) _ _ _) as [s3 |] eqn:H3; simpl in H; [| discriminate].
  destruct (addText rt d (tagline _) _ _ _) as [s4 |] eqn:H4; simpl in H; [| discriminate].
  eapply shadows_ok_addText; [exact Hrt | | exact H |].
  { repeat (constructor; [discriminate |]). constructor. }
  eapply shadows_ok_addText; [exact Hrt | | exact H4 |].
  { repeat (constructor; [discriminate |]). constructor. }
  eapply shadows_ok_addText; [exact Hrt | | exact H3 |].
  { repeat (constructor; [discriminate |]). constructor. }
  eapply shadows_ok_core; [| exact Hs]. rewrite <- Hh.
  destruct (head (images_b64 (content s))) as [img |];
    [destruct (negb (String.eqb img EmptyString)) |];
    unfold canvas_clear, handleClear, with_objects; simpl;
    destruct (canvas s); reflexivity.
Qed.

Lemma shadows_ok_resize_effect s0 s s' :
  resize_effect s = Some s' -> heap s = heap s0 -> shadows_ok s0 -> shadows_ok s'.
Proof.
  unfold resize_effect. intros H Hh Hs.
  destruct (canvas s); [destruct (container s) |];
    try (injection H as <-; eapply shadows_ok_core; eassumption).
  destruct (resizeCanvas_core _ _ H) as (_ & Hh' & _).
  eapply shadows_ok_core; [| exact Hs]. congruence.
Qed.

Lemma shadows_ok_rerun_effects rt s0 s s' :
  default_shadow_ok rt ->
  rerun_effects rt s = Some s' -> heap s = heap s0 -> shadows_ok s0 -> shadows_ok s'.
Proof.
  unfold rerun_effects. intros Hrt H Hh Hs.
  destruct (getCanvasDimensions _ _) as [d |]; simpl in H; [| discriminate].
  destruct (resize_effect s) as [s1 |] eqn:H1; simpl in H; [| discriminate].
  eapply shadows_ok_loadContent; [exact Hrt | exact H | reflexivity |].
  eapply shadows_ok_resize_effect; eassumption.
Qed.

Lemma handleAddText_new rt s c :
  canvas s = Some c ->
  exists t,
    heap (handleAddText rt s) !! next s = Some t /\
    heap (handleAddText rt s) = <[next s := t]> (heap s) /\
    type t = textbox /\
    get t "shadow" = shadow_of (shadowColor (form s)) (shadowBlur (form s)) /\
    shadowBlur (form (handleAddText rt s)) = shadowBlur (form s).
Proof.
  intros Hc. unfold handleAddText, canvas_setActiveObject. rewrite Hc.
  match goal with
  | |- context [handleSelect [next s] ?s1] =>
      destruct (handleSelect_core (next s) s1) as (_ & Hh & _);
      assert (shadowBlur (form (handleSelect [next s] s1)) = shadowBlur (form s1)) as Hb
  end.
  { unfold handleSelect; simpl.
    match goal with
    | |- context [match ?m with Some _ => _ | None => _ end] => destruct m as [tb |]
    end; [destruct (type tb) |]; reflexivity. }
  rewrite Hh, Hb, heap_alloc_add.
  eexists. split; [apply lookup_insert_eq |].
  split; [reflexivity |]. split; [apply type_new_Textbox |].
  split; [read_attr |].
  unfold canvas_add, with_objects, alloc; simpl. rewrite Hc. reflexivity.
Qed.

Lemma shadow_ok_Textbox_set rt k v o :
  k <> "shadow" -> shadow_ok o -> shadow_ok (Textbox_set rt k v o).
Proof.
  intros Hk Ho col b. rewrite get_Textbox_set_ne by (exact Hk || discriminate).
  apply Ho.
Qed.

Lemma shadows_ok_updateSelected rt prop val s :
  (prop = "shadow" -> exists color blur, val = shadow_of color blur) ->
  shadows_ok s -> shadows_ok (updateSelected rt prop val s).
Proof.
  intros Hv Hs. unfold updateSelected.
  destruct (selectedObject s) as [i |]; [| exact Hs].
  destruct (heap s !! i) as [o |] eqn:Hh; [| exact Hs].
  destruct (type o) eqn:Ht; [| exact Hs].
  eapply shadows_ok_insert; [reflexivity | | exact Hs].
  intros _. destruct (decide (prop = "shadow")) as [-> | Hne].
  - destruct (Hv eq_refl) as (col & b & ->).
    eapply shadow_ok_shadow_of. apply get_Textbox_set_eq; discriminate.
  - apply shadow_ok_Textbox_set; [exact Hne |]. eapply Hs; eassumption.
Qed.

Lemma shadows_ok_onControl rt c s : shadows_ok s -> shadows_ok (onControl rt c s).
Proof.
  intros Hs.
  destruct c; simpl; apply shadows_ok_updateSelected;
    try (intros E; discriminate E);
    try (intros _; eexists; eexists; reflexivity);
    (eapply shadows_ok_core; [| exact Hs]; reflexivity).
Qed.

Lemma shadows_ok_flip_selected k s :
  k <> "shadow" -> shadows_ok s -> shadows_ok (flip_selected k s).
Proof.
  intros Hk Hs. unfold flip_selected.
  destruct (selectedObject s) as [i |]; [| exact Hs].
  destruct (heap s !! i) as [o |] eqn:Hh; [| exact Hs].
  eapply shadows_ok_insert; [reflexivity | | exact Hs].
  intros Ht. apply shadow_ok_other; [exact Hk |]. eapply Hs; eassumption.
Qed.

Lemma shadows_ok_new_image rt iw ih opts s :
  shadows_ok s ->
  shadows_ok (canvas_add (next s) (alloc (new_Image rt iw ih opts) s)).
Proof.
  intros Hs. eapply shadows_ok_insert; [apply heap_alloc_add | | exact Hs].
  intros Ht. discriminate Ht.
Qed.

Lemma shadows_ok_step rt s s' :
  default_shadow_ok rt -> step rt s s' -> shadows_ok s -> shadows_ok s'.
Proof.
  intros Hrt Hstep Hs. destruct Hstep.
  - unfold mount in *.
    destruct (getCanvasDimensions _ _) as [d |]; simpl in *; [| discriminate].
    destruct (resize_effect _) as [s1 |] eqn:H1; simpl in *; [| discriminate].
    eapply shadows_ok_loadContent; [exact Hrt | eassumption | reflexivity |].
    eapply shadows_ok_resize_effect; [exact H1 | reflexivity | exact Hs].
  - destruct (resizeCanvas_core _ _ H3) as (_ & Hh & _).
    eapply shadows_ok_core; eassumption.
  - unfold onChange_posterSize in *.
    destruct (String.eqb key (posterSize s));
      [match goal with H : Some _ = Some _ |- _ => injection H as <- end; exact Hs |].
    eapply shadows_ok_rerun_effects; [exact Hrt | eassumption | reflexivity | exact Hs].
  - unfold onChange_orientation in *.
    destruct o, (orientation s);
      first [ match goal with H : Some _ = Some _ |- _ => injection H as <- end; exact Hs
            | eapply shadows_ok_rerun_effects;
              [exact Hrt | eassumption | reflexivity | exact Hs] ].
  - eapply shadows_ok_loadContent; [exact Hrt | eassumption | reflexivity | exact Hs].
  - unfold imgEl_onload, canvas_sendObjectToBack.
    eapply shadows_ok_core; [apply with_objects_core |].
    eapply shadows_ok_insert; [apply heap_alloc_add | | exact Hs].
    intros Ht. discriminate Ht.
  - eapply shadows_ok_core; [| exact Hs]. reflexivity.
  - eapply shadows_ok_core; [apply handleSelect_core | exact Hs].
  - eapply shadows_ok_core; [| exact Hs]. reflexivity.
  - destruct (canvas s) as [c |] eqn:Hc.
    + destruct (handleAddText_new rt s c Hc) as (t & _ & Hh & Ht & Hsh & _).
      eapply shadows_ok_insert; [exact Hh | | exact Hs].
      intros _. eapply shadow_ok_shadow_of, Hsh.
    + unfold handleAddText. rewrite Hc. exact Hs.
  - unfold upload_onload, canvas_setActiveObject.
    eapply shadows_ok_core; [apply handleSelect_core |].
    apply shadows_ok_new_image, Hs.
  - unfold handleDelete.
    destruct (canvas s); [| exact Hs].
    destruct (selectedObject s) as [i |] eqn:Hsel; [| exact Hs].
    eapply shadows_ok_core; [| exact Hs].
    unfold canvas_remove, handleClear, with_objects; simpl. rewrite Hsel.
    destruct (Nat.eqb i i), (canvas s); reflexivity.
  - unfold bringFront. destruct (selectedObject s); [| exact Hs].
    eapply shadows_ok_core; [apply with_objects_core | exact Hs].
  - unfold sendBack. destruct (selectedObject s); [| exact Hs].
    eapply shadows_ok_core; [apply with_objects_core | exact Hs].
  - apply shadows_ok_flip_selected; [discriminate | exact Hs].
  - apply shadows_ok_flip_selected; [discriminate | exact Hs].
  - apply shadows_ok_onControl, Hs.
Qed.

Lemma reachable_shadows_ok rt c box s :
  default_shadow_ok rt -> reachable rt c box s -> shadows_ok s.
Proof.
  intros Hrt. induction 1 as [| s s' _ IH Hstep].
  - intros i o Hi. simpl in Hi. rewrite lookup_empty in Hi. discriminate.
  - eapply shadows_ok_step; eassumption.
Qed.

Lemma form_updateSelected rt prop val s : form (updateSelected rt prop val s) = form s.
Proof.
  unfold updateSelected.
  destruct (selectedObject s) as [i |]; [| reflexivity].
  destruct (heap s !! i) as [o |]; [| reflexivity].
  destruct (type o); reflexivity.
Qed.

Lemma fabric_rt_shadow_ok : default_shadow_ok fabric_rt.
Proof.
  intros color blur H. vm_compute in H. discriminate H.
Qed.

(** C10, as the code has it: in every state of a session no TextBox
    carries a shadow of blur 0.  The shadow agrees with the form's blur
    right after the three operations that write it: "Add Text" gives the
    new TextBox a shadow exactly when the form's blur is nonzero; on the
    selected TextBox the blur slider set to [v] leaves a shadow exactly
    when [v] is nonzero (at 0 the [shadow] attribute is removed, not kept
    with blur 0), and a change of the shadow color leaves a shadow exactly
    when the form's blur is nonzero.  It is not an invariant of every
    TextBox, as the counterexample below shows. *)
Theorem shadow_iff_blur (rt : Runtime) (c : Content) (box : option (Q * Q)) (s : State) :
  default_shadow_ok rt ->
  reachable rt c box s ->
  (forall i o color blur,
     heap s !! i = Some o -> type o = textbox ->
     get o "shadow" = VShadow color blur -> ~ blur == 0) /\
  (canvas s <> None ->
   exists t,
     heap (handleAddText rt s) !! next s = Some t /\
     type t = textbox /\
     get t "shadow" = shadow_of (shadowColor (form s)) (shadowBlur (form s)) /\
     (has_shadow t = true <-> ~ shadowBlur (form (handleAddText rt s)) == 0)) /\
  (forall i tb,
     selectedObject s = Some i -> heap s !! i = Some tb -> type tb = textbox ->
     (forall v,
        exists tb',
          heap (onControl rt (ShadowBlur v) s) !! i = Some tb' /\
          shadowBlur (form (onControl rt (ShadowBlur v) s)) = v /\
          (has_shadow tb' = true <-> ~ v == 0) /\
          (v == 0 -> get tb' "shadow" = VUndef) /\
          (~ v == 0 -> get tb' "shadow" = VShadow (shadowColor (form s)) v)) /\
     (forall color,
        exists tb',
          heap (onControl rt (ShadowColor color) s) !! i = Some tb' /\
          shadowBlur (form (onControl rt (ShadowColor color) s)) = shadowBlur (form s) /\
          (has_shadow tb' = true <-> ~ shadowBlur (form s) == 0))).
Proof.
  intros Hrt Hr.
  split; [| split].
  - intros i o color blur Hi Ht. apply (reachable_shadows_ok rt c box s Hrt Hr i o Hi Ht).
  - intros Hc. destruct (canvas s) as [cv |] eqn:Hcv; [| contradiction].
    destruct (handleAddText_new rt s cv Hcv) as (t & H1 & _ & H3 & H4 & H5).
    exists t. repeat (split; [assumption |]).
    rewrite H5. apply (has_shadow_iff _ _ _ H4).
  - intros i tb Hsel Hh Ht. split.
    + intros v.
      destruct (onControl_pushed rt (ShadowBlur v) s i tb Hsel Hh Ht) as (tb' & H1 & _ & _ & H4).
      simpl in *. rewrite form_updateSelected in *. simpl in *. exists tb'.
      split; [exact H1 |]. split; [reflexivity |].
      split; [apply (has_shadow_iff _ _ _ H4) |].
      split; intros Hv; rewrite H4.
      * apply shadow_of_zero, Hv.
      * apply shadow_of_nonzero, Hv.
    + intros color.
      destruct (onControl_pushed rt (ShadowColor color) s i tb Hsel Hh Ht)
        as (tb' & H1 & _ & _ & H4).
      simpl in *. rewrite form_updateSelected in *. simpl in *. exists tb'.
      split; [exact H1 |]. split; [reflexivity |].
      apply (has_shadow_iff _ _ _ H4).
Qed.

Lemma shadow_iff_blur_witness :
  (exists t,
     heap (handleAddText fabric_rt added_text) !! next added_text = Some t /\
     type t = textbox /\
     get t "shadow" = shadow_of (shadowColor (form added_text)) (shadowBlur (form added_text)) /\
     (has_shadow t = true <-> ~ shadowBlur (form (handleAddText fabric_rt added_text)) == 0)) /\
  (forall v,
     exists tb',
       heap (onControl fabric_rt (ShadowBlur v) added_text) !! 3%nat = Some tb' /\
       shadowBlur (form (onControl fabric_rt (ShadowBlur v) added_text)) = v /\
       (has_shadow tb' = true <-> ~ v == 0) /\
       (v == 0 -> get tb' "shadow" = VUndef) /\
       (~ v == 0 -> get tb' "shadow" = VShadow (shadowColor (form added_text)) v)).
Proof.
  destruct (shadow_iff_blur fabric_rt content_plain sample_box added_text
              fabric_rt_shadow_ok added_text_reachable) as (_ & H2 & H3).
  split.
  - apply H2. vm_compute. discriminate.
  - apply (H3 3%nat (object_at added_text 3)); vm_compute; reflexivity.
Defined.

Lemma blur_without_shadow_reachable :
  reachable fabric_rt content_plain sample_box blur_without_shadow.
Proof.
  unfold blur_without_shadow.
  eapply reach_step; [| apply step_click_object].
  - eapply reach_step; [| apply step_control].
    + eapply reach_step; [apply mounted_plain_reachable | apply step_click_object].
      * apply is_on_canvas_true. vm_compute. reflexivity.
      * vm_compute. discriminate.
    + apply is_selected_textbox_true. vm_compute. reflexivity.
    + simpl. split; intros H; discriminate H.
  - apply is_on_canvas_true. vm_compute. reflexivity.
  - vm_compute. discriminate.
Qed.

Lemma shadow_without_blur_reachable :
  reachable fabric_rt content_plain sample_box shadow_without_blur.
Proof.
  unfold shadow_without_blur.
  eapply reach_step; [| apply step_click_object].
  - eapply reach_step; [apply blur_without_shadow_reachable | apply step_control].
    + apply is_selected_textbox_true. vm_compute. reflexivity.
    + simpl. split; intros H; discriminate H.
  - apply is_on_canvas_true. vm_compute. reflexivity.
  - vm_compute. discriminate.
Qed.

(** C10, counterexample: the shadow of a TextBox and the shadow-blur value
    of the form diverge in both directions.  With blur 10 set while the
    headline is selected, a click on the tagline selects a TextBox without
    a shadow although the blur value is 10: the captions are created
    without a shadow and a selection does not touch the blur value.  With
    the blur then set to 0 on the tagline, a click on the headline selects
    a TextBox that carries its shadow of blur 10 although the blur value
    is 0. *)
Lemma shadow_blur_diverges :
  reachable fabric_rt content_plain sample_box blur_without_shadow /\
  selectedObject blur_without_shadow = Some 1%nat /\
  type (object_at blur_without_shadow 1) = textbox /\
  get (object_at blur_without_shadow 1) "shadow" = VNull /\
  has_shadow (object_at blur_without_shadow 1) = false /\
  shadowBlur (form blur_without_shadow) = 10 /\
  reachable fabric_rt content_plain sample_box shadow_without_blur /\
  selectedObject shadow_without_blur = Some 0%nat /\
  type (object_at shadow_without_blur 0) = textbox /\
  get (object_at shadow_without_blur 0) "shadow" = VShadow "#000000" 10 /\
  has_shadow (object_at shadow_without_blur 0) = true /\
  shadowBlur (form shadow_without_blur) = 0.
Proof.
  split; [exact blur_without_shadow_reachable |].
  do 5 (split; [vm_compute; reflexivity |]).
  split; [exact shadow_without_blur_reachable |].
  do 4 (split; [vm_compute; reflexivity |]).
  vm_compute. reflexivity.
Qed.

(** ** Late decode completions *)

Lemma pending_addText rt d text pos extra s s' :
  addText rt d text pos extra s = Some s' -> pending s' = pending s.
Proof.
  unfold addText. destruct pos; [| discriminate]. intros [= <-].
  unfold canvas_add, with_objects, alloc; simpl. destruct (canvas s); reflexivity.
Qed.

Lemma pending_loadContent rt s s' :
  loadContent rt s = Some s' -> exists started, pending s' = pending s ++ started.
Proof.
  unfold loadContent.
  destruct (canvas s) as [c |] eqn:Hc;
    [| intros [= <-]; exists []; rewrite app_nil_r; reflexivity].
  destruct (getCanvasDimensions _ _) as [d |]; simpl; [| discriminate].
  intros H.
  destruct (addText rt d (headline _) _ _ _) as [s3 |] eqn:H3; simpl in H; [| discriminate].
  destruct (addText rt d (tagline _) _ _ _) as [s4 |] eqn:H4; simpl in H; [| discriminate].
  rewrite (pending_addText _ _ _ _ _ _ _ H).
  rewrite (pending_addText _ _ _ _ _ _ _ H4).
  rewrite (pending_addText _ _ _ _ _ _ _ H3).
  assert (pending (canvas_clear s) = pending s) as Hp.
  { unfold canvas_clear, handleClear, with_objects. rewrite Hc. reflexivity. }
  assert (pending (with_objects (fun _ => []) s) = pending s) as Hq.
  { unfold with_objects. rewrite Hc. reflexivity. }
  destruct (head (images_b64 (content s))) as [img |];
    [destruct (negb (String.eqb img EmptyString)) |]; cbn [pending with_pending]; rewrite ?Hp, ?Hq.
  - eexists. reflexivity.
  - exists []. rewrite app_nil_r. reflexivity.
  - exists []. rewrite app_nil_r. reflexivity.
Qed.

Lemma pending_resize_effect s s' : resize_effect s = Some s' -> pending s' = pending s.
Proof.
  unfold resize_effect, resizeCanvas.
  destruct (canvas s); [destruct (container s) as [[cw ch] |] |];
    try (intros [= <-]; reflexivity).
  destruct (getCanvasDimensions _ _); simpl; [| discriminate].
  intros [= <-]. reflexivity.
Qed.

Lemma pending_rerun_effects rt s s' :
  rerun_effects rt s = Some s' -> exists started, pending s' = pending s ++ started.
Proof.
  unfold rerun_effects. intros H.
  destruct (getCanvasDimensions _ _) as [d |]; simpl in H; [| discriminate].
  destruct (resize_effect s) as [s1 |] eqn:H1; simpl in H; [| discriminate].
  rewrite <- (pending_resize_effect _ _ H1). eapply pending_loadContent, H.
Qed.

(** C4, as the code has it: there is no staleness check.  A rebuild of the
    Scene (new content, poster size or orientation) keeps every decode that
    is in flight pending, and the completion of any pending decode, however
    many rebuilds ago it was started, inserts its image at the back of the
    current Scene, scaled and centred for the page size captured when it
    was started. *)
Theorem late_decode_inserts (rt : Runtime) (c : Content) (box : option (Q * Q)) (s : State) :
  reachable rt c box s ->
  (forall c' s', onContent rt c' s = Some s' ->
     exists started, pending s' = pending s ++ started) /\
  (forall key s', onChange_posterSize rt key s = Some s' ->
     exists started, pending s' = pending s ++ started) /\
  (forall o s', onChange_orientation rt o s = Some s' ->
     exists started, pending s' = pending s ++ started) /\
  (forall n p iw ih,
     pending s !! n = Some p -> 0 < iw -> 0 < ih ->
     exists img,
       step rt s (imgEl_onload rt p iw ih (with_pending (delete n (pending s)) s)) /\
       scene (imgEl_onload rt p iw ih (with_pending (delete n (pending s)) s))
         = next s :: scene s /\
       heap (imgEl_onload rt p iw ih (with_pending (delete n (pending s)) s)) !! next s
         = Some img /\
       type img = image /\
       get img "scaleX" = VNum (image_scale iw ih (pwidth p) (pheight p)) /\
       get img "scaleY" = VNum (image_scale iw ih (pwidth p) (pheight p)) /\
       get img "left" = VNum (pwidth p / 2) /\
       get img "top" = VNum (pheight p / 2)).
Proof.
  intros Hr. pose proof (reachable_wf _ _ _ _ Hr) as Hwf.
  split; [| split; [| split]].
  - intros c' s' H. apply (pending_loadContent rt _ _ H).
  - intros key s' H. unfold onChange_posterSize in H.
    destruct (String.eqb key (posterSize s)).
    + injection H as <-. exists []. rewrite app_nil_r. reflexivity.
    + apply (pending_rerun_effects rt _ _ H).
  - intros o s' H. unfold onChange_orientation in H.
    destruct o, (orientation s);
      first [ injection H as <-; exists []; rewrite app_nil_r; reflexivity
            | apply (pending_rerun_effects rt _ _ H) ].
  - intros n p iw ih Hn Hiw Hih.
    assert (canvas s <> None) as Hc.
    { intros Hnone. rewrite (wf_pending s Hwf Hnone) in Hn. discriminate Hn. }
    pose proof (wf_drop_pending n s Hwf) as Hwf'.
    eexists. split; [apply step_decoded; assumption |].
    split;
      [exact (scene_imgEl_onload rt p iw ih (with_pending (delete n (pending s)) s) Hc Hwf') |].
    split.
    { destruct s as [cv hp nx sel zm fm ps ori ct bx pd].
      unfold imgEl_onload, canvas_sendObjectToBack, canvas_add, with_objects, alloc.
      simpl in *. destruct cv; [| contradiction]. simpl. apply lookup_insert_eq. }
    split; [reflexivity |].
    do 3 (split; [read_attr |]). read_attr.
Qed.

(** *** A rebuild with the first decode still in flight *)

Lemma rebuilt_letter_reachable :
  reachable fabric_rt content_image sample_box rebuilt_letter.
Proof.
  eapply reach_step; [apply mounted_image_reachable |].
  apply step_posterSize with (key := "Letter"); [simpl; tauto | vm_compute; reflexivity].
Qed.

Lemma late_decode_inserts_witness :
  exists img,
    step fabric_rt rebuilt_letter late_completion /\
    scene late_completion = next rebuilt_letter :: scene rebuilt_letter /\
    heap late_completion !! next rebuilt_letter = Some img /\
    type img = image /\
    get img "scaleX" = VNum (image_scale 2000 1000 (pwidth a4_decode) (pheight a4_decode)) /\
    get img "scaleY" = VNum (image_scale 2000 1000 (pwidth a4_decode) (pheight a4_decode)) /\
    get img "left" = VNum (pwidth a4_decode / 2) /\
    get img "top" = VNum (pheight a4_decode / 2).
Proof.
  destruct (late_decode_inserts fabric_rt content_image sample_box rebuilt_letter
              rebuilt_letter_reachable) as (_ & _ & _ & H).
  apply (H 0%nat a4_decode 2000 1000); [vm_compute; reflexivity | reflexivity | reflexivity].
Defined.

(** C4, counterexample: the decode started on the A4 page completes after
    the Scene was rebuilt for Letter.  It is not rejected: the rebuilt Scene
    [3; 4; 5] becomes [6; 3; 4; 5], where 6 is the image of the superseded
    import, centred at (397, 561.5) for the A4 page on a page that is now
    816 x 1056. *)
Lemma stale_decode_inserted :
  reachable fabric_rt content_image sample_box rebuilt_letter /\
  pending mounted_image = [a4_decode] /\
  getCanvasDimensions (posterSize rebuilt_letter) (orientation rebuilt_letter)
    = Some {| w := 816; h := 1056 |} /\
  pending rebuilt_letter !! 0%nat = Some a4_decode /\
  scene rebuilt_letter = [3; 4; 5]%nat /\
  step fabric_rt rebuilt_letter late_completion /\
  reachable fabric_rt content_image sample_box late_completion /\
  scene late_completion = [6; 3; 4; 5]%nat /\
  scene late_completion <> scene rebuilt_letter /\
  type (object_at late_completion 6) = image /\
  get (object_at late_completion 6) "left" = VNum (794 / 2) /\
  get (object_at late_completion 6) "top" = VNum (1123 / 2).
Proof.
  assert (step fabric_rt rebuilt_letter late_completion) as Hstep.
  { apply step_decoded; [vm_compute; reflexivity | reflexivity | reflexivity]. }
  split; [apply rebuilt_letter_reachable |].
  do 4 (split; [vm_compute; reflexivity |]).
  split; [exact Hstep |].
  split; [eapply reach_step; [apply rebuilt_letter_reachable | exact Hstep] |].
  split; [vm_compute; reflexivity |].
  split; [vm_compute; discriminate |].
  repeat split; vm_compute; reflexivity.
Qed.

(** * Further properties of the editor *)

(** ** Writes to attributes *)

Lemma set_attr_set_attr k v1 v2 a : set_attr k v2 (set_attr k v1 a) = set_attr k v2 a.
Proof.
  apply map_eq. intros k'. destruct (decide (k = k')) as [<- | Hne].
  - rewrite !lookup_set_attr_eq. reflexivity.
  - rewrite !lookup_set_attr_ne by exact Hne. reflexivity.
Qed.

Lemma set_attr_commute k1 k2 v1 v2 a :
  k1 <> k2 -> set_attr k2 v2 (set_attr k1 v1 a) = set_attr k1 v1 (set_attr k2 v2 a).
Proof.
  intros Hne. apply map_eq. intros k.
  destruct (decide (k1 = k)) as [E1 | H1]; destruct (decide (k2 = k)) as [E2 | H2].
  - congruence.
  - subst k. rewrite lookup_set_attr_ne by exact H2. rewrite !lookup_set_attr_eq. reflexivity.
  - subst k. rewrite lookup_set_attr_eq, (lookup_set_attr_ne k1) by exact H1.
    rewrite lookup_set_attr_eq. reflexivity.
  - rewrite !lookup_set_attr_ne by assumption. reflexivity.
Qed.

Lemma obj_set_obj_set k v1 v2 o : obj_set k v2 (obj_set k v1 o) = obj_set k v2 o.
Proof. unfold obj_set; simpl. rewrite set_attr_set_attr. reflexivity. Qed.

Lemma obj_set_commute k1 k2 v1 v2 o :
  k1 <> k2 -> obj_set k2 v2 (obj_set k1 v1 o) = obj_set k1 v1 (obj_set k2 v2 o).
Proof.
  intros Hne. unfold obj_set; simpl. rewrite (set_attr_commute k1 k2) by exact Hne.
  reflexivity.
Qed.

Lemma get_Textbox_set rt k k' v o :
  k' <> "width" -> k' <> "height" ->
  get (Textbox_set rt k v o) k' = get (obj_set k v o) k'.
Proof.
  intros Hw Hh. unfold Textbox_set.
  destruct (is_layout_property k); [apply get_initDimensions; assumption | reflexivity].
Qed.

Lemma Textbox_set_plain rt k v o :
  is_layout_property k = false -> Textbox_set rt k v o = obj_set k v o.
Proof. intros H. unfold Textbox_set. rewrite H. reflexivity. Qed.

Lemma same_but_layout_refl o : same_but_layout o o.
Proof. split; reflexivity. Qed.

Lemma agree_but_layout_refl s : agree_but_layout s s.
Proof.
  unfold agree_but_layout. repeat (split; [reflexivity |]).
  intros i. destruct (heap s !! i); [apply same_but_layout_refl | exact I].
Qed.

Lemma agree_with_heap i o1 o2 s :
  same_but_layout o1 o2 ->
  agree_but_layout (with_heap (<[i := o1]> (heap s)) s) (with_heap (<[i := o2]> (heap s)) s).
Proof.
  intros Ho. unfold agree_but_layout; simpl. repeat (split; [reflexivity |]).
  intros j. destruct (decide (i = j)) as [<- | Hne].
  - rewrite !lookup_insert_eq. exact Ho.
  - rewrite !lookup_insert_ne by exact Hne.
    destruct (heap s !! j); [apply same_but_layout_refl | exact I].
Qed.

(** Two writes in a row on the selected TextBox. *)
Lemma updateSelected_twice rt p v q u s i o :
  selectedObject s = Some i -> heap s !! i = Some o -> type o = textbox ->
  updateSelected rt q u (updateSelected rt p v s)
  = with_heap (<[i := Textbox_set rt q u (Textbox_set rt p v o)]> (heap s)) s.
Proof.
  intros Hsel Hh Ht. rewrite (updateSelected_textbox rt p v s i o Hsel Hh Ht).
  erewrite updateSelected_textbox;
    [| exact Hsel | simpl; apply lookup_insert_eq | rewrite type_Textbox_set; exact Ht].
  unfold with_heap; simpl. rewrite insert_insert_eq. reflexivity.
Qed.

Lemma updateSelected_unselected rt p v s :
  (forall i o, selectedObject s = Some i -> heap s !! i = Some o -> type o <> textbox) ->
  updateSelected rt p v s = s.
Proof.
  intros H. unfold updateSelected.
  destruct (selectedObject s) as [i |]; [| reflexivity].
  destruct (heap s !! i) as [o |] eqn:Hh; [| reflexivity].
  destruct (type o) eqn:Ht; [| reflexivity].
  exfalso. apply (H i o eq_refl Hh Ht).
Qed.

(** X1: style writes on the selection compose as assignments do, up to
    the text layout.  For properties that are not text-layout properties
    (fill, stroke, stroke width, shadow, background colour, underline)
    writing the same property twice is the same as the last write alone,
    and writes to two different properties can be swapped.  For all
    properties this holds of every attribute other than the laid-out [width]
    and [height], which depend on the writes made before. *)
Theorem updateSelected_compose (rt : Runtime) (p1 p2 : string) (v1 v2 : Value) (s : State) :
  (is_layout_property p1 = false ->
   updateSelected rt p1 v2 (updateSelected rt p1 v1 s) = updateSelected rt p1 v2 s) /\
  (is_layout_property p1 = false -> is_layout_property p2 = false -> p1 <> p2 ->
   updateSelected rt p2 v2 (updateSelected rt p1 v1 s)
   = updateSelected rt p1 v1 (updateSelected rt p2 v2 s)) /\
  agree_but_layout (updateSelected rt p1 v2 (updateSelected rt p1 v1 s))
    (updateSelected rt p1 v2 s) /\
  (p1 <> p2 ->
   agree_but_layout (updateSelected rt p2 v2 (updateSelected rt p1 v1 s))
     (updateSelected rt p1 v1 (updateSelected rt p2 v2 s))).
Proof.
  destruct (selectedObject s) as [i |] eqn:Hsel;
    [| rewrite !(updateSelected_unselected rt _ _ s) by (intros; congruence);
       split; [reflexivity | split; [reflexivity |]];
       split; [| intros _]; apply agree_but_layout_refl].
  destruct (heap s !! i) as [o |] eqn:Hh;
    [| rewrite !(updateSelected_unselected rt _ _ s) by (intros; congruence);
       split; [reflexivity | split; [reflexivity |]];
       split; [| intros _]; apply agree_but_layout_refl].
  destruct (type o) eqn:Ht;
    [| rewrite !(updateSelected_unselected rt _ _ s) by (intros; congruence);
       split; [reflexivity | split; [reflexivity |]];
       split; [| intros _]; apply agree_but_layout_refl].
  rewrite !(updateSelected_twice rt _ _ _ _ s i o Hsel Hh Ht).
  rewrite !(updateSelected_textbox rt _ _ s i o Hsel Hh Ht).
  split; [| split; [| split]].
  - intros H1. rewrite !Textbox_set_plain by exact H1.
    rewrite obj_set_obj_set. reflexivity.
  - intros H1 H2 Hne. rewrite !Textbox_set_plain by assumption.
    rewrite (obj_set_commute p1 p2) by exact Hne. reflexivity.
  - apply agree_with_heap. split; [rewrite !type_Textbox_set; reflexivity |].
    intros k Hw Hg. rewrite !get_Textbox_set by assumption.
    destruct (decide (p1 = k)) as [<- | Hk].
    + rewrite !get_obj_set_eq. reflexivity.
    + rewrite !get_obj_set_ne by exact Hk. rewrite get_Textbox_set by assumption.
      apply get_obj_set_ne, Hk.
  - intros Hne. apply agree_with_heap.
    split; [rewrite !type_Textbox_set; reflexivity |].
    intros k Hw Hg. rewrite !get_Textbox_set by assumption.
    destruct (decide (p1 = k)) as [E1 | N1]; destruct (decide (p2 = k)) as [E2 | N2].
    + congruence.
    + subst k. rewrite get_obj_set_ne by exact N2. rewrite get_Textbox_set by assumption.
      rewrite !get_obj_set_eq. reflexivity.
    + subst k. rewrite get_obj_set_eq, get_obj_set_ne by exact N1.
      rewrite get_Textbox_set by assumption. rewrite get_obj_set_eq. reflexivity.
    + rewrite !get_obj_set_ne by assumption. rewrite !get_Textbox_set by assumption.
      rewrite !get_obj_set_ne by assumption. reflexivity.
Qed.

Lemma updateSelected_compose_witness :
  updateSelected fabric_rt "fill" (VStr "#00ff00")
    (updateSelected fabric_rt "fill" (VStr "#ff0000") added_text)
  = updateSelected fabric_rt "fill" (VStr "#00ff00") added_text /\
  updateSelected fabric_rt "stroke" (VStr "#0000ff")
    (updateSelected fabric_rt "fill" (VStr "#ff0000") added_text)
  = updateSelected fabric_rt "fill" (VStr "#ff0000")
      (updateSelected fabric_rt "stroke" (VStr "#0000ff") added_text) /\
  agree_but_layout
    (updateSelected fabric_rt "text" (VStr "ok")
       (updateSelected fabric_rt "fontSize" (VNum 80) added_text))
    (updateSelected fabric_rt "fontSize" (VNum 80)
       (updateSelected fabric_rt "text" (VStr "ok") added_text)).
Proof.
  destruct (updateSelected_compose fabric_rt "fill" "stroke" (VStr "#ff0000") (VStr "#00ff00")
              added_text) as (H1 & _).
  destruct (updateSelected_compose fabric_rt "fill" "stroke" (VStr "#ff0000") (VStr "#0000ff")
              added_text) as (_ & H2 & _).
  destruct (updateSelected_compose fabric_rt "fontSize" "text" (VNum 80) (VStr "ok")
              added_text) as (_ & _ & _ & H4).
  split; [apply H1; reflexivity |].
  split; [apply H2; [reflexivity | reflexivity | discriminate] |].
  apply H4. discriminate.
Defined.

(** ** Flips *)

Lemma toggle_commute k1 k2 o :
  k1 <> k2 -> toggle k2 (toggle k1 o) = toggle k1 (toggle k2 o).
Proof.
  intros Hne. unfold toggle.
  rewrite (get_obj_set_ne k1 k2) by exact Hne.
  rewrite (get_obj_set_ne k2 k1) by congruence.
  apply obj_set_commute, Hne.
Qed.

(** X2: the two flips are independent: flipping horizontally then
    vertically gives the same state as flipping vertically then
    horizontally, whatever is selected. *)
Theorem flips_commute (s : State) :
  flipHorizontal (flipVertical s) = flipVertical (flipHorizontal s).
Proof.
  unfold flipHorizontal, flipVertical.
  assert (forall k, selectedObject (flip_selected k s) = selectedObject s) as Hs.
  { intros k. unfold flip_selected.
    destruct (selectedObject s) as [i |] eqn:E; [destruct (heap s !! i) |];
      simpl; rewrite ?E; reflexivity. }
  destruct (selectedObject s) as [i |] eqn:Hsel;
    [| unfold flip_selected; rewrite Hsel; simpl; rewrite Hsel; reflexivity].
  destruct (heap s !! i) as [o |] eqn:Hh;
    [| unfold flip_selected; rewrite Hsel, Hh; simpl; rewrite Hsel, Hh; reflexivity].
  assert (forall k k',
            flip_selected k' (flip_selected k s)
            = with_heap (<[i := toggle k' (toggle k o)]> (heap s)) s) as Hcomp.
  { intros k k'. unfold flip_selected at 1. rewrite Hs.
    unfold flip_selected. rewrite Hsel, Hh; simpl. rewrite lookup_insert_eq.
    unfold with_heap; simpl. rewrite insert_insert_eq. reflexivity. }
  rewrite !Hcomp, (toggle_commute "flipX" "flipY") by discriminate. reflexivity.
Qed.

(** ** Z-order *)

Lemma with_objects_with_objects f g s :
  with_objects f (with_objects g s) = with_objects (fun l => f (g l)) s.
Proof.
  unfold with_objects. destruct (canvas s) as [c |] eqn:Hc; simpl; [| rewrite Hc]; reflexivity.
Qed.

Lemma with_objects_ext f g s :
  f (scene s) = g (scene s) -> with_objects f s = with_objects g s.
Proof.
  unfold with_objects, scene. destruct (canvas s); [| reflexivity].
  intros ->. reflexivity.
Qed.

Lemma reorder_selection s i :
  selectedObject s = Some i ->
  selectedObject (canvas_bringObjectToFront i s) = Some i /\
  selectedObject (canvas_sendObjectToBack i s) = Some i.
Proof.
  intros Hsel. unfold canvas_bringObjectToFront, canvas_sendObjectToBack.
  split; rewrite (proj2 (proj2 (with_objects_core _ s))); exact Hsel.
Qed.

(** X3: on the selected object of any state of a session, "Bring to Front"
    moves it to the end of the Scene and "Send to Back" to the start, the
    other objects keeping their order; nothing but the order changes.
    Either button pressed twice is the same as once, and after the other
    button only the last one counts. *)
Theorem reorder_selected (rt : Runtime) (c : Content) (box : option (Q * Q))
    (s : State) (i : nat) :
  reachable rt c box s -> selectedObject s = Some i ->
  exists l1 l2,
    scene s = l1 ++ i :: l2 /\
    scene (bringFront s) = (l1 ++ l2) ++ [i] /\
    scene (sendBack s) = i :: (l1 ++ l2) /\
    (i ∉ l1 ++ l2) /\
    heap (bringFront s) = heap s /\ heap (sendBack s) = heap s /\
    selectedObject (bringFront s) = Some i /\ selectedObject (sendBack s) = Some i /\
    form (bringFront s) = form s /\ form (sendBack s) = form s /\
    bringFront (bringFront s) = bringFront s /\
    sendBack (sendBack s) = sendBack s /\
    sendBack (bringFront s) = sendBack s /\
    bringFront (sendBack s) = bringFront s.
Proof.
  intros Hr Hsel. pose proof (reachable_wf _ _ _ _ Hr) as Hwf.
  pose proof (wf_selected s Hwf i Hsel) as Hin.
  destruct (remove_obj_split i (scene s) Hin (wf_nodup s Hwf)) as (l1 & l2 & E1 & E2 & E3).
  assert (mem_obj i (scene s) = true) as Hm by (apply mem_obj_elem, Hin).
  assert (canvas s <> None) as Hc.
  { unfold scene in Hin. destruct (canvas s); [discriminate | inversion Hin]. }
  destruct (reorder_selection s i Hsel) as [Sf Sb].
  exists l1, l2. unfold bringFront, sendBack. rewrite Hsel.
  assert (forall f, scene (with_objects f s) = f (scene s)) as Hscene.
  { intros f. unfold scene, with_objects. destruct (canvas s); [reflexivity | contradiction]. }
  split; [exact E1 |].
  split; [unfold canvas_bringObjectToFront; rewrite Hscene, Hm, E2; reflexivity |].
  split; [unfold canvas_sendObjectToBack; rewrite Hscene, Hm, E2; reflexivity |].
  split; [exact E3 |].
  split; [apply with_objects_core |]. split; [apply with_objects_core |].
  split; [exact Sf |]. split; [exact Sb |].
  split; [apply with_objects_core |]. split; [apply with_objects_core |].
  assert (mem_obj i ((l1 ++ l2) ++ [i]) = true) as Hm1.
  { apply mem_obj_elem, elem_of_app. right. apply list_elem_of_singleton. reflexivity. }
  assert (mem_obj i (i :: (l1 ++ l2)) = true) as Hm2.
  { apply mem_obj_elem. left. }
  assert (remove_obj i (i :: (l1 ++ l2)) = l1 ++ l2) as Hr2.
  { simpl. rewrite Nat.eqb_refl. reflexivity. }
  rewrite Sf, Sb.
  unfold canvas_bringObjectToFront, canvas_sendObjectToBack.
  rewrite !with_objects_with_objects.
  repeat split; apply with_objects_ext; rewrite Hm, E2, ?Hm1, ?Hm2, ?Hr2;
    rewrite ?remove_obj_last by exact E3; reflexivity.
Qed.

Lemma reorder_selected_witness :
  exists l1 l2,
    scene added_text = l1 ++ 3%nat :: l2 /\
    scene (bringFront added_text) = (l1 ++ l2) ++ [3%nat] /\
    scene (sendBack added_text) = 3%nat :: (l1 ++ l2) /\
    (3%nat ∉ l1 ++ l2) /\
    heap (bringFront added_text) = heap added_text /\
    heap (sendBack added_text) = heap added_text /\
    selectedObject (bringFront added_text) = Some 3%nat /\
    selectedObject (sendBack added_text) = Some 3%nat /\
    form (bringFront added_text) = form added_text /\
    form (sendBack added_text) = form added_text /\
    bringFront (bringFront added_text) = bringFront added_text /\
    sendBack (sendBack added_text) = sendBack added_text /\
    sendBack (bringFront added_text) = sendBack added_text /\
    bringFront (sendBack added_text) = bringFront added_text.
Proof.
  apply (reorder_selected fabric_rt content_plain sample_box added_text 3%nat
           added_text_reachable).
  vm_compute. reflexivity.
Defined.

(** ** The fit of the base image *)

(** X4: for every decoded image and page of positive size the factor
    computed by [imgEl.onload] is the smaller of [width/imageWidth] and
    [height/imageHeight], whether the image is wider than the page, taller,
    or of the same ratio: a contain fit in every case.  The factor is
    positive. *)
Theorem image_scale_fits (iw ih width height : Q) :
  0 < iw -> 0 < ih -> 0 < width -> 0 < height ->
  image_scale iw ih width height == Qmin (width / iw) (height / ih) /\
  (image_scale iw ih width height = width / iw \/
   image_scale iw ih width height = height / ih) /\
  0 < image_scale iw ih width height /\
  image_scale iw ih width height <= width / iw /\
  image_scale iw ih width height <= height / ih.
Proof.
  intros Hiw Hih Hw Hh.
  assert (forall z a b, 0 < b -> b * z <= a -> z <= a / b) as Hdiv.
  { intros z a b Hb Hz. apply Qle_shift_div_l; [exact Hb | lra]. }
  pose proof (div_pos width iw Hiw Hw) as P1.
  pose proof (div_pos height ih Hih Hh) as P2.
  unfold image_scale. destruct (gt (iw / ih) (width / height)) eqn:Hg.
  - apply gt_true in Hg.
    pose proof (cross_mult _ _ _ _ Hh Hih Hg) as Hx.
    assert (width / iw <= height / ih) as Hle.
    { apply Hdiv; [exact Hih |].
      assert (ih * (width / iw) == width * ih / iw) as -> by (field; lra).
      apply Qle_shift_div_r; [exact Hiw | lra]. }
    split; [symmetry; apply Q.min_l; exact Hle |].
    split; [left; reflexivity |].
    split; [exact P1 |].
    split; [apply Qle_refl | exact Hle].
  - assert (iw / ih <= width / height) as Hg'.
    { apply Qnot_lt_le. intros Hlt. apply gt_true in Hlt. congruence. }
    assert (height / ih <= width / iw) as Hle.
    { apply Hdiv; [exact Hiw |].
      assert (iw * (height / ih) == iw / ih * height) as -> by (field; lra).
      assert (width == width / height * height) as E by (field; lra).
      rewrite E. apply Qmult_le_compat_r; [exact Hg' | lra]. }
    split; [symmetry; apply Q.min_r; exact Hle |].
    split; [right; reflexivity |].
    split; [exact P2 |].
    split; [exact Hle | apply Qle_refl].
Qed.

Lemma image_scale_fits_witness :
  image_scale 600 1200 794 1123 == Qmin (794 / 600) (1123 / 1200) /\
  (image_scale 600 1200 794 1123 = 794 / 600 \/
   image_scale 600 1200 794 1123 = 1123 / 1200) /\
  0 < image_scale 600 1200 794 1123 /\
  image_scale 600 1200 794 1123 <= 794 / 600 /\
  image_scale 600 1200 794 1123 <= 1123 / 1200.
Proof.
  apply (image_scale_fits 600 1200 794 1123); reflexivity.
Defined.

(** ** Viewport *)

(** X5: a resize touches the rendering transform only.  [resizeCanvas] sets
    the canvas to the logical (unscaled) page size and to the new zoom
    [min(cw/pw, ch/ph)], and leaves the object list, every object (so all
    coordinates stay in page units), the selection, the form and the
    pending decodes as they were. *)
Theorem resizeCanvas_frame (s : State) (c : Canvas) (d : Dims) (cw ch : Q) :
  canvas s = Some c ->
  container s = Some (cw, ch) ->
  getCanvasDimensions (posterSize s) (orientation s) = Some d ->
  exists s' c',
    resizeCanvas s = Some s' /\
    canvas s' = Some c' /\
    cdims c' = d /\
    czoom c' = zoom s' /\
    zoom s' = Qmin (cw / w d) (ch / h d) /\
    objects c' = objects c /\
    heap s' = heap s /\
    selectedObject s' = selectedObject s /\
    form s' = form s /\
    pending s' = pending s.
Proof.
  intros Hc Hbox Hd.
  unfold resizeCanvas. rewrite Hd; simpl. rewrite Hbox, Hc.
  eexists. eexists. split; [reflexivity |]. simpl.
  repeat split.
Qed.

Lemma resizeCanvas_frame_witness :
  exists s' c',
    resizeCanvas (mounted_in 1000 800) = Some s' /\
    canvas s' = Some c' /\
    cdims c' = {| w := 794; h := 1123 |} /\
    czoom c' = zoom s' /\
    zoom s' = Qmin (1000 / 794) (800 / 1123) /\
    objects c' = [] /\
    heap s' = heap (mounted_in 1000 800) /\
    selectedObject s' = selectedObject (mounted_in 1000 800) /\
    form s' = form (mounted_in 1000 800) /\
    pending s' = pending (mounted_in 1000 800).
Proof.
  apply (resizeCanvas_frame (mounted_in 1000 800)
           {| objects := []; cdims := {| w := 794; h := 1123 |}; czoom := 1 |}
           {| w := 794; h := 1123 |} 1000 800); reflexivity.
Defined.

(** ** Page geometry, again *)

(** X6: for a poster size that is not the name of a member every object
    inherits, [getCanvasDimensions] fails (the TypeError of [base.w])
    exactly when the size is not one of the five table keys; every size it
    returns has positive width and height, and the landscape size of a key
    is its portrait size with width and height exchanged. *)
Theorem getCanvasDimensions_defined (key : string) :
  ~ In key Object_prototype_keys ->
  (forall o, getCanvasDimensions key o = None <->
             ~ In key ["Letter"; "A4"; "A5"; "A6"; "Postcard"]) /\
  (forall o d, getCanvasDimensions key o = Some d -> 0 < w d /\ 0 < h d) /\
  getCanvasDimensions key landscape
  = (fun d => {| w := h d; h := w d |}) <$> getCanvasDimensions key portrait.
Proof.
  intros _. split; [| split].
  - intros o. unfold getCanvasDimensions; simpl.
    repeat match goal with
           | |- context [String.eqb key ?k] =>
               destruct (String.eqb_spec key k) as [-> | ?];
               [split; [discriminate | intros H; exfalso; apply H; simpl; tauto] |]
           end.
    split; [| reflexivity].
    intros _ [H | [H | [H | [H | [H | []]]]]]; congruence.
  - intros o d. apply getCanvasDimensions_pos.
  - unfold getCanvasDimensions; simpl.
    repeat (destruct (String.eqb key _); [reflexivity |]). reflexivity.
Qed.

Lemma getCanvasDimensions_defined_witness :
  getCanvasDimensions "Tabloid" portrait = None /\
  (forall d, getCanvasDimensions "A4" landscape = Some d -> 0 < w d /\ 0 < h d).
Proof.
  assert (~ In "Tabloid" Object_prototype_keys) as H1 by (simpl; intuition discriminate).
  assert (~ In "A4" Object_prototype_keys) as H2 by (simpl; intuition discriminate).
  split.
  - apply (proj2 (proj1 (getCanvasDimensions_defined "Tabloid" H1) portrait)).
    simpl. intuition discriminate.
  - intros d. apply (proj1 (proj2 (getCanvasDimensions_defined "A4" H2))).
Defined.

(** ** The poster size of a session *)

(** The parts of the state only the size and orientation selects and the
    [content] prop change. *)
Lemma settings_resizeCanvas s s' :
  resizeCanvas s = Some s' ->
  posterSize s' = posterSize s /\ orientation s' = orientation s /\ content s' = content s /\
  (canvas s' = None <-> canvas s = None).
Proof.
  unfold resizeCanvas.
  destruct (getCanvasDimensions _ _) as [d |]; simpl; [| discriminate].
  destruct (container s) as [[cw ch] |]; [| intros [= <-]; tauto].
  destruct (canvas s) as [c |] eqn:Hc; intros [= <-]; simpl; rewrite ?Hc; try tauto.
  repeat split; discriminate.
Qed.

Lemma settings_resize_effect s s' :
  resize_effect s = Some s' ->
  posterSize s' = posterSize s /\ orientation s' = orientation s /\ content s' = content s /\
  (canvas s' = None <-> canvas s = None).
Proof.
  unfold resize_effect.
  destruct (canvas s) eqn:Hc; [destruct (container s) |];
    try (intros [= <-]; rewrite ?Hc; tauto).
  intros H. destruct (settings_resizeCanvas _ _ H) as (H1 & H2 & H3 & H4).
  rewrite Hc in H4. tauto.
Qed.

Lemma settings_addText rt d text pos extra s s' :
  addText rt d text pos extra s = Some s' ->
  posterSize s' = posterSize s /\ orientation s' = orientation s /\ content s' = content s.
Proof.
  unfold addText. destruct pos; [| discriminate]. intros [= <-].
  unfold canvas_add, with_objects, alloc; simpl. destruct (canvas s); auto.
Qed.

Lemma settings_loadContent rt s s' :
  loadContent rt s = Some s' ->
  posterSize s' = posterSize s /\ orientation s' = orientation s /\ content s' = content s.
Proof.
  unfold loadContent.
  destruct (canvas s) as [c |] eqn:Hc; [| intros [= <-]; auto].
  destruct (getCanvasDimensions _ _) as [d |]; simpl; [| discriminate].
  intros H.
  destruct (addText rt d (headline _) _ _ _) as [s3 |] eqn:H3; simpl in H; [| discriminate].
  destruct (addText rt d (tagline _) _ _ _) as [s4 |] eqn:H4; simpl in H; [| discriminate].
  destruct (settings_addText _ _ _ _ _ _ _ H) as (A1 & A2 & A3).
  destruct (settings_addText _ _ _ _ _ _ _ H4) as (B1 & B2 & B3).
  destruct (settings_addText _ _ _ _ _ _ _ H3) as (C1 & C2 & C3).
  rewrite A1, A2, A3, B1, B2, B3, C1, C2, C3.
  destruct (head (images_b64 (content s))) as [img |];
    [destruct (negb (String.eqb img EmptyString)) |];
    unfold with_pending, canvas_clear, handleClear, with_objects; simpl; rewrite Hc; auto.
Qed.

Lemma settings_rerun_effects rt s s' :
  rerun_effects rt s = Some s' ->
  posterSize s' = posterSize s /\ orientation s' = orientation s /\ content s' = content s.
Proof.
  unfold rerun_effects. intros H.
  destruct (getCanvasDimensions _ _) as [d |]; simpl in H; [| discriminate].
  destruct (resize_effect s) as [s1 |] eqn:H1; simpl in H; [| discriminate].
  destruct (settings_resize_effect _ _ H1) as (A1 & A2 & A3 & _).
  destruct (settings_loadContent _ _ _ H) as (B1 & B2 & B3).
  rewrite B1, B2, B3. auto.
Qed.

Lemma posterSize_with_objects f s : posterSize (with_objects f s) = posterSize s.
Proof. unfold with_objects. destruct (canvas s); reflexivity. Qed.

Lemma posterSize_handleSelect sel s : posterSize (handleSelect sel s) = posterSize s.
Proof.
  unfold handleSelect. destruct (head sel) as [i |]; [| reflexivity].
  destruct (heap s !! i) as [tb |]; [destruct (type tb) |]; reflexivity.
Qed.

Lemma posterSize_updateSelected rt prop val s :
  posterSize (updateSelected rt prop val s) = posterSize s.
Proof.
  unfold updateSelected. destruct (selectedObject s) as [i |]; [| reflexivity].
  destruct (heap s !! i) as [o |]; [destruct (type o) |]; reflexivity.
Qed.

Lemma posterSize_step rt s s' :
  step rt s s' ->
  In (posterSize s) (map fst BASE_SIZES) -> In (posterSize s') (map fst BASE_SIZES).
Proof.
  intros Hstep Hin. destruct Hstep.
  - unfold mount in *.
    destruct (getCanvasDimensions _ _) as [d |]; simpl in *; [| discriminate].
    destruct (resize_effect _) as [s1 |] eqn:H1; simpl in *; [| discriminate].
    destruct (settings_resize_effect _ _ H1) as (A1 & _).
    destruct (settings_loadContent _ _ _ H0) as (B1 & _).
    rewrite B1, A1. exact Hin.
  - destruct (settings_resizeCanvas _ _ H3) as (A1 & _). rewrite A1. exact Hin.
  - unfold onChange_posterSize in *.
    destruct (String.eqb key (posterSize s));
      [match goal with H : Some _ = Some _ |- _ => injection H as <- end; exact Hin |].
    destruct (settings_rerun_effects _ _ _ H0) as (A1 & _). rewrite A1. exact H.
  - unfold onChange_orientation in *.
    destruct o, (orientation s);
      first [ match goal with H : Some _ = Some _ |- _ => injection H as <- end; exact Hin
            | destruct (settings_rerun_effects _ _ _ H) as (A1 & _); rewrite A1; exact Hin ].
  - destruct (settings_loadContent _ _ _ H) as (A1 & _). rewrite A1. exact Hin.
  - unfold imgEl_onload, canvas_sendObjectToBack, canvas_add.
    rewrite !posterSize_with_objects. exact Hin.
  - exact Hin.
  - rewrite posterSize_handleSelect. exact Hin.
  - exact Hin.
  - unfold handleAddText, canvas_setActiveObject, canvas_add.
    destruct (canvas s); [| exact Hin].
    rewrite posterSize_handleSelect, posterSize_with_objects. exact Hin.
  - unfold upload_onload, canvas_setActiveObject, canvas_add.
    rewrite posterSize_handleSelect, posterSize_with_objects. exact Hin.
  - unfold handleDelete, canvas_remove, handleClear.
    destruct (canvas s); [| exact Hin].
    destruct (selectedObject s) as [i |]; [| exact Hin].
    rewrite Nat.eqb_refl. simpl. rewrite posterSize_with_objects. exact Hin.
  - unfold bringFront, canvas_bringObjectToFront.
    destruct (selectedObject s); rewrite ?posterSize_with_objects; exact Hin.
  - unfold sendBack, canvas_sendObjectToBack.
    destruct (selectedObject s); rewrite ?posterSize_with_objects; exact Hin.
  - unfold flipHorizontal, flip_selected.
    destruct (selectedObject s) as [i |]; [destruct (heap s !! i) |]; exact Hin.
  - unfold flipVertical, flip_selected.
    destruct (selectedObject s) as [i |]; [destruct (heap s !! i) |]; exact Hin.
  - destruct c; simpl; rewrite posterSize_updateSelected; exact Hin.
Qed.

Lemma reachable_posterSize rt c box s :
  reachable rt c box s -> In (posterSize s) (map fst BASE_SIZES).
Proof.
  induction 1 as [| s s' _ IH Hstep]; [simpl; tauto |].
  eapply posterSize_step; eassumption.
Qed.

Lemma getCanvasDimensions_Some key o :
  In key (map fst BASE_SIZES) -> exists d, getCanvasDimensions key o = Some d.
Proof.
  simpl. intros [<- | [<- | [<- | [<- | [<- | []]]]]]; eexists; reflexivity.
Qed.

(** X7: in every state of a session the poster size is one of the table
    keys, so the page geometry is defined and positive, and a window resize
    never throws, whatever size the container reports. *)
Theorem resize_never_throws (rt : Runtime) (c : Content) (box : option (Q * Q)) (s : State) :
  reachable rt c box s ->
  In (posterSize s) ["Letter"; "A4"; "A5"; "A6"; "Postcard"] /\
  (exists d,
     getCanvasDimensions (posterSize s) (orientation s) = Some d /\ 0 < w d /\ 0 < h d) /\
  (forall cw ch, exists s', onWindowResize cw ch s = Some s') /\
  (exists s', resize_effect s = Some s').
Proof.
  intros Hr. pose proof (reachable_posterSize _ _ _ _ Hr) as Hin.
  destruct (getCanvasDimensions_Some _ (orientation s) Hin) as [d Hd].
  split; [exact Hin |].
  split; [exists d; split; [exact Hd | eapply getCanvasDimensions_pos, Hd] |].
  split.
  - intros cw ch. unfold onWindowResize, resizeCanvas; simpl. rewrite Hd; simpl.
    destruct (canvas s); eexists; reflexivity.
  - unfold resize_effect, resizeCanvas. rewrite Hd; simpl.
    destruct (canvas s); [destruct (container s) as [[cw ch] |] |]; eexists; reflexivity.
Qed.

Lemma resize_never_throws_witness :
  exists s', onWindowResize 1280 720 reselected = Some s'.
Proof.
  destruct (resize_never_throws fabric_rt content_plain sample_box reselected
              reselected_reachable) as (_ & _ & H & _).
  exact (H 1280 720).
Defined.

Lemma resize_effect_succeeds s :
  In (posterSize s) (map fst BASE_SIZES) -> exists s', resize_effect s = Some s'.
Proof.
  intros Hin. destruct (getCanvasDimensions_Some _ (orientation s) Hin) as [d Hd].
  unfold resize_effect, resizeCanvas. rewrite Hd; simpl.
  destruct (canvas s); [destruct (container s) as [[cw ch] |] |]; eexists; reflexivity.
Qed.

Lemma loadContent_succeeds rt s ph pt pc :
  In (posterSize s) (map fst BASE_SIZES) ->
  layout_of (content s) !! "headline" = Some ph ->
  layout_of (content s) !! "tagline" = Some pt ->
  layout_of (content s) !! "cta_text" = Some pc ->
  exists s', loadContent rt s = Some s'.
Proof.
  intros Hin Hh Ht Hc.
  destruct (getCanvasDimensions_Some _ (orientation s) Hin) as [d Hd].
  destruct (canvas s) as [cv |] eqn:Hcv.
  - destruct (loadContent_layout rt s d ph pt pc) as (s' & H & _); try assumption.
    + rewrite Hcv. discriminate.
    + exists s'. exact H.
  - exists s. unfold loadContent. rewrite Hcv. reflexivity.
Qed.

Lemma rerun_effects_succeeds rt s ph pt pc :
  In (posterSize s) (map fst BASE_SIZES) ->
  layout_of (content s) !! "headline" = Some ph ->
  layout_of (content s) !! "tagline" = Some pt ->
  layout_of (content s) !! "cta_text" = Some pc ->
  exists s', rerun_effects rt s = Some s'.
Proof.
  intros Hin Hh Ht Hc.
  destruct (getCanvasDimensions_Some _ (orientation s) Hin) as [d Hd].
  destruct (resize_effect_succeeds s Hin) as [s1 H1].
  destruct (settings_resize_effect _ _ H1) as (A1 & A2 & A3 & _).
  destruct (loadContent_succeeds rt s1 ph pt pc) as [s' H']; rewrite ?A1, ?A3; try assumption.
  exists s'. unfold rerun_effects. rewrite Hd; simpl. rewrite H1; simpl. exact H'.
Qed.

(** X8: a session whose content has no [layout_json], or one with an entry
    for each of [headline], [tagline] and [cta_text], survives every
    rebuild: changing the poster size to any table key, changing the
    orientation and re-delivering the content all succeed without a
    TypeError. *)
Theorem rebuild_never_throws (rt : Runtime) (c : Content) (box : option (Q * Q))
    (s : State) (ph pt pc : Pos) :
  reachable rt c box s ->
  layout_of (content s) !! "headline" = Some ph ->
  layout_of (content s) !! "tagline" = Some pt ->
  layout_of (content s) !! "cta_text" = Some pc ->
  (forall key, In key ["Letter"; "A4"; "A5"; "A6"; "Postcard"] ->
     exists s', onChange_posterSize rt key s = Some s') /\
  (forall o, exists s', onChange_orientation rt o s = Some s') /\
  (exists s', onContent rt (content s) s = Some s') /\
  (forall c', layout_json c' = None -> exists s', onContent rt c' s = Some s').
Proof.
  intros Hr Hh Ht Hc. pose proof (reachable_posterSize _ _ _ _ Hr) as Hin.
  split; [| split; [| split]].
  - intros key Hkey. unfold onChange_posterSize.
    destruct (String.eqb key (posterSize s)); [eexists; reflexivity |].
    apply (rerun_effects_succeeds rt _ ph pt pc); assumption.
  - intros o. unfold onChange_orientation.
    destruct o, (orientation s); try (eexists; reflexivity);
      apply (rerun_effects_succeeds rt _ ph pt pc); assumption.
  - unfold onContent. apply (loadContent_succeeds rt _ ph pt pc); assumption.
  - intros c' Hc'. unfold onContent.
    apply (loadContent_succeeds rt _ {| x := 10; y := 15 |} {| x := 10; y := 25 |}
             {| x := 10; y := 35 |}); try assumption;
      unfold layout_of; simpl; rewrite Hc'; reflexivity.
Qed.

Lemma rebuild_never_throws_witness :
  (forall key, In key ["Letter"; "A4"; "A5"; "A6"; "Postcard"] ->
     exists s', onChange_posterSize fabric_rt key reselected = Some s') /\
  (forall o, exists s', onChange_orientation fabric_rt o reselected = Some s').
Proof.
  assert (layout_of (content reselected) !! "headline" = Some {| x := 10; y := 15 |}) as Hh
      by (vm_compute; reflexivity).
  assert (layout_of (content reselected) !! "tagline" = Some {| x := 10; y := 25 |}) as Ht
      by (vm_compute; reflexivity).
  assert (layout_of (content reselected) !! "cta_text" = Some {| x := 10; y := 35 |}) as Hc
      by (vm_compute; reflexivity).
  destruct (rebuild_never_throws fabric_rt content_plain sample_box reselected
              {| x := 10; y := 15 |} {| x := 10; y := 25 |} {| x := 10; y := 35 |}
              reselected_reachable Hh Ht Hc) as (H1 & H2 & _).
  exact (conj H1 H2).
Defined.

(** ** Selecting and deselecting *)

(** X9: a selection event changes the selection and the form only: canvas,
    objects, zoom and pending decodes stay.  An empty payload selects
    nothing and leaves the form alone, and so does the selection of an
    Image.  Deselecting after the selection of a TextBox restores Scene and
    selection, but not the form: its seven copied fields keep the values of
    that TextBox. *)
Theorem select_then_clear (sel : list nat) (s : State) :
  canvas (handleSelect sel s) = canvas s /\
  heap (handleSelect sel s) = heap s /\
  zoom (handleSelect sel s) = zoom s /\
  pending (handleSelect sel s) = pending s /\
  selectedObject (handleSelect sel s) = head sel /\
  (head sel = None -> form (handleSelect sel s) = form s) /\
  (forall i o, head sel = Some i -> heap s !! i = Some o -> type o = image ->
     form (handleSelect sel s) = form s) /\
  scene (handleClear (handleSelect sel s)) = scene s /\
  heap (handleClear (handleSelect sel s)) = heap s /\
  selectedObject (handleClear (handleSelect sel s)) = None /\
  (forall i tb, head sel = Some i -> heap s !! i = Some tb -> type tb = textbox ->
     mirrors (form (handleClear (handleSelect sel s))) tb /\
     bgColor (form (handleClear (handleSelect sel s))) = bgColor (form s) /\
     bgOpacity (form (handleClear (handleSelect sel s))) = bgOpacity (form s) /\
     strokeColor (form (handleClear (handleSelect sel s))) = strokeColor (form s) /\
     strokeWidth (form (handleClear (handleSelect sel s))) = strokeWidth (form s) /\
     shadowColor (form (handleClear (handleSelect sel s))) = shadowColor (form s) /\
     shadowBlur (form (handleClear (handleSelect sel s))) = shadowBlur (form s)).
Proof.
  unfold handleClear, handleSelect, scene.
  destruct (head sel) as [i |] eqn:Hsel; simpl;
    [destruct (heap s !! i) as [tb |] eqn:Hh; [destruct (type tb) eqn:Ht |] |]; simpl;
    repeat match goal with |- _ /\ _ => split end;
    try reflexivity; try discriminate;
    try (intros j o Hj Ho Hty; injection Hj as <-; rewrite Ho in Hh;
         first [ discriminate Hh
               | injection Hh as <-; first [congruence | repeat split] ]).
Qed.

Lemma select_then_clear_witness :
  mirrors (form (handleClear (handleSelect [0%nat] added_text))) (object_at added_text 0) /\
  strokeWidth (form (handleClear (handleSelect [0%nat] added_text)))
  = strokeWidth (form added_text).
Proof.
  assert (heap added_text !! 0%nat = Some (object_at added_text 0)) as Hh
      by (vm_compute; reflexivity).
  assert (type (object_at added_text 0) = textbox) as Ht by (vm_compute; reflexivity).
  destruct (select_then_clear [0%nat] added_text) as (_ & _ & _ & _ & _ & _ & _ & _ & _ & _ & H).
  destruct (H 0%nat (object_at added_text 0) eq_refl Hh Ht) as (H1 & _ & _ & _ & H5 & _).
  exact (conj H1 H5).
Defined.

(** ** Rebuilding the Scene *)



(** X11: a layout hint within 0 to 100 percent puts the origin of its
    caption on the page: between 0 and the page width horizontally and
    between 0 and the page height vertically. *)
Theorem caption_origin_on_page (rt : Runtime) (s : State) (d : Dims) (ph pt pc : Pos) :
  canvas s <> None ->
  getCanvasDimensions (posterSize s) (orientation s) = Some d ->
  layout_of (content s) !! "headline" = Some ph ->
  layout_of (content s) !! "tagline" = Some pt ->
  layout_of (content s) !! "cta_text" = Some pc ->
  Forall (fun p => 0 <= x p /\ x p <= 100 /\ 0 <= y p /\ y p <= 100) [ph; pt; pc] ->
  exists s',
    loadContent rt s = Some s' /\
    forall i, i ∈ scene s' ->
      exists o left top,
        heap s' !! i = Some o /\
        get o "left" = VNum left /\ get o "top" = VNum top /\
        0 <= left /\ left <= w d /\ 0 <= top /\ top <= h d.
Proof.
  intros Hc Hd Hh Ht Hcta Hrange.
  destruct (getCanvasDimensions_pos _ _ _ Hd) as [Hw Hhh].
  destruct (loadContent_layout rt s d ph pt pc Hc Hd Hh Ht Hcta)
    as (s' & Hload & Hscene & P1 & P2 & P3).
  exists s'. split; [exact Hload |].
  assert (forall p, 0 <= x p /\ x p <= 100 /\ 0 <= y p /\ y p <= 100 ->
            0 <= x p / 100 * w d /\ x p / 100 * w d <= w d /\
            0 <= y p / 100 * h d /\ y p / 100 * h d <= h d) as Hin.
  { intros p (X0 & X1 & Y0 & Y1).
    assert (0 <= x p / 100 /\ x p / 100 <= 1) as [A0 A1].
    { split; [apply Qle_shift_div_l; lra | apply Qle_shift_div_r; lra]. }
    assert (0 <= y p / 100 /\ y p / 100 <= 1) as [B0 B1].
    { split; [apply Qle_shift_div_l; lra | apply Qle_shift_div_r; lra]. }
    repeat split.
    - apply Qmult_le_0_compat; lra.
    - rewrite <- (Qmult_1_l (w d)) at 2. apply Qmult_le_compat_r; lra.
    - apply Qmult_le_0_compat; lra.
    - rewrite <- (Qmult_1_l (h d)) at 2. apply Qmult_le_compat_r; lra. }
  inversion Hrange as [| ? ? R1 Hr1]; subst.
  inversion Hr1 as [| ? ? R2 Hr2]; subst.
  inversion Hr2 as [| ? ? R3 _]; subst.
  intros i Hi. rewrite Hscene in Hi.
  repeat (apply elem_of_cons in Hi; destruct Hi as [-> | Hi]);
    [ destruct P1 as (o & Ho & _ & Hl & Htop); destruct (Hin _ R1) as (? & ? & ? & ?)
    | destruct P2 as (o & Ho & _ & Hl & Htop); destruct (Hin _ R2) as (? & ? & ? & ?)
    | destruct P3 as (o & Ho & _ & Hl & Htop); destruct (Hin _ R3) as (? & ? & ? & ?)
    | inversion Hi ];
    (exists o; do 2 eexists; repeat split; eassumption).
Qed.

Lemma caption_origin_on_page_witness :
  exists s',
    loadContent fabric_rt reselected = Some s' /\
    forall i, i ∈ scene s' ->
      exists o left top,
        heap s' !! i = Some o /\
        get o "left" = VNum left /\ get o "top" = VNum top /\
        0 <= left /\ left <= 794 /\ 0 <= top /\ top <= 1123.
Proof.
  apply (caption_origin_on_page fabric_rt reselected {| w := 794; h := 1123 |}
           {| x := 10; y := 15 |} {| x := 10; y := 25 |} {| x := 10; y := 35 |});
    try (vm_compute; reflexivity); try (vm_compute; discriminate).
  repeat constructor; simpl; intros H; discriminate H.
Defined.

(** ** The form of a session *)














(** ** Uploading an image *)

(** X13: an uploaded image, once decoded, is put in front of every other
    object at (50, 50) at half scale and becomes the selection; the objects
    that were there are not modified.  As an Image is selected, the form is
    left alone and style writes have no effect on the state. *)
Theorem upload_onload_spec (rt : Runtime) (c : Content) (box : option (Q * Q))
    (s : State) (iw ih : Q) :
  reachable rt c box s -> canvas s <> None ->
  exists img,
    heap (upload_onload rt iw ih s) !! next s = Some img /\
    type img = image /\
    get img "left" = VNum 50 /\ get img "top" = VNum 50 /\
    get img "scaleX" = VNum 0.5 /\ get img "scaleY" = VNum 0.5 /\
    get img "width" = VNum iw /\ get img "height" = VNum ih /\
    scene (upload_onload rt iw ih s) = scene s ++ [next s] /\
    selectedObject (upload_onload rt iw ih s) = Some (next s) /\
    form (upload_onload rt iw ih s) = form s /\
    (forall i, (i < next s)%nat -> heap (upload_onload rt iw ih s) !! i = heap s !! i) /\
    (forall prop val,
       updateSelected rt prop val (upload_onload rt iw ih s) = upload_onload rt iw ih s).
Proof.
  intros Hr Hc. destruct (canvas s) as [cv |] eqn:Hcv; [| contradiction].
  unfold upload_onload, canvas_setActiveObject.
  set (img := new_Image rt iw ih _).
  set (s1 := canvas_add (next s) (alloc img s)).
  assert (heap s1 = <[next s := img]> (heap s)) as Hh1 by apply heap_alloc_add.
  assert (heap s1 !! next s = Some img) as Hl by (rewrite Hh1; apply lookup_insert_eq).
  destruct (handleSelect_core (next s) s1) as (Hcan & Hheap & _ & _ & Hsel).
  assert (handleSelect [next s] s1 = setSelectedObject (Some (next s)) s1) as Hs.
  { unfold handleSelect; simpl. rewrite Hl. reflexivity. }
  exists img. rewrite Hheap.
  split; [exact Hl |]. split; [reflexivity |].
  do 6 (split; [subst img; read_attr |]).
  split.
  { rewrite scene_handleSelect. unfold s1. rewrite (scene_alloc_add img s cv Hcv).
    unfold scene. rewrite Hcv. reflexivity. }
  split; [exact Hsel |].
  split; [rewrite Hs; unfold s1, canvas_add, with_objects, alloc; simpl; rewrite Hcv;
          reflexivity |].
  split; [intros i Hi; rewrite Hh1; apply lookup_insert_ne; lia |].
  intros prop val. unfold updateSelected. rewrite Hsel, Hheap, Hl. reflexivity.
Qed.

Lemma upload_onload_spec_witness :
  exists img,
    heap (upload_onload fabric_rt 640 480 added_text) !! next added_text = Some img /\
    type img = image /\
    scene (upload_onload fabric_rt 640 480 added_text) = scene added_text ++ [next added_text] /\
    form (upload_onload fabric_rt 640 480 added_text) = form added_text.
Proof.
  assert (canvas added_text <> None) as Hc by (vm_compute; discriminate).
  destruct (upload_onload_spec fabric_rt content_plain sample_box added_text 640 480
              added_text_reachable Hc)
    as (img & H1 & H2 & _ & _ & _ & _ & _ & _ & H9 & _ & H11 & _).
  exists img. exact (conj H1 (conj H2 (conj H9 H11))).
Defined.

(** ** The URL of the base image *)

Lemma append_cons (a : ascii) (s t : string) : String a s +:+ t = String a (s +:+ t).
Proof. reflexivity. Qed.

Lemma append_nil_r (s : string) : s +:+ EmptyString = s.
Proof.
  induction s as [| a s IH]; [reflexivity |].
  rewrite append_cons, IH. reflexivity.
Qed.

Lemma append_assoc (s1 s2 s3 : string) : (s1 +:+ s2) +:+ s3 = s1 +:+ (s2 +:+ s3).
Proof.
  induction s1 as [| a s1 IH]; [reflexivity |].
  rewrite !append_cons, IH. reflexivity.
Qed.

Lemma rev_app_append (s acc : string) : String.rev_app s acc = String.rev s +:+ acc.
Proof.
  unfold String.rev. revert acc.
  induction s as [| a s IH]; intros acc; simpl; [reflexivity |].
  rewrite IH, (IH (String a EmptyString)), append_assoc. reflexivity.
Qed.

Lemma rev_append (s1 s2 : string) :
  String.rev (s1 +:+ s2) = String.rev s2 +:+ String.rev s1.
Proof.
  induction s1 as [| a s1 IH].
  - change (String.rev EmptyString) with EmptyString.
    rewrite append_nil_r. reflexivity.
  - change (String.rev (String a s1 +:+ s2))
      with (String.rev_app (s1 +:+ s2) (String a EmptyString)).
    change (String.rev (String a s1)) with (String.rev_app s1 (String a EmptyString)).
    rewrite (rev_app_append (s1 +:+ s2)), (rev_app_append s1), IH, append_assoc.
    reflexivity.
Qed.

Lemma rev_rev (s : string) : String.rev (String.rev s) = s.
Proof.
  induction s as [| a s IH]; [reflexivity |].
  change (String a s) with (String a EmptyString +:+ s) at 1.
  rewrite rev_append, rev_append, IH. reflexivity.
Qed.

Section Strip.

Variable p2 : ascii -> ascii -> bool.
Variable p3 : ascii -> ascii -> ascii -> bool.

Lemma strip_no_front (s : string) :
  front_space p2 p3 s = false -> strip_spaces p2 p3 s = s.
Proof.
  destruct s as [| a [| b [| c r]]]; simpl; try reflexivity.
  - destruct (is_space a); [discriminate | reflexivity].
  - destruct (is_space a); [discriminate |]. simpl.
    destruct (p2 a b); [discriminate | reflexivity].
  - destruct (is_space a); [discriminate |]. simpl.
    destruct (p2 a b); [discriminate |]. simpl. intros ->. reflexivity.
Qed.

(** Stripping shortens the string when there is white space in front, and
    leaves a string with none in front. *)
Lemma strip_spec (n : nat) (s : string) :
  (String.length s <= n)%nat ->
  front_space p2 p3 (strip_spaces p2 p3 s) = false /\
  (String.length (strip_spaces p2 p3 s) <= String.length s)%nat /\
  (front_space p2 p3 s = true ->
   (String.length (strip_spaces p2 p3 s) < String.length s)%nat) /\
  exists ws, s = ws +:+ strip_spaces p2 p3 s.
Proof.
  revert s. induction n as [| n IH]; intros s Hn.
  - destruct s; [| simpl in Hn; lia]. simpl.
    repeat split; try lia; try discriminate. exists EmptyString. reflexivity.
  - destruct s as [| a r]; simpl.
    { repeat split; try lia; try discriminate. exists EmptyString. reflexivity. }
    simpl in Hn.
    destruct (is_space a) eqn:Ha.
    { destruct (IH r ltac:(lia)) as (F & L & _ & ws & E).
      split; [exact F |]. split; [lia |]. split; [intros _; lia |].
      exists (String a ws). rewrite append_cons, <- E. reflexivity. }
    destruct r as [| b r2].
    { simpl. rewrite Ha. repeat split; try lia; try discriminate.
      exists EmptyString. reflexivity. }
    simpl in Hn.
    destruct (p2 a b) eqn:Hb.
    { destruct (IH r2 ltac:(lia)) as (F & L & _ & ws & E).
      split; [exact F |]. split; [simpl; lia |]. split; [intros _; simpl; lia |].
      exists (String a (String b ws)). rewrite !append_cons, <- E. reflexivity. }
    destruct r2 as [| c r3].
    { simpl. rewrite Ha, Hb. repeat split; try lia; try discriminate.
      exists EmptyString. reflexivity. }
    simpl in Hn.
    destruct (p3 a b c) eqn:Hc.
    { destruct (IH r3 ltac:(lia)) as (F & L & _ & ws & E).
      split; [exact F |]. split; [simpl; lia |]. split; [intros _; simpl; lia |].
      exists (String a (String b (String c ws))). rewrite !append_cons, <- E. reflexivity. }
    simpl. rewrite Ha, Hb, Hc. repeat split; try lia; try discriminate.
    exists EmptyString. reflexivity.
Qed.

Lemma front_strip (s : string) : front_space p2 p3 (strip_spaces p2 p3 s) = false.
Proof. apply (strip_spec (String.length s) s). lia. Qed.

Lemma strip_suffix (s : string) : exists ws, s = ws +:+ strip_spaces p2 p3 s.
Proof. apply (strip_spec (String.length s) s). lia. Qed.

(** White space in front of a string is in front of every extension. *)
Lemma front_append (s t : string) :
  front_space p2 p3 s = true -> front_space p2 p3 (s +:+ t) = true.
Proof.
  destruct s as [| a [| b [| c r]]]; simpl; try discriminate;
    destruct (is_space a); simpl; try reflexivity; try discriminate;
    try (destruct (p2 a b); simpl; try reflexivity; try discriminate);
    intros ->; reflexivity.
Qed.

Lemma front_prefix (s t : string) :
  front_space p2 p3 (s +:+ t) = false -> front_space p2 p3 s = false.
Proof.
  intros H. destruct (front_space p2 p3 s) eqn:E; [| reflexivity].
  rewrite (front_append s t E) in H. discriminate.
Qed.

(** No white space arises across the seam of [s +:+ String c1 (String c2 t)]
    when none ends in [c1], or in [c1] followed by [c2]. *)
Lemma front_seam (s t : string) (c1 c2 : ascii) :
  (forall a, p2 a c1 = false) ->
  (forall a b, p3 a b c1 = false) ->
  (forall a, p3 a c1 c2 = false) ->
  front_space p2 p3 s = false -> front_space p2 p3 (String c1 (String c2 t)) = false ->
  front_space p2 p3 (s +:+ String c1 (String c2 t)) = false.
Proof.
  intros H2 H3 H3' Hs Ht. 
  destruct s as [| a [| b [| c r]]]; simpl in *; [exact Ht | ..];
    destruct (is_space a); simpl in *; try discriminate.
  - rewrite H2, H3'. reflexivity.
  - destruct (p2 a b); simpl in *; [discriminate |]. apply H3.
  - exact Hs.
Qed.

End Strip.

Lemma trim_fixed (t : string) :
  front_space is_space2 is_space3 t = false ->
  front_space (fun a b => is_space2 b a) (fun a b c => is_space3 c b a) (String.rev t)
  = false ->
  trim t = t.
Proof.
  intros H1 H2. unfold trim, trim_start, trim_end.
  rewrite (strip_no_front _ _ t H1), (strip_no_front _ _ _ H2). apply rev_rev.
Qed.

(** A trimmed string has no white space at either end. *)
Lemma trim_ends (s : string) :
  front_space is_space2 is_space3 (trim s) = false /\
  front_space (fun a b => is_space2 b a) (fun a b c => is_space3 c b a)
    (String.rev (trim s)) = false.
Proof.
  unfold trim, trim_end.
  set (u := trim_start s).
  set (y := strip_spaces _ _ (String.rev u)).
  split.
  - destruct (strip_suffix (fun a b => is_space2 b a) (fun a b c => is_space3 c b a)
                (String.rev u)) as [ws E].
    fold y in E.
    assert (u = String.rev y +:+ String.rev ws) as Hu.
    { rewrite <- rev_append, <- E, rev_rev. reflexivity. }
    apply (front_prefix _ _ (String.rev y) (String.rev ws)). rewrite <- Hu.
    apply front_strip.
  - rewrite rev_rev. apply front_strip.
Qed.

Lemma trim_idemp (s : string) : trim (trim s) = trim s.
Proof. apply trim_fixed; apply trim_ends. Qed.

Lemma imgUrl_prefix (s : string) : String.prefix "data:image" (imgUrl s) = true.
Proof.
  unfold imgUrl.
  destruct (String.prefix "data:image" (trim s)) eqn:Hp; [exact Hp |].
  destruct (String.prefix "iVBOR" (trim s)); reflexivity.
Qed.

Ltac reversed p :=
  let r := eval vm_compute in (String.rev p) in
  change (String.rev p) with r.

Lemma imgUrl_trimmed (s : string) : trim (imgUrl s) = imgUrl s.
Proof.
  unfold imgUrl.
  destruct (String.prefix "data:image" (trim s)); [apply trim_idemp |].
  destruct (String.prefix "iVBOR" (trim s));
    (apply trim_fixed; [reflexivity |]; rewrite rev_append).
  - reversed "data:image/png;base64,".
    apply front_seam; try (intros; reflexivity). apply trim_ends.
  - reversed "data:image/jpeg;base64,".
    apply front_seam; try (intros; reflexivity). apply trim_ends.
Qed.

Lemma is_space2_lead (a b : ascii) : is_space2 a b = true -> is_space a = false.
Proof.
  unfold is_space2, is_space. intros H.
  apply andb_true_iff in H as [Ha _]. apply Nat.eqb_eq in Ha. rewrite Ha. reflexivity.
Qed.

Lemma is_space3_lead (a b c : ascii) :
  is_space3 a b c = true -> is_space a = false /\ is_space2 a b = false.
Proof.
  unfold is_space3, is_space2, is_space. cbv zeta. intros H.
  repeat (apply orb_true_iff in H as [H | H]);
    apply andb_true_iff in H as [Ha _]; apply Nat.eqb_eq in Ha; rewrite Ha;
    split; reflexivity.
Qed.

(** X14: whatever string the first image is, the URL given to the image
    element starts with [data:image].  Building the URL is idempotent and
    ignores the white space around the string, of one, two or three bytes;
    a string that is empty once trimmed - for instance one of spaces only,
    which the content effect does not skip - becomes the JPEG data URL with
    an empty payload. *)
Theorem imgUrl_data_url (firstImg : string) :
  String.prefix "data:image" (imgUrl firstImg) = true /\
  imgUrl (imgUrl firstImg) = imgUrl firstImg /\
  imgUrl (trim firstImg) = imgUrl firstImg /\
  (forall a, is_space a = true -> imgUrl (String a firstImg) = imgUrl firstImg) /\
  (forall a b, is_space2 a b = true ->
     imgUrl (String a (String b firstImg)) = imgUrl firstImg) /\
  (forall a b c, is_space3 a b c = true ->
     imgUrl (String a (String b (String c firstImg))) = imgUrl firstImg) /\
  (trim firstImg = EmptyString -> imgUrl firstImg = "data:image/jpeg;base64,").
Proof.
  split; [apply imgUrl_prefix |].
  split.
  { unfold imgUrl at 1. rewrite imgUrl_trimmed, imgUrl_prefix. reflexivity. }
  split; [unfold imgUrl; rewrite trim_idemp; reflexivity |].
  split.
  { intros a Ha. unfold imgUrl, trim, trim_start. simpl. rewrite Ha. reflexivity. }
  split.
  { intros a b Hab. unfold imgUrl, trim, trim_start. simpl.
    rewrite (is_space2_lead a b Hab), Hab. reflexivity. }
  split.
  { intros a b c H. destruct (is_space3_lead a b c H) as [Ha Hab].
    unfold imgUrl, trim, trim_start. simpl. rewrite Ha, Hab, H. reflexivity. }
  intros H. unfold imgUrl. rewrite H. reflexivity.
Qed.

Lemma imgUrl_data_url_witness :
  imgUrl (String "194" (String "160" "iVBORw0KGgo=")) = "data:image/png;base64,iVBORw0KGgo=" /\
  imgUrl "  " = "data:image/jpeg;base64,".
Proof.
  destruct (imgUrl_data_url "iVBORw0KGgo=") as (_ & _ & _ & _ & H5 & _).
  destruct (imgUrl_data_url "  ") as (_ & _ & _ & _ & _ & _ & H7).
  split; [rewrite (H5 "194"%char "160"%char eq_refl); reflexivity | apply H7; reflexivity].
Defined.

(** ** The refinement merge *)

(** X15: the merge of a refinement.  Refining one element replaces that
    element and nothing else; refining "all" is the three single merges one
    after the other, in any order.  The images are never lost: an answer
    without images, or with an empty list, keeps the current ones.  Merging
    the same answer twice is the same as merging it once. *)
Theorem mergedContent_spec (data content : Refinable) :
  mergedContent el_layout data content
  = {| r_layout_json := r_layout_json data;
       r_captions := r_captions content;
       r_visual_prompt := r_visual_prompt content;
       r_images_b64 := r_images_b64 content |} /\
  mergedContent el_captions data content
  = {| r_layout_json := r_layout_json content;
       r_captions := r_captions data;
       r_visual_prompt := r_visual_prompt content;
       r_images_b64 := r_images_b64 content |} /\
  r_layout_json (mergedContent el_images data content) = r_layout_json content /\
  r_captions (mergedContent el_images data content) = r_captions content /\
  mergedContent el_all data content
  = mergedContent el_layout data
      (mergedContent el_captions data (mergedContent el_images data content)) /\
  mergedContent el_all data content
  = mergedContent el_images data
      (mergedContent el_captions data (mergedContent el_layout data content)) /\
  (forall el,
     has_length (r_images_b64 content) = true ->
     has_length (r_images_b64 (mergedContent el data content)) = true) /\
  (forall el,
     has_length (r_images_b64 data) = false ->
     r_images_b64 (mergedContent el data content) = r_images_b64 content) /\
  (forall el,
     mergedContent el data (mergedContent el data content) = mergedContent el data content).
Proof.
  repeat match goal with |- _ /\ _ => split end; try reflexivity.
  - intros el Hc. destruct el; simpl; try exact Hc;
      destruct (has_length (r_images_b64 data)) eqn:Hd; assumption.
  - intros el Hd. destruct el; simpl; rewrite ?Hd; reflexivity.
  - intros el. destruct el; unfold mergedContent; simpl; try reflexivity;
      destruct (has_length (r_images_b64 data)) eqn:Hd; rewrite ?Hd; reflexivity.
Qed.

Lemma mergedContent_spec_witness :
  has_length (r_images_b64 (mergedContent el_all sample_answer sample_parts)) = true /\
  r_images_b64 (mergedContent el_all sample_answer sample_parts)
  = r_images_b64 sample_parts.
Proof.
  destruct (mergedContent_spec sample_answer sample_parts)
    as (_ & _ & _ & _ & _ & _ & H7 & H8 & _).
  split; [apply H7 | apply H8]; reflexivity.
Defined.

(** ** The wizard *)

Lemma wizard_step_content z z' :
  wizard_step z z' ->
  (wz_step z <> wz_form -> wz_content z <> None) ->
  (wz_step z' <> wz_form -> wz_content z' <> None).
Proof.
  intros Hstep Hinv. destruct Hstep; simpl; try discriminate; try exact Hinv;
    try (intros _; rewrite H0; discriminate).
Qed.

(** X16: the wizard never shows the results, the refine panel or the editor
    without content, so the editor is always mounted with content; the
    editor can only be entered from the refine step; a refinement keeps the
    step and the campaign context, and a failed request keeps step and
    content. *)
Theorem wizard_content (z : Wizard) :
  wizard_reachable z ->
  (wz_step z <> wz_form -> exists g, wz_content z = Some g) /\
  (forall z', wizard_step z z' -> wz_step z' = wz_editor ->
     wz_step z = wz_editor \/ wz_step z = wz_refine) /\
  (forall g el data,
     wz_step (onRefined g (mergedContent el data (g_parts g)) z) = wz_step z /\
     exists g',
       wz_content (onRefined g (mergedContent el data (g_parts g)) z) = Some g' /\
       g_parts g' = mergedContent el data (g_parts g) /\
       g_core_idea g' = g_core_idea g /\ g_audience g' = g_audience g /\
       g_writing_style g' = g_writing_style g /\
       g_collateral_type g' = g_collateral_type g) /\
  (forall message,
     wz_step (create_failed message z) = wz_step z /\
     wz_content (create_failed message z) = wz_content z /\
     wz_error (create_failed message z) = Some message /\
     wz_isLoading (create_failed message z) = false).
Proof.
  intros Hr.
  assert (wz_step z <> wz_form -> wz_content z <> None) as Hinv.
  { induction Hr as [| z z' _ IH Hstep]; [simpl; congruence |].
    eapply wizard_step_content; eassumption. }
  split; [| split; [| split]].
  - intros Hne. destruct (wz_content z) as [g |] eqn:Hc; [eauto |].
    exfalso. apply (Hinv Hne). reflexivity.
  - intros z' Hstep He. destruct Hstep; simpl in He; try discriminate; auto.
  - intros g el data. split; [reflexivity |].
    eexists. split; [reflexivity |]. repeat split.
  - intros message. repeat split.
Qed.

Lemma wizard_content_witness :
  exists g, wz_content (setStep wz_editor
                          (setStep wz_refine
                             (create_ok {| f_core_idea := "flu shots";
                                           f_audience := "Seniors";
                                           f_writing_style := "Informative";
                                           f_collateral_type := "A4" |}
                                sample_parts (create_start wizard_initial)))) = Some g.
Proof.
  apply wizard_content; [| discriminate].
  eapply wizard_reach_step; [| eapply wizard_refine_next; reflexivity].
  eapply wizard_reach_step; [| eapply wizard_results_next; reflexivity].
  eapply wizard_reach_step; [| apply wizard_created].
  eapply wizard_reach_step; [apply wizard_reach_initial | apply wizard_submit; reflexivity].
Defined.

(** ** Session invariants *)

(** X17: in every state of a session the Scene lists each object once,
    every listed object exists, the selected object - if any - is one of the
    objects on the canvas, and a decode is pending only once the canvas
    exists. *)
Theorem session_invariant (rt : Runtime) (c : Content) (box : option (Q * Q)) (s : State) :
  reachable rt c box s ->
  NoDup (scene s) /\
  (forall i, i ∈ scene s -> exists o, heap s !! i = Some o) /\
  (forall i, selectedObject s = Some i -> i ∈ scene s /\ exists o, heap s !! i = Some o) /\
  (canvas s = None -> scene s = [] /\ selectedObject s = None /\ pending s = []).
Proof.
  intros Hr. pose proof (reachable_wf _ _ _ _ Hr) as Hwf.
  assert (forall i, i ∈ scene s -> exists o, heap s !! i = Some o) as Hobj.
  { intros i Hi. apply (wf_heap s Hwf), (wf_fresh s Hwf), Hi. }
  split; [apply (wf_nodup s Hwf) |].
  split; [exact Hobj |].
  split.
  - intros i Hsel. pose proof (wf_selected s Hwf i Hsel) as Hi. auto.
  - intros Hc.
    assert (scene s = []) as Hs by (unfold scene; rewrite Hc; reflexivity).
    split; [exact Hs |]. split; [| apply (wf_pending s Hwf Hc)].
    destruct (selectedObject s) as [i |] eqn:Hsel; [| reflexivity].
    pose proof (wf_selected s Hwf i Hsel) as Hi. rewrite Hs in Hi. inversion Hi.
Qed.

Lemma session_invariant_witness :
  NoDup (scene late_completion) /\
  (forall i, i ∈ scene late_completion -> exists o, heap late_completion !! i = Some o).
Proof.
  assert (reachable fabric_rt content_image sample_box late_completion) as Hr.
  { eapply reach_step; [apply rebuilt_letter_reachable |].
    apply step_decoded; [vm_compute; reflexivity | reflexivity | reflexivity]. }
  destruct (session_invariant fabric_rt content_image sample_box late_completion Hr)
    as (H1 & H2 & _).
  exact (conj H1 H2).
Defined.

(** ** Without a selection *)

(** X18: with nothing selected the editing operations are silent no-ops:
    style writes, both flips, both reorder buttons and Delete return the
    state unchanged.  This is the state Delete leaves behind. *)
Theorem no_selection_noop (s : State) :
  selectedObject s = None ->
  (forall rt prop val, updateSelected rt prop val s = s) /\
  flipHorizontal s = s /\ flipVertical s = s /\
  bringFront s = s /\ sendBack s = s /\
  handleDelete s = s /\
  handleClear s = s.
Proof.
  intros Hsel.
  unfold updateSelected, flipHorizontal, flipVertical, flip_selected, bringFront, sendBack,
    handleDelete, handleClear.
  rewrite Hsel. repeat split; try (destruct (canvas s); reflexivity).
  destruct s; simpl in *. subst. reflexivity.
Qed.

Lemma no_selection_noop_witness :
  (forall prop val,
     updateSelected fabric_rt prop val (handleDelete added_text) = handleDelete added_text) /\
  flipHorizontal (handleDelete added_text) = handleDelete added_text /\
  handleDelete (handleDelete added_text) = handleDelete added_text.
Proof.
  assert (selectedObject (handleDelete added_text) = None) as Hsel
      by (vm_compute; reflexivity).
  destruct (no_selection_noop (handleDelete added_text) Hsel) as (H1 & H2 & _ & _ & _ & H6 & _).
  exact (conj (H1 fabric_rt) (conj H2 H6)).
Defined.

(** ** The toggle buttons *)










